(** * MailApp bulk-mail backend: a shallow embedding of the dispatch
      sequencer, the failure classifier, the template engine and the
      archive naming of the Express server (the server module that imports
      [./db.js], nodemailer, puppeteer and archiver).

    Modelling conventions.
    - A JS string is a [string] (a list of 8-bit characters); [toLowerCase]
      and [toUpperCase] act on the ASCII letters only.
    - A JS primitive value is a [JsVal]; numbers are the integers.
    - A JS object used as a record of columns is an [Obj]: the list of its
      entries in [Object.entries] order.
    - The SQLite ledger is a pair of tables, each a list of rows; an
      UPDATE ... WHERE is a map over the rows that satisfy the WHERE clause.
    - The creation times of the batch rows are set by the database and are
      not modelled; the query that takes the latest batch of a name is a
      parameter that returns one of the batches of the name.
    - The SMTP transport is an abstract state machine; every call made on it
      and every [sleep] is appended to a trace. *)

From Stdlib Require Import String Ascii List ZArith NArith Arith Bool Lia.
From Stdlib Require Import Numbers.DecimalString Numbers.DecimalPos.
Import ListNotations.
Open Scope string_scope.
Open Scope nat_scope.

(* ================================================================== *)
(** ** JS strings *)

Module JsString.

Definition is_upper (c : ascii) : bool :=
  let n := nat_of_ascii c in (65 <=? n)%nat && (n <=? 90)%nat.

Definition is_lower (c : ascii) : bool :=
  let n := nat_of_ascii c in (97 <=? n)%nat && (n <=? 122)%nat.

Definition is_digit (c : ascii) : bool :=
  let n := nat_of_ascii c in (48 <=? n)%nat && (n <=? 57)%nat.

Definition lower_char (c : ascii) : ascii :=
  if is_upper c then ascii_of_nat (nat_of_ascii c + 32) else c.

Definition upper_char (c : ascii) : ascii :=
  if is_lower c then ascii_of_nat (nat_of_ascii c - 32) else c.

Fixpoint map_chars (f : ascii -> ascii) (s : string) : string :=
  match s with
  | EmptyString => EmptyString
  | String c s' => String (f c) (map_chars f s')
  end.

(** [s.toLowerCase()] and [s.toUpperCase()]. *)
Definition toLowerCase (s : string) : string := map_chars lower_char s.
Definition toUpperCase (s : string) : string := map_chars upper_char s.

(** [s.startsWith(p)]. *)
Fixpoint startsWith (s p : string) : bool :=
  match p, s with
  | EmptyString, _ => true
  | String _ _, EmptyString => false
  | String a p', String b s' => Ascii.eqb a b && startsWith s' p'
  end.

(** [s.includes(sub)]. *)
Fixpoint includes (s sub : string) : bool :=
  startsWith s sub ||
  match s with
  | EmptyString => false
  | String _ s' => includes s' sub
  end.

(** Drop the first [n] characters. *)
Fixpoint drop (n : nat) (s : string) : string :=
  match n, s with
  | O, _ => s
  | S _, EmptyString => EmptyString
  | S n', String _ s' => drop n' s'
  end.

Fixpoint all_chars (p : ascii -> bool) (s : string) : bool :=
  match s with
  | EmptyString => true
  | String c s' => p c && all_chars p s'
  end.

(** [list.includes(x)] on a list of strings. *)
Definition list_includes (l : list string) (x : string) : bool :=
  existsb (String.eqb x) l.

Definition is_space (c : ascii) : bool :=
  let n := nat_of_ascii c in ((9 <=? n)%nat && (n <=? 13)%nat) || (n =? 32)%nat.

Fixpoint trim_start (s : string) : string :=
  match s with
  | EmptyString => EmptyString
  | String c s' => if is_space c then trim_start s' else s
  end.

Fixpoint rev_string (s : string) : string :=
  match s with
  | EmptyString => EmptyString
  | String c s' => rev_string s' ++ String c EmptyString
  end.

(** [s.trim()]. *)
Definition trim (s : string) : string :=
  rev_string (trim_start (rev_string (trim_start s))).

End JsString.
Import JsString.

(* ================================================================== *)
(** ** JS primitive values *)

Inductive JsVal : Type :=
| VUndefined
| VNull
| VBool (b : bool)
| VNum (n : Z)
| VStr (s : string).

Module JsVal_ops.

(** [String(v)]. *)
Definition toStr (v : JsVal) : string :=
  match v with
  | VUndefined => "undefined"
  | VNull => "null"
  | VBool true => "true"
  | VBool false => "false"
  | VNum n => NilEmpty.string_of_int (Z.to_int n)
  | VStr s => s
  end.

(** ToBoolean. *)
Definition truthy (v : JsVal) : bool :=
  match v with
  | VUndefined | VNull => false
  | VBool b => b
  | VNum n => negb (Z.eqb n 0)
  | VStr s => negb (String.eqb s "")
  end.

(** [v == null]. *)
Definition is_nullish (v : JsVal) : bool :=
  match v with
  | VUndefined | VNull => true
  | _ => false
  end.

(** [v === n] for a number literal [n]. *)
Definition strict_eq_num (v : JsVal) (n : Z) : bool :=
  match v with
  | VNum m => Z.eqb m n
  | _ => false
  end.

(** [String(v || "")]. *)
Definition str_or_empty (v : JsVal) : string :=
  if truthy v then toStr v else "".

End JsVal_ops.
Import JsVal_ops.

(* ================================================================== *)
(** ** Errors raised by the transport and their classification *)

(** An error object as the catch blocks read it.  [err_message] is
    [err.message] (the empty string when the property is absent);
    [err_string] is [String(err)], which the code reads only when the
    message is empty. *)
Record JsError : Type := mkJsError {
  err_message : string;
  err_string : string;
  err_code : JsVal;
  err_response : JsVal;
  err_responseCode : JsVal
}.

Inductive FailureClass : Type := TEMP_AUTH | NETWORK | OTHER.

Module Classifier.

(** [isTemporaryAuthError(err)]; [None] is a falsy [err]. *)
Definition isTemporaryAuthError (err : option JsError) : bool :=
  match err with
  | None => false
  | Some e =>
      if strict_eq_num (err_responseCode e) 454 then true
      else
        let m := toLowerCase (err_message e) in
        let r := toLowerCase (str_or_empty (err_response e)) in
        includes m "454 4.7.0" ||
        includes r "454 4.7.0" ||
        includes m "temporary authentication failure" ||
        includes r "temporary authentication failure"
  end.

Definition network_codes : list string :=
  [ "ECONNECTION"; "ECONNRESET"; "ETIMEDOUT"; "ESOCKET"; "EAI_AGAIN";
    "ENOTFOUND" ].

(** [isNetworkError(err)]. *)
Definition isNetworkError (err : option JsError) : bool :=
  match err with
  | None => false
  | Some e =>
      let code := toUpperCase (str_or_empty (err_code e)) in
      if list_includes network_codes code then true
      else
        let msg := toLowerCase (err_message e) in
        let resp := toLowerCase (str_or_empty (err_response e)) in
        let text := msg ++ " " ++ resp in
        includes text "network error" ||
        includes text "connection lost" ||
        includes text "connection closed" ||
        includes text "connection reset" ||
        includes text "socket hang up" ||
        includes text "timed out" ||
        includes text "timeout"
  end.

(** [const reason = tempAuth ? "TEMP_AUTH" : netErr ? "NETWORK" : "OTHER"]. *)
Definition reason_of (tempAuth netErr : bool) : FailureClass :=
  if tempAuth then TEMP_AUTH else if netErr then NETWORK else OTHER.

Definition classify (err : option JsError) : FailureClass :=
  reason_of (isTemporaryAuthError err) (isNetworkError err).

End Classifier.
Import Classifier.

(* ================================================================== *)
(** ** JS objects as ordered maps of columns *)

(** The entries of an object in [Object.entries] order. *)
Definition Obj : Type := list (string * JsVal).

Module JsObj.

Definition keys (o : Obj) : list string := map fst o.

(** [o[k]] for an own key; [None] is [undefined] from an absent key. *)
Fixpoint obj_get (k : string) (o : Obj) : option JsVal :=
  match o with
  | [] => None
  | (k', v) :: o' => if String.eqb k' k then Some v else obj_get k o'
  end.

Definition has_key (k : string) (o : Obj) : bool :=
  existsb (String.eqb k) (keys o).

Definition digit_val (c : ascii) : N := N.of_nat (nat_of_ascii c - 48).

Fixpoint parse_dec (s : string) (acc : N) : N :=
  match s with
  | EmptyString => acc
  | String c s' => parse_dec s' (10 * acc + digit_val c)%N
  end.

(** A key is an array index when it is the canonical decimal numeral of an
    integer below 2^32 - 1; such keys are enumerated first, in ascending
    numeric order, before the other keys in insertion order. *)
Definition array_index (k : string) : option N :=
  match k with
  | EmptyString => None
  | String c rest =>
      if all_chars is_digit k &&
         (negb (Ascii.eqb c "0") || String.eqb rest "")
      then
        let n := parse_dec k 0 in
        if (n <? 4294967295)%N then Some n else None
      else None
  end.

Fixpoint replace_value (k : string) (v : JsVal) (o : Obj) : Obj :=
  match o with
  | [] => []
  | (k', v') :: o' =>
      if String.eqb k' k then (k', v) :: o'
      else (k', v') :: replace_value k v o'
  end.

Fixpoint insert_index (n : N) (k : string) (v : JsVal) (o : Obj) : Obj :=
  match o with
  | [] => [(k, v)]
  | (k', v') :: o' =>
      match array_index k' with
      | Some m =>
          if (m <? n)%N then (k', v') :: insert_index n k v o'
          else (k, v) :: o
      | None => (k, v) :: o
      end
  end.

(** [o[k] = v] on own data properties: an existing key keeps its place. *)
Definition obj_set (k : string) (v : JsVal) (o : Obj) : Obj :=
  if has_key k o then replace_value k v o
  else
    match array_index k with
    | Some n => insert_index n k v o
    | None => (o ++ [(k, v)])%list
    end.

(** [{ ...base, ...src }]: copy the entries of [src] onto [base] in order;
    a [null] source adds nothing. *)
Definition spread (base : Obj) (src : option Obj) : Obj :=
  match src with
  | None => base
  | Some o => fold_left (fun acc kv => obj_set (fst kv) (snd kv) acc) o base
  end.

End JsObj.
Import JsObj.

(* ================================================================== *)
(** ** Template engine *)

Module Template.

Definition regexp_special : list ascii :=
  [ "."; "*"; "+"; "?"; "^"; "$"; "{"; "}"; "("; ")"; "|"; "["; "]";
    "\" ]%char.

Definition is_special (c : ascii) : bool :=
  existsb (Ascii.eqb c) regexp_special.

(** [escapeRegExp(str)]: a backslash before every metacharacter. *)
Fixpoint escapeRegExp (str : string) : string :=
  match str with
  | EmptyString => EmptyString
  | String c s' =>
      if is_special c then String "\" (String c (escapeRegExp s'))
      else String c (escapeRegExp s')
  end.

(** What a pattern source built from escaped text matches: a backslash
    followed by a character stands for that character, and any other
    character stands for itself.  [None] when the source ends in a lone
    backslash or holds an unescaped metacharacter. *)
Fixpoint literal_of_source (src : string) : option string :=
  match src with
  | EmptyString => Some EmptyString
  | String c rest =>
      if Ascii.eqb c "\" then
        match rest with
        | EmptyString => None
        | String d rest' =>
            if is_special d then option_map (String d) (literal_of_source rest')
            else None
        end
      else if is_special c then None
      else option_map (String c) (literal_of_source rest)
  end.

(** The source [`\\{${escapeRegExp(key)}\\}`] of the placeholder pattern. *)
Definition pattern_source (key : string) : string :=
  "\{" ++ escapeRegExp key ++ "\}".

(** The literal text the placeholder pattern of [key] matches. *)
Definition placeholder (key : string) : string := "{" ++ key ++ "}".

(** The replacement text of [String.prototype.replace] for one match of a
    pattern without capture groups: [$$], [$&], [$`] and [$'] are
    interpreted, every other character is copied. *)
Fixpoint expand_replacement (matched before after repl : string) : string :=
  match repl with
  | EmptyString => EmptyString
  | String c r =>
      if Ascii.eqb c "$" then
        match r with
        | EmptyString => String c EmptyString
        | String d r' =>
            if Ascii.eqb d "$" then
              String "$" (expand_replacement matched before after r')
            else if Ascii.eqb d "&" then
              matched ++ expand_replacement matched before after r'
            else if Ascii.eqb d "`" then
              before ++ expand_replacement matched before after r'
            else if Ascii.eqb d "'" then
              after ++ expand_replacement matched before after r'
            else String c (expand_replacement matched before after r)
        end
      else String c (expand_replacement matched before after r)
  end.

(** [s.replace(new RegExp(src, "g"), repl)] for a pattern that matches the
    non-empty literal [pat]: scan left to right; [before] is the text already
    passed, [skip] the number of characters of the current match still to
    pass. *)
Fixpoint replace_scan (pat repl before s : string) (skip : nat) : string :=
  match s with
  | EmptyString => EmptyString
  | String c s' =>
      match skip with
      | S k => replace_scan pat repl (before ++ String c "") s' k
      | O =>
          if startsWith s pat then
            expand_replacement pat before (drop (String.length pat) s) repl
            ++ replace_scan pat repl (before ++ String c "") s'
                 (String.length pat - 1)
          else
            String c (replace_scan pat repl (before ++ String c "") s' 0)
      end
  end.

Definition replace_placeholder (key repl s : string) : string :=
  replace_scan (placeholder key) repl "" s 0.

(** The loop body of [applyTemplate] for one entry. *)
Definition apply_entry (result : string) (kv : string * JsVal) : string :=
  let (key, rawValue) := kv in
  if String.eqb key "" then result
  else
    let value := if is_nullish rawValue then "" else toStr rawValue in
    replace_placeholder key value result.

(** [applyTemplate(template, recipient)]; [None] is a [null] recipient. *)
Definition applyTemplate (template : string) (recipient : option Obj)
  : string :=
  if String.eqb template "" then ""
  else
    match recipient with
    | None => template
    | Some o => fold_left apply_entry o template
    end.

(** [getField(recipient, fieldName, defaultValue)]. *)
Definition getField (recipient : option Obj) (fieldName defaultValue : string)
  : string :=
  match recipient with
  | None => defaultValue
  | Some o =>
      match find (fun k => String.eqb (toLowerCase k) (toLowerCase fieldName))
                 (keys o) with
      | None => defaultValue
      | Some key =>
          if String.eqb key "" then defaultValue
          else
            match obj_get key o with
            | None => defaultValue
            | Some value =>
                if is_nullish value then defaultValue else toStr value
            end
      end
  end.

End Template.
Import Template.

(* ================================================================== *)
(** ** The batch ledger *)

Inductive BatchStatus : Type := in_progress | stopped | completed.
Inductive RecStatus : Type := pending | sent | error.

(** A row of [batches].  The columns that the INSERT of the handler does
    not list hold [None] until an UPDATE writes them (their declared
    defaults are in the schema module, which the handler only imports). *)
Record BatchRow : Type := mkBatchRow {
  b_id : nat;
  b_subject : string;
  b_html_body : string;
  b_total : nat;
  b_csv_name : option string;
  b_status : BatchStatus;
  b_sent : option nat;
  b_failed : option nat;
  b_processed : option nat;
  b_stopped_at : option nat;
  b_error : option string
}.

(** A row of [batch_recipients]; [r_data_json] is the object whose JSON
    text the column stores. *)
Record RecipientRow : Type := mkRecipientRow {
  r_id : nat;
  r_batch_id : nat;
  r_idx : nat;
  r_email : string;
  r_name : string;
  r_data_json : Obj;
  r_status : RecStatus;
  r_attempt : nat;
  r_error : option string
}.

Record DB : Type := mkDB {
  batches : list BatchRow;
  batch_recipients : list RecipientRow
}.

Module Ledger.

(** The rowid SQLite gives to an inserted row: one more than the largest
    rowid in the table. *)
Definition next_rowid (ids : list nat) : nat := S (list_max ids).

(** [insertBatch.run(subject, htmlBody, total, csvName)]: returns
    [lastInsertRowid] and the new database. *)
Definition insertBatch (subject htmlBody : string) (total : nat)
  (csvName : option string) (db : DB) : nat * DB :=
  let id := next_rowid (map b_id (batches db)) in
  (id,
   mkDB (batches db ++
           [mkBatchRow id subject htmlBody total csvName in_progress
                       None None None None None])
        (batch_recipients db)).

(** [insertRec.run(batchId, idx, email, name, data_json)]. *)
Definition insertRec (batchId idx : nat) (email name : string) (data : Obj)
  (db : DB) : DB :=
  let id := next_rowid (map r_id (batch_recipients db)) in
  mkDB (batches db)
       (batch_recipients db ++
          [mkRecipientRow id batchId idx email name data pending 0 None]).

(** [updateBatch.run(sent, failed, processed, status, stopped_at, error,
    id)]. *)
Definition updateBatch (sent_ failed_ processed_ : nat) (status : BatchStatus)
  (stopped_at : option nat) (err : option string) (id : nat) (db : DB) : DB :=
  mkDB (map (fun b =>
               if b_id b =? id then
                 mkBatchRow (b_id b) (b_subject b) (b_html_body b) (b_total b)
                            (b_csv_name b) status (Some sent_) (Some failed_)
                            (Some processed_) stopped_at err
               else b)
            (batches db))
       (batch_recipients db).

(** [updateRec.run(status, attempt, error, batchId, idx)]. *)
Definition updateRec (status : RecStatus) (attempt : nat)
  (err : option string) (batchId idx : nat) (db : DB) : DB :=
  mkDB (batches db)
       (map (fun r =>
               if (r_batch_id r =? batchId) && (r_idx r =? idx) then
                 mkRecipientRow (r_id r) (r_batch_id r) (r_idx r) (r_email r)
                                (r_name r) (r_data_json r) status attempt err
               else r)
            (batch_recipients db)).

(** SELECT of the batch row with a given id. *)
Definition find_batch (id : nat) (db : DB) : option BatchRow :=
  find (fun b => b_id b =? id) (batches db).

(** SELECT of the recipient rows of a batch, and of the row at an index. *)
Definition rows_of (batchId : nat) (db : DB) : list RecipientRow :=
  filter (fun r => r_batch_id r =? batchId) (batch_recipients db).

Definition rows_at (batchId idx : nat) (db : DB) : list RecipientRow :=
  filter (fun r => r_idx r =? idx) (rows_of batchId db).

(** Referential integrity: every recipient row belongs to a stored batch. *)
Definition db_ok (db : DB) : Prop :=
  forall r, In r (batch_recipients db) ->
            In (r_batch_id r) (map b_id (batches db)).

(** ORDER BY idx: a stable insertion sort on the index. *)
Fixpoint insert_by_idx (row : RecipientRow) (rows : list RecipientRow)
  : list RecipientRow :=
  match rows with
  | [] => [row]
  | r :: rest =>
      if r_idx row <? r_idx r then row :: rows
      else r :: insert_by_idx row rest
  end.

Definition order_by_idx (rows : list RecipientRow) : list RecipientRow :=
  fold_right insert_by_idx [] rows.

(** [SELECT * FROM batch_recipients WHERE batch_id = ? ORDER BY idx]. *)
Definition select_recipients (batchId : nat) (db : DB) : list RecipientRow :=
  order_by_idx (rows_of batchId db).

(** [SELECT * FROM batches WHERE LOWER(csv_name) = LOWER(?)]: the batch
    rows that carry the name, in rowid order. *)
Definition batches_named (csvName : string) (db : DB) : list BatchRow :=
  filter (fun b =>
            match b_csv_name b with
            | Some n => String.eqb (toLowerCase n) (toLowerCase csvName)
            | None => false
            end)
         (batches db).

(** [... ORDER BY datetime(created_at) DESC LIMIT 1].  The creation times
    are set by the database, to the second, and are no part of the rows
    the handlers write; [latest] stands for the choice the query makes
    among the rows that carry the name. *)
Definition find_latest_batch (latest : list BatchRow -> option BatchRow)
  (csvName : string) (db : DB) : option BatchRow :=
  latest (batches_named csvName db).

(** What is known of that choice: it returns one of the rows it is given,
    and none only when there is none. *)
Definition chooses_member (latest : list BatchRow -> option BatchRow)
  : Prop :=
  forall l, match latest l with
            | Some b => In b l
            | None => l = []
            end.

End Ledger.
Import Ledger.

(* ================================================================== *)
(** ** The transport and the dispatch handler *)

Record MailOptions : Type := mkMailOptions {
  mo_from : option string;
  mo_to : string;
  mo_subject : string;
  mo_html : string
}.

(** What the handler does to the outside world, in order. *)
Inductive Event : Type :=
| EvVerify
| EvSendMail (m : MailOptions)
| EvSleep (ms : N).

(** The object [sendToRecipientWithRetry] returns. *)
Record SendResult : Type := mkSendResult {
  res_email : string;
  res_status : RecStatus;
  res_attempt : nat;
  res_error : option string;
  res_reason : option FailureClass
}.

Inductive Body : Type :=
| ErrorBody (error_text : string) (details : option string) (code : JsVal)
| SendBody (sent_ failed_ total_ processed_ : nat) (stoppedAt : option nat)
           (results : list SendResult) (batchId : nat).

Record Response : Type := mkResponse {
  http_status : nat;
  http_body : Body
}.

(** The body of a POST to [/api/send-emails].  [req_recipients] is [None]
    when the field is not an array; an element is [None] when it is
    [null]. *)
Record SendRequest : Type := mkSendRequest {
  req_recipients : option (list (option Obj));
  req_subject : string;
  req_htmlBody : string;
  req_csvName : string
}.

Definition MAX_RETRIES : nat := 3.
Definition RETRY_DELAY_MS : N := 15000%N.

(** [a || b] on strings. *)
Definition or_str (a b : string) : string :=
  if String.eqb a "" then b else a.

(** [err.message || String(err)]. *)
Definition error_text_of (err : JsError) : string :=
  or_str (err_message err) (err_string err).

(** [!stoppedAt]: true for [null] and for the index 0. *)
Definition not_stoppedAt (stoppedAt : option nat) : bool :=
  match stoppedAt with
  | None => true
  | Some i => i =? 0
  end.

(** [processed === total && !stoppedAt ? "completed" : "stopped"]. *)
Definition finalStatus (processed total : nat) (stoppedAt : option nat)
  : BatchStatus :=
  if (processed =? total) && not_stoppedAt stoppedAt then completed
  else stopped.

Section Server.

(** The SMTP server behind the pooled transporter: a state and the outcome
    of [verify()] and of [sendMail(options)] in a state ([None]: the promise
    resolves; [Some err]: it rejects with [err]). *)
Variable Env : Type.
Variable smtp_verify : Env -> option JsError * Env.
Variable smtp_sendMail : MailOptions -> Env -> option JsError * Env.
Variable SMTP_USER : option string.

Record World : Type := mkWorld {
  trace : list Event;
  env : Env
}.

Definition log (ev : Event) (w : World) : World :=
  mkWorld (trace w ++ [ev]) (env w).

Definition sleep (ms : N) (w : World) : World := log (EvSleep ms) w.

Definition verify (w : World) : option JsError * World :=
  let (o, e) := smtp_verify (env w) in
  (o, mkWorld (trace w ++ [EvVerify]) e).

Definition sendMail (opts : MailOptions) (w : World)
  : option JsError * World :=
  let (o, e) := smtp_sendMail opts (env w) in
  (o, mkWorld (trace w ++ [EvSendMail opts]) e).

(** The loop of [verifySmtpWithRetry], entered with the counter at
    [attempt]; [fuel] bounds the iterations.  [Some err]: [err] is thrown. *)
Fixpoint verify_from (fuel attempt : nat) (w : World)
  : option JsError * World :=
  match fuel with
  | O => (None, w)
  | S fuel' =>
      if attempt <=? MAX_RETRIES then
        let (o, w1) := verify w in
        match o with
        | None => (None, w1)
        | Some err =>
            let tempAuth := isTemporaryAuthError (Some err) in
            let netErr := isNetworkError (Some err) in
            if (tempAuth || netErr) && (attempt <? MAX_RETRIES) then
              verify_from fuel' (S attempt) (sleep RETRY_DELAY_MS w1)
            else (Some err, w1)
        end
      else (None, w)
  end.

Definition verifySmtpWithRetry (w : World) : option JsError * World :=
  verify_from MAX_RETRIES 1 w.

(** The retry loop of [sendToRecipientWithRetry]; [None] is the
    [undefined] that falling out of the loop would return. *)
Fixpoint send_attempts (fuel attempt : nat) (email : string)
  (mailOptions : MailOptions) (w : World) : option SendResult * World :=
  match fuel with
  | O => (None, w)
  | S fuel' =>
      if attempt <=? MAX_RETRIES then
        let (o, w1) := sendMail mailOptions w in
        match o with
        | None => (Some (mkSendResult email sent attempt None None), w1)
        | Some err =>
            let tempAuth := isTemporaryAuthError (Some err) in
            let netErr := isNetworkError (Some err) in
            let retryable := (tempAuth || netErr) && (attempt <? MAX_RETRIES) in
            if retryable then
              send_attempts fuel' (S attempt) email mailOptions
                            (sleep RETRY_DELAY_MS w1)
            else
              let reason := reason_of tempAuth netErr in
              (Some (mkSendResult email error attempt
                                  (Some (error_text_of err)) (Some reason)),
               w1)
        end
      else (None, w)
  end.

(** [{ Name: name, ...recipient }]. *)
Definition make_vars (name : string) (recipient : option Obj) : Obj :=
  spread [("Name", VStr name)] recipient.

Definition make_mailOptions (email name subjectTemplate htmlBodyTemplate
  : string) (recipient : option Obj) : MailOptions :=
  let vars := make_vars name recipient in
  let personalizedSubject := applyTemplate subjectTemplate (Some vars) in
  let personalizedHtml := applyTemplate htmlBodyTemplate (Some vars) in
  mkMailOptions SMTP_USER email
                (or_str personalizedSubject "No subject")
                (or_str personalizedHtml ("<p>Dear " ++ name ++ ",</p>")).

Definition sendToRecipientWithRetry (recipient : option Obj)
  (subjectTemplate htmlBodyTemplate : string) (w : World)
  : option SendResult * World :=
  let email := getField recipient "Email" "" in
  let name := getField recipient "Name" "Candidate" in
  if String.eqb email "" then
    (Some (mkSendResult "" error 0
                        (Some "Missing Email field in recipient row")
                        (Some OTHER)),
     w)
  else
    send_attempts MAX_RETRIES 1 email
      (make_mailOptions email name subjectTemplate htmlBodyTemplate recipient)
      w.

(** The local variables of the send loop together with the ledger and the
    world. *)
Record LoopState : Type := mkLoopState {
  ls_results : list SendResult;
  ls_stoppedAt : option nat;
  ls_sentCount : nat;
  ls_failedCount : nat;
  ls_db : DB;
  ls_world : World
}.

Inductive LoopExit : Type :=
| Finished (st : LoopState)
| Threw (st : LoopState).

Definition is_sent (s : RecStatus) : bool :=
  match s with sent => true | _ => false end.

Definition is_error (s : RecStatus) : bool :=
  match s with error => true | _ => false end.

(** [r.reason === "NETWORK" || r.reason === "TEMP_AUTH"]. *)
Definition is_infra (reason : option FailureClass) : bool :=
  match reason with
  | Some NETWORK | Some TEMP_AUTH => true
  | _ => false
  end.

(** The [for] loop over [recipients], entered at index [i] with [rest] the
    recipients from [i] on. *)
Fixpoint send_loop (batchId : nat) (subject htmlBody : string) (i : nat)
  (rest : list (option Obj)) (st : LoopState) : LoopExit :=
  match rest with
  | [] => Finished st
  | recipient :: rest' =>
      let (ro, w1) :=
        sendToRecipientWithRetry recipient subject htmlBody (ls_world st) in
      match ro with
      | None => Threw (mkLoopState (ls_results st) (ls_stoppedAt st)
                                   (ls_sentCount st) (ls_failedCount st)
                                   (ls_db st) w1)
      | Some r =>
          let results := (ls_results st ++ [r])%list in
          let statusForDb := if is_sent (res_status r) then sent else error in
          let sentCount :=
            if is_sent (res_status r) then S (ls_sentCount st)
            else ls_sentCount st in
          let failedCount :=
            if is_error (res_status r) then S (ls_failedCount st)
            else ls_failedCount st in
          let db1 :=
            updateRec statusForDb (res_attempt r) (res_error r) batchId i
                      (ls_db st) in
          if is_error (res_status r) && is_infra (res_reason r) then
            Finished (mkLoopState results (Some i) sentCount failedCount
                                  db1 w1)
          else
            send_loop batchId subject htmlBody (S i) rest'
                      (mkLoopState results (ls_stoppedAt st) sentCount
                                   failedCount db1 w1)
      end
  end.

(** [recipients.forEach((rec, idx) => insertRec.run(...))] from [idx] on. *)
Fixpoint insert_recipients (batchId idx : nat) (recs : list (option Obj))
  (db : DB) : DB :=
  match recs with
  | [] => db
  | rec :: rest =>
      insert_recipients batchId (S idx) rest
        (insertRec batchId idx (getField rec "Email" "")
                   (getField rec "Name" "")
                   (match rec with Some o => o | None => [] end) db)
  end.

(** The handler of POST [/api/send-emails].  The first component is the
    response, [None] when the handler throws instead of responding. *)
Definition send_emails (req : SendRequest) (db : DB) (w : World)
  : option Response * DB * World :=
  match req_recipients req with
  | None | Some [] =>
      (Some (mkResponse 400
               (ErrorBody "recipients must be a non-empty array" None
                          VUndefined)),
       db, w)
  | Some recipients =>
      if String.eqb (req_subject req) "" || String.eqb (req_htmlBody req) ""
      then
        (Some (mkResponse 400
                 (ErrorBody "subject and htmlBody are required" None
                            VUndefined)),
         db, w)
      else
        let subject := req_subject req in
        let htmlBody := req_htmlBody req in
        let csvName :=
          if String.eqb (req_csvName req) "" then None
          else Some (req_csvName req) in
        let (batchId, db1) :=
          insertBatch subject htmlBody (List.length recipients) csvName db in
        let db2 := insert_recipients batchId 0 recipients db1 in
        let (vo, w1) := verifySmtpWithRetry w in
        match vo with
        | Some err =>
            (Some (mkResponse 500
                     (ErrorBody "SMTP connection failed"
                                (Some (err_message err)) (err_code err))),
             updateBatch 0 0 0 stopped None
               (Some ("SMTP verify failed: " ++ error_text_of err))
               batchId db2,
             w1)
        | None =>
            let total := List.length recipients in
            match send_loop batchId subject htmlBody 0 recipients
                    (mkLoopState [] None 0 0 db2 w1) with
            | Threw st => (None, ls_db st, ls_world st)
            | Finished st =>
                let processed := List.length (ls_results st) in
                let status := finalStatus processed total (ls_stoppedAt st) in
                (Some (mkResponse 200
                         (SendBody (ls_sentCount st) (ls_failedCount st)
                                   total processed (ls_stoppedAt st)
                                   (ls_results st) batchId)),
                 updateBatch (ls_sentCount st) (ls_failedCount st) processed
                             status (ls_stoppedAt st) None batchId
                             (ls_db st),
                 ls_world st)
            end
        end
  end.

End Server.

Arguments World Env : clear implicits.
Arguments mkWorld {Env} _ _.
Arguments trace {Env} _.
Arguments env {Env} _.
Arguments LoopState Env : clear implicits.
Arguments LoopExit Env : clear implicits.
Arguments ls_results {Env} _.
Arguments ls_stoppedAt {Env} _.
Arguments ls_sentCount {Env} _.
Arguments ls_failedCount {Env} _.
Arguments ls_db {Env} _.
Arguments ls_world {Env} _.

(* ================================================================== *)
(** ** Rendering recipients to a ZIP archive of PDF documents *)

Module Archive.

Definition is_safe_char (c : ascii) : bool :=
  is_lower c || is_upper c || is_digit c ||
  existsb (Ascii.eqb c) [ "@"; "."; "_"; "-" ]%char.

(** [String(email).replace(/[^a-z0-9@._-]/gi, "_")]. *)
Definition sanitize (email : string) : string :=
  map_chars (fun c => if is_safe_char c then c else "_"%char) email.

(** The entry name of [/api/email-pdfs]:
    [`${safeEmail || "recipient"}.pdf`]. *)
Definition filename_of (email : string) : string :=
  or_str (sanitize email) "recipient" ++ ".pdf".

(** The entry name of [/api/csv-pdfs], which sanitizes
    [email || "recipient"]. *)
Definition csv_filename_of (email : string) : string :=
  sanitize (or_str email "recipient") ++ ".pdf".

Definition nl : string := String (ascii_of_nat 10) "".
Definition dq : string := String (ascii_of_nat 34) "".

Definition unlines (ls : list string) : string := String.concat nl ls.

(** The HTML shell put around a body that is not a full document. *)
Definition html_shell (personalizedSubject personalizedHtml : string)
  : string :=
  unlines
    [ "<!DOCTYPE html>";
      "<html>";
      "  <head>";
      "    <meta charset=" ++ dq ++ "utf-8" ++ dq ++ " />";
      "    <title>" ++ personalizedSubject ++ "</title>";
      "    <style>";
      "      body {";
      "        font-family: Arial, sans-serif;";
      "        font-size: 14px;";
      "        line-height: 1.5;";
      "        margin: 24px;";
      "      }";
      "    </style>";
      "  </head>";
      "  <body>";
      "    " ++ personalizedHtml;
      "  </body>";
      "</html>" ].

Definition full_html (personalizedSubject personalizedHtml : string)
  : string :=
  if includes (toLowerCase personalizedHtml) "<html" then personalizedHtml
  else html_shell personalizedSubject personalizedHtml.

Section Renderer.

(** The headless browser: [launch] is the page a started browser gives
    ([inr msg] when starting it rejects); [page_pdf html b] loads [html]
    and prints the page, or rejects with a message. *)
Variable Pdf : Type.
Variable Browser : Type.
Variable launch : Browser + string.
Variable page_pdf : string -> Browser -> (Pdf + string) * Browser.

(** The choice of the latest batch of a name, see [find_latest_batch]. *)
Variable latest : list BatchRow -> option BatchRow.

Record PdfFile : Type := mkPdfFile {
  filename : string;
  buffer : Pdf
}.

Inductive ArchiveResponse : Type :=
| ArchiveError (status : nat) (error_text details : string)
| ArchiveZip (entries : list (string * Pdf)).

Record ArchiveRequest : Type := mkArchiveRequest {
  areq_recipients : option (list (option Obj));
  areq_subject : string;
  areq_htmlBody : string
}.

(** The [for (const recipient of recipients)] loop of [/api/email-pdfs];
    [inr msg] when a page operation rejects. *)
Fixpoint render_files (subject htmlBody : string)
  (recipients : list (option Obj)) (b : Browser) (pdfFiles : list PdfFile)
  : list PdfFile + string :=
  match recipients with
  | [] => inl pdfFiles
  | recipient :: rest =>
      let email := getField recipient "Email" "unknown" in
      let name := getField recipient "Name" "Candidate" in
      let vars := make_vars name recipient in
      let personalizedSubject := applyTemplate subject (Some vars) in
      let personalizedHtml := applyTemplate htmlBody (Some vars) in
      let fullHtml := full_html personalizedSubject personalizedHtml in
      match page_pdf fullHtml b with
      | (inr msg, _) => inr msg
      | (inl pdfBuffer, b') =>
          render_files subject htmlBody rest b'
            (pdfFiles ++ [mkPdfFile (filename_of email) pdfBuffer])%list
      end
  end.

(** [for (const file of pdfFiles) archive.append(file.buffer,
    { name: file.filename })]. *)
Definition append_all (pdfFiles : list PdfFile) : list (string * Pdf) :=
  fold_left (fun archive file =>
               (archive ++ [(filename file, buffer file)])%list)
            pdfFiles [].

(** The handler of POST [/api/email-pdfs]. *)
Definition email_pdfs (req : ArchiveRequest) : ArchiveResponse :=
  match areq_recipients req with
  | None | Some [] =>
      ArchiveError 400 "recipients must be a non-empty array" ""
  | Some recipients =>
      if String.eqb (areq_subject req) "" || String.eqb (areq_htmlBody req) ""
      then ArchiveError 400 "subject and htmlBody are required" ""
      else
        match launch with
        | inr msg => ArchiveError 500 "PDF generation failed" msg
        | inl page =>
            match render_files (areq_subject req) (areq_htmlBody req)
                               recipients page [] with
            | inr msg => ArchiveError 500 "PDF generation failed" msg
            | inl pdfFiles => ArchiveZip (append_all pdfFiles)
            end
        end
  end.

(** [{ Name: name, Email: email, ...data }]. *)
Definition make_vars_stored (name email : string) (data : Obj) : Obj :=
  spread [("Name", VStr name); ("Email", VStr email)] (Some data).

(** The address [/api/csv-pdfs] uses for a stored row:
    [rec.email || getField(data, "Email", "unknown")]. *)
Definition stored_email (rec : RecipientRow) : string :=
  or_str (r_email rec) (getField (Some (r_data_json rec)) "Email" "unknown").

(** The [for (const rec of recRows)] loop of [/api/csv-pdfs]. *)
Fixpoint render_rows (batchRow : BatchRow) (recRows : list RecipientRow)
  (b : Browser) (pdfFiles : list PdfFile) : list PdfFile + string :=
  match recRows with
  | [] => inl pdfFiles
  | rec :: rest =>
      let data := r_data_json rec in
      let email := stored_email rec in
      let name :=
        or_str (r_name rec) (getField (Some data) "Name" "Candidate") in
      let vars := make_vars_stored name email data in
      let personalizedSubject :=
        applyTemplate (b_subject batchRow) (Some vars) in
      let personalizedHtml :=
        applyTemplate (b_html_body batchRow) (Some vars) in
      let fullHtml := full_html personalizedSubject personalizedHtml in
      match page_pdf fullHtml b with
      | (inr msg, _) => inr msg
      | (inl pdfBuffer, b') =>
          render_rows batchRow rest b'
            (pdfFiles ++ [mkPdfFile (csv_filename_of email) pdfBuffer])%list
      end
  end.

(** The handler of GET [/api/csv-pdfs]; [csvName] is the query parameter,
    empty when absent. *)
Definition csv_pdfs (csvName : string) (db : DB) : ArchiveResponse :=
  if String.eqb csvName "" || String.eqb (trim csvName) "" then
    ArchiveError 400 "csvName query is required" ""
  else
    match find_latest_batch latest (trim csvName) db with
    | None => ArchiveError 404 "No batch found for this csvName" ""
    | Some batchRow =>
        let recRows := select_recipients (b_id batchRow) db in
        match launch with
        | inr msg => ArchiveError 500 "PDF generation failed" msg
        | inl page =>
            match render_rows batchRow recRows page [] with
            | inr msg => ArchiveError 500 "PDF generation failed" msg
            | inl pdfFiles => ArchiveZip (append_all pdfFiles)
            end
        end
    end.

(** The answer of GET [/api/recipient-pdf/:id]. *)
Inductive PdfResponse : Type :=
| PdfError (status : nat) (error_text details : string)
| PdfDownload (download_name : string) (body : Pdf).

(** The row the SELECT of [/api/recipient-pdf/:id] gets: the first
    recipient row with the id that joins with a batch, and that batch. *)
Definition find_recipient (id : nat) (db : DB)
  : option (RecipientRow * BatchRow) :=
  match find (fun r =>
                (r_id r =? id) &&
                match find_batch (r_batch_id r) db with
                | Some _ => true
                | None => false
                end)
             (batch_recipients db) with
  | None => None
  | Some r =>
      match find_batch (r_batch_id r) db with
      | Some b => Some (r, b)
      | None => None
      end
  end.

(** The handler of GET [/api/recipient-pdf/:id].  [id] is
    [Number(req.params.id)]: [None] for NaN, otherwise an integer. *)
Definition recipient_pdf (id : option Z) (db : DB) : PdfResponse :=
  match id with
  | None => PdfError 400 "invalid recipient id" ""
  | Some recipientId =>
      if Z.eqb recipientId 0 then PdfError 400 "invalid recipient id" ""
      else
        match (if Z.ltb recipientId 0 then None
               else find_recipient (Z.to_nat recipientId) db) with
        | None => PdfError 404 "recipient not found" ""
        | Some (row, batch) =>
            let email := or_str (r_email row) "unknown@example.com" in
            let name := or_str (r_name row) "Candidate" in
            let data := r_data_json row in
            let vars := make_vars_stored name email data in
            let personalizedSubject :=
              applyTemplate (or_str (b_subject batch) "No subject")
                            (Some vars) in
            let personalizedHtml :=
              applyTemplate (b_html_body batch) (Some vars) in
            let fullHtml := full_html personalizedSubject personalizedHtml in
            match launch with
            | inr msg => PdfError 500 "PDF generation failed" msg
            | inl page =>
                match page_pdf fullHtml page with
                | (inr msg, _) => PdfError 500 "PDF generation failed" msg
                | (inl pdfBuffer, _) =>
                    PdfDownload (filename_of email) pdfBuffer
                end
            end
        end
  end.

End Renderer.

End Archive.
Import Archive.

(* ================================================================== *)
(** ** The sending page: preparing the request *)

Module Frontend.

Definition newline : ascii := ascii_of_nat 10.

(** [s.replace(/c/g, repl)] for a pattern of one character and a
    replacement without dollar patterns. *)
Fixpoint replace_char (c : ascii) (repl s : string) : string :=
  match s with
  | EmptyString => EmptyString
  | String d s' =>
      if Ascii.eqb d c then repl ++ replace_char c repl s'
      else String d (replace_char c repl s')
  end.

(** The three replacements that escape the HTML-reserved characters. *)
Definition escape_html (text : string) : string :=
  replace_char ">" "&gt;" (replace_char "<" "&lt;"
    (replace_char "&" "&amp;" text)).

(** [s.split(/\n{2,}/)]: [cur] is the piece being read; [in_sep] holds
    while a run of two or more newlines is being passed. *)
Fixpoint split_blank (s cur : string) (in_sep : bool) : list string :=
  match s with
  | EmptyString => [cur]
  | String c s' =>
      if Ascii.eqb c newline then
        if in_sep then split_blank s' cur true
        else
          match s' with
          | String d _ =>
              if Ascii.eqb d newline then cur :: split_blank s' "" true
              else split_blank s' (cur ++ String c "") false
          | EmptyString => [cur ++ String c ""]
          end
      else split_blank s' (cur ++ String c "") false
  end.

(** [plainTextToHtml(text)]. *)
Definition plainTextToHtml (text : string) : string :=
  if String.eqb text "" then "<html><body><p></p></body></html>"
  else
    let escaped := escape_html text in
    let paragraphs :=
      filter (fun p => negb (String.length p =? 0))
             (map trim (split_blank escaped "" false)) in
    let htmlParagraphs :=
      String.concat (String newline "")
        (map (fun p => "<p>" ++ replace_char newline "<br>" p ++ "</p>")
             paragraphs) in
    unlines
      [ "<!DOCTYPE html>";
        "<html>";
        "  <head>";
        "    <meta charset=" ++ dq ++ "utf-8" ++ dq ++ " />";
        "    <title>Email</title>";
        "  </head>";
        "  <body style=" ++ dq ++
          "font-family:Arial, sans-serif; font-size:14px; line-height:1.5;"
          ++ dq ++ ">";
        "    " ++ or_str htmlParagraphs "<p></p>";
        "  </body>";
        "</html>" ].

(** [array.slice(i, j)]. *)
Definition slice {A : Type} (i j : nat) (array : list A) : list A :=
  firstn (j - i) (skipn i array).

(** The loop of [chunkArray], entered with the counter at [i]; [fuel]
    bounds the iterations (for a positive [size] the loop makes at most
    [array.length] of them; with [size] 0 the source never leaves it). *)
Fixpoint chunk_loop {A : Type} (fuel i size : nat) (array : list A)
  (chunks : list (list A)) : list (list A) :=
  match fuel with
  | O => chunks
  | S fuel' =>
      if i <? List.length array then
        chunk_loop fuel' (i + size) size array
                   (chunks ++ [slice i (i + size) array])%list
      else chunks
  end.

Definition chunkArray {A : Type} (array : list A) (size : nat)
  : list (list A) :=
  chunk_loop (List.length array) 0 size array [].

(** [typeof value === "string" ? value.trim() : value]. *)
Definition clean_value (value : JsVal) : JsVal :=
  match value with
  | VStr s => VStr (trim s)
  | _ => value
  end.

(** The row built from a parsed CSV record: keys trimmed, string values
    trimmed. *)
Definition clean_row (raw : Obj) : Obj :=
  fold_left (fun row kv => obj_set (trim (fst kv)) (clean_value (snd kv)) row)
            raw [].

(** The filter on the rows: [emailKey && row[emailKey]]. *)
Definition has_email (row : Obj) : bool :=
  match find (fun k => String.eqb (toLowerCase k) "email") (keys row) with
  | None => false
  | Some emailKey =>
      negb (String.eqb emailKey "") &&
      match obj_get emailKey row with
      | Some v => truthy v
      | None => false
      end
  end.

(** The recipients kept from the parsed CSV records. *)
Definition load_rows (data : list Obj) : list Obj :=
  filter has_email (map clean_row data).

End Frontend.
Import Frontend.

(* ================================================================== *)
(** ** Vocabulary for stating what a run did *)

Module Run.

(** The result of the missing-address early return. *)
Definition missing_email_result : SendResult :=
  mkSendResult "" error 0 (Some "Missing Email field in recipient row")
               (Some OTHER).

(** The condition of the circuit breaker on a result. *)
Definition stops (r : SendResult) : bool :=
  is_error (res_status r) && is_infra (res_reason r).

(** The row [updateRec] writes from a result. *)
Definition apply_result (r : SendResult) (row : RecipientRow)
  : RecipientRow :=
  mkRecipientRow (r_id row) (r_batch_id row) (r_idx row) (r_email row)
                 (r_name row) (r_data_json row)
                 (if is_sent (res_status r) then sent else error)
                 (res_attempt r) (res_error r).

(** A row after the results [rs] of the indices [i, i+1, ...] of batch
    [batchId] have been written. *)
Definition settle_row (batchId i : nat) (rs : list SendResult)
  (row : RecipientRow) : RecipientRow :=
  if (r_batch_id row =? batchId) && (i <=? r_idx row) then
    match nth_error rs (r_idx row - i) with
    | Some r => apply_result r row
    | None => row
    end
  else row.

Definition count_sent (rs : list SendResult) : nat :=
  List.length (filter (fun r => is_sent (res_status r)) rs).

Definition count_error (rs : list SendResult) : nat :=
  List.length (filter (fun r => is_error (res_status r)) rs).

Definition is_sendMail (ev : Event) : bool :=
  match ev with EvSendMail _ => true | _ => false end.

(** The number of [sendMail] calls in a trace. *)
Definition count_sends (tr : list Event) : nat :=
  List.length (filter is_sendMail tr).

Definition total_attempts (rs : list SendResult) : nat :=
  fold_right (fun r n => res_attempt r + n) 0 rs.

(** The row inserted for recipient [rec] at index [idx] of a batch. *)
Definition is_pending_row (batchId idx : nat) (rec : option Obj)
  (row : RecipientRow) : Prop :=
  r_batch_id row = batchId /\ r_idx row = idx /\
  r_email row = getField rec "Email" "" /\
  r_name row = getField rec "Name" "" /\
  r_data_json row = match rec with Some o => o | None => [] end /\
  r_status row = pending /\ r_attempt row = 0 /\ r_error row = None.

(** What [sendToRecipientWithRetry] can return for a recipient. *)
Definition outcome_ok (recipient : option Obj) (r : SendResult) : Prop :=
  res_attempt r <= MAX_RETRIES /\
  (getField recipient "Email" "" = "" -> r = missing_email_result) /\
  (getField recipient "Email" "" <> "" ->
   1 <= res_attempt r /\ res_email r = getField recipient "Email" "") /\
  (res_status r = sent /\ res_error r = None /\ res_reason r = None /\
   getField recipient "Email" "" <> ""
   \/ res_status r = error /\
      (exists m, res_error r = Some m) /\
      (exists c, res_reason r = Some c /\ (stops r = false <-> c = OTHER))).

(** How the stop index [stoppedAt'] at the exit of the send loop relates to
    the results [new] the loop produced from index [i] for [n]
    recipients. *)
Definition stop_ok (i n : nat) (stoppedAt stoppedAt' : option nat)
  (new : list SendResult) : Prop :=
  (Forall (fun r => stops r = false) new /\ List.length new = n /\
   stoppedAt' = stoppedAt)
  \/
  (exists pre r, new = (pre ++ [r])%list /\
                 Forall (fun r => stops r = false) pre /\
                 stops r = true /\
                 stoppedAt' = Some (i + List.length pre)).

(** [rows] are the rows inserted for the recipients [recs], the first at
    index [i]. *)
Fixpoint pending_from (batchId i : nat) (recs : list (option Obj))
  (rows : list RecipientRow) : Prop :=
  match recs, rows with
  | [], [] => True
  | rec :: recs', row :: rows' =>
      is_pending_row batchId i rec row /\
      pending_from batchId (S i) recs' rows'
  | _, _ => False
  end.

(** The row of index [j] once the results [rs] are written. *)
Definition settled (rs : list SendResult) (j : nat) (row : RecipientRow)
  : RecipientRow :=
  match nth_error rs j with
  | Some r => apply_result r row
  | None => row
  end.

(** A request that passes the validation of the handler. *)
Definition valid_request (req : SendRequest) (recs : list (option Obj))
  : Prop :=
  req_recipients req = Some recs /\ recs <> [] /\
  req_subject req <> "" /\ req_htmlBody req <> "".

(** [csvName || null]. *)
Definition stored_csv_name (req : SendRequest) : option string :=
  if String.eqb (req_csvName req) "" then None else Some (req_csvName req).

(** The batch row of a run once it is finalized. *)
Definition final_batch_row (req : SendRequest) (batchId total : nat)
  (status : BatchStatus) (sent_ failed_ processed_ : nat)
  (stopped_at : option nat) (err : option string) : BatchRow :=
  mkBatchRow batchId (req_subject req) (req_htmlBody req) total
             (stored_csv_name req) status (Some sent_) (Some failed_)
             (Some processed_) stopped_at err.

Definition is_verify (ev : Event) : bool :=
  match ev with EvVerify => true | _ => false end.

(** The number of [verify] calls in a trace. *)
Definition count_verifies (tr : list Event) : nat :=
  List.length (filter is_verify tr).

(** A column name or placeholder name without brace characters. *)
Definition brace_free (s : string) : bool :=
  all_chars (fun c => negb (Ascii.eqb c "{") && negb (Ascii.eqb c "}")) s.

(** [first ++ sep ++ s1 ++ sep ++ ... ++ sn] for [rest = [s1; ...; sn]]:
    a text cut at [n] chosen occurrences of [sep]. *)
Fixpoint join_with (sep first : string) (rest : list string) : string :=
  match rest with
  | [] => first
  | s :: rest' => first ++ sep ++ join_with sep s rest'
  end.

(** The entries of [vars] are some array-index columns of the recipient,
    then [Name], then the other columns. *)
Definition name_shape (ks : list string) (vars : Obj) : Prop :=
  exists pre v post,
    vars = (pre ++ ("Name", v) :: post)%list /\
    Forall (fun kv => array_index (fst kv) <> None /\ In (fst kv) ks) pre.

(** The test [getField] applies to the keys when it looks for [Name]. *)
Definition is_name_key (k : string) : bool :=
  String.eqb (toLowerCase k) (toLowerCase "Name").

(** The text [applyTemplate] puts in place of a placeholder whose column
    holds [v], before the dollar patterns are expanded. *)
Definition replacement_of (v : JsVal) : string :=
  if is_nullish v then "" else toStr v.

(** The test [getField] applies to the keys when it looks for [Email]. *)
Definition is_email_key (k : string) : bool :=
  String.eqb (toLowerCase k) (toLowerCase "Email").

(** A recipient yields no address: it is [null], or no column equals
    "Email" up to letter case, or the first such column holds [null],
    [undefined] or a value whose text is empty. *)
Definition no_address (rec : option Obj) : Prop :=
  match rec with
  | None => True
  | Some o =>
      match find is_email_key (keys o) with
      | None => True
      | Some k =>
          match obj_get k o with
          | None => True
          | Some v => is_nullish v = true \/ toStr v = ""
          end
      end
  end.

(** The calls of the retry loop of [sendToRecipientWithRetry] that ends
    at attempt [n]: [n] sends of the same message with a pause between
    consecutive ones. *)
Fixpoint attempt_events (opts : MailOptions) (n : nat) : list Event :=
  match n with
  | O => []
  | S O => [EvSendMail opts]
  | S n' => EvSendMail opts :: EvSleep RETRY_DELAY_MS :: attempt_events opts n'
  end.

(** The calls of [verifySmtpWithRetry] when it makes [n] checks. *)
Fixpoint verify_events (n : nat) : list Event :=
  match n with
  | O => []
  | S O => [EvVerify]
  | S n' => EvVerify :: EvSleep RETRY_DELAY_MS :: verify_events n'
  end.

(** The message [sendToRecipientWithRetry] builds for a recipient. *)
Definition mail_for (SMTP_USER : option string) (subject html : string)
  (rec : option Obj) : MailOptions :=
  make_mailOptions SMTP_USER (getField rec "Email" "")
                   (getField rec "Name" "Candidate") subject html rec.

(** The shape of the recipient table in a ledger the handler builds:
    referential integrity, distinct row ids in both tables, positive
    recipient row ids, and at most one recipient row for a batch and an
    index. *)
Definition ledger_wf (db : DB) : Prop :=
  db_ok db /\
  NoDup (map b_id (batches db)) /\
  NoDup (map r_id (batch_recipients db)) /\
  Forall (fun r => 1 <= r_id r) (batch_recipients db) /\
  NoDup (map (fun r => (r_batch_id r, r_idx r)) (batch_recipients db)).

(** A ledger as the handler builds it: well formed, with positive batch
    row ids too. *)
Definition ledger_sound (db : DB) : Prop :=
  ledger_wf db /\ Forall (fun b => 1 <= b_id b) (batches db).

(** The address [/api/csv-pdfs] uses for a submitted recipient once it is
    stored. *)
Definition archived_address (rec : option Obj) : string :=
  or_str (getField rec "Email" "")
         (getField (Some (match rec with Some o => o | None => [] end))
                   "Email" "unknown").

(** The connection checks of a server fail: from the state [e], each of up
    to [n] successive [verify] calls rejects, the sequence ending early at
    a rejection of class OTHER, which is not retried.  The value is the
    error of the last check made; [None] when a check succeeds. *)
Fixpoint failed_checks {Env : Type}
  (smtp_verify : Env -> option JsError * Env) (n : nat) (e : Env)
  : option JsError :=
  match n with
  | O => None
  | S n' =>
      match smtp_verify e with
      | (None, _) => None
      | (Some err, e') =>
          match classify (Some err), n' with
          | OTHER, _ => Some err
          | _, O => Some err
          | _, S _ => failed_checks smtp_verify n' e'
          end
      end
  end.

(** The signs by which an error counts as a temporary authentication
    failure or as a network failure: texts looked for in the lower-cased
    message and response, and error codes. *)
Definition temp_auth_phrases : list string :=
  [ "454 4.7.0"; "temporary authentication failure" ].

Definition network_code_names : list string :=
  [ "ECONNECTION"; "ECONNRESET"; "ETIMEDOUT"; "ESOCKET"; "EAI_AGAIN";
    "ENOTFOUND" ].

Definition network_phrases : list string :=
  [ "network error"; "connection lost"; "connection closed";
    "connection reset"; "socket hang up"; "timed out"; "timeout" ].

(** The lower-cased message and response of an error, and the text the
    network test reads. *)
Definition message_text (e : JsError) : string :=
  toLowerCase (err_message e).

Definition response_text (e : JsError) : string :=
  toLowerCase (str_or_empty (err_response e)).

Definition joined_text (e : JsError) : string :=
  message_text e ++ " " ++ response_text e.

(** An error shows a sign of temporary authentication failure. *)
Definition temp_auth_sign (e : JsError) : Prop :=
  err_responseCode e = VNum 454 \/
  exists ph, In ph temp_auth_phrases /\
             (includes (message_text e) ph = true \/
              includes (response_text e) ph = true).

(** An error shows a sign of network failure. *)
Definition network_sign (e : JsError) : Prop :=
  In (toUpperCase (str_or_empty (err_code e))) network_code_names \/
  exists ph, In ph network_phrases /\ includes (joined_text e) ph = true.

(** A template rendered for a recipient as the sequencer and the preview
    route both do: under the recipient's columns and the synthetic [Name]. *)
Definition personalized (template : string) (rec : option Obj) : string :=
  applyTemplate template
    (Some (make_vars (getField rec "Name" "Candidate") rec)).

(** [sub] occurs in [s]. *)
Definition occurs_in (sub s : string) : Prop :=
  exists pre post, s = pre ++ sub ++ post.

(** What HTML escaping makes of one character. *)
Definition escape_char (c : ascii) : string :=
  if Ascii.eqb c "&" then "&amp;"
  else if Ascii.eqb c "<" then "&lt;"
  else if Ascii.eqb c ">" then "&gt;"
  else String c "".

(** The text obtained by replacing every character [c] of [s] by [f c]. *)
Fixpoint subst_chars (f : ascii -> string) (s : string) : string :=
  match s with
  | EmptyString => EmptyString
  | String c s' => f c ++ subst_chars f s'
  end.

(** [c] does not occur in [s]. *)
Definition lacks (c : ascii) (s : string) : bool :=
  all_chars (fun d => negb (Ascii.eqb d c)) s.

(** A placeholder name the conversion of the message body leaves alone:
    no HTML-reserved character, no line break, no blank at either end. *)
Definition plain_name (key : string) : bool :=
  lacks "&" key && lacks "<" key && lacks ">" key && lacks newline key.

(** The [k]-th window of [size] elements of [array]. *)
Definition window {A : Type} (k size : nat) (array : list A) : list A :=
  firstn size (skipn (k * size) array).

End Run.
Import Run.

(* ================================================================== *)
(** ** Concrete errors, transports, ledgers and requests *)

Module Examples.

Definition err_econnreset : JsError :=
  mkJsError "read ECONNRESET" "Error: read ECONNRESET" (VStr "econnreset")
            VUndefined VUndefined.

Definition err_454 : JsError :=
  mkJsError "Invalid login" "Error: Invalid login" (VStr "EAUTH")
            (VStr "454 4.7.0 Temporary Authentication Failure") VUndefined.

Definition err_rejected : JsError :=
  mkJsError "550 5.1.1 User unknown" "Error: 550 5.1.1 User unknown"
            (VStr "EENVELOPE") (VStr "550 5.1.1 User unknown") (VNum 550).

(** A server that accepts every connection check. *)
Definition smtp_ok (e : unit) : option JsError * unit := (None, e).

(** A server whose connection check always fails with a reset. *)
Definition smtp_down (e : unit) : option JsError * unit :=
  (Some err_econnreset, e).

(** A server that rejects every message to [addr] with [err] and accepts
    the others. *)
Definition send_failing (addr : string) (err : JsError) (m : MailOptions)
  (e : unit) : option JsError * unit :=
  if String.eqb (mo_to m) addr then (Some err, e) else (None, e).

Definition sender : option string := Some "sender@x.com".

Definition db_empty : DB := mkDB [] [].

Definition world0 : World unit := mkWorld [] tt.

Definition rcp (email : string) : option Obj := Some [("Email", VStr email)].

Definition req_one : SendRequest :=
  mkSendRequest (Some [rcp "b@x.com"]) "Hi {Name}" "<p>Dear {Name}</p>" "".

Definition req_abc : SendRequest :=
  mkSendRequest (Some [rcp "a@x.com"; rcp "b@x.com"; rcp "c@x.com"])
                "Hi {Name}" "<p>Dear {Name}</p>" "list.csv".

(** A request whose second recipient has no address. *)
Definition req_missing : SendRequest :=
  mkSendRequest (Some [rcp "a@x.com"; Some [("Name", VStr "Bo")];
                       rcp "c@x.com"])
                "Hi {Name}" "<p>Dear {Name}</p>" "list.csv".

Definition recs_abc : list (option Obj) :=
  [rcp "a@x.com"; rcp "b@x.com"; rcp "c@x.com"].

Definition recs_missing : list (option Obj) :=
  [rcp "a@x.com"; Some [("Name", VStr "Bo")]; rcp "c@x.com"].

(** The world after one successful connectivity check. *)
Definition world_verified : World unit := mkWorld [EvVerify] tt.

(** The world after three failed connectivity checks. *)
Definition world_unverified : World unit :=
  mkWorld [EvVerify; EvSleep RETRY_DELAY_MS; EvVerify;
           EvSleep RETRY_DELAY_MS; EvVerify] tt.

(** A renderer that never fails: the PDF of a page is stood for by its
    HTML. *)
Definition page_pdf_ok (html : string) (b : unit)
  : (string + string) * unit := (inl html, b).

Definition areq_abc : ArchiveRequest :=
  mkArchiveRequest
    (Some [rcp "a@x.com"; Some [("Email", VStr "")];
           Some [("email", VStr "Zoe <z/1>@x.com")]; Some []])
    "Hi {Name}" "<p>Dear {Name}</p>".

(** A recipient whose only name column is [name], holding [null]. *)
Definition rcp_null_name : Obj :=
  [("Email", VStr "a@x.com"); ("name", VNull)].

(** A recipient with an explicit empty [Name]. *)
Definition rcp_empty_name : Obj :=
  [("Email", VStr "a@x.com"); ("Name", VStr "")].

(** The ledger after the run of [req_abc] in which delivery to b@x.com
    fails with a connection reset. *)
Definition db_after_abc : DB :=
  snd (fst (send_emails unit smtp_ok (send_failing "b@x.com" err_econnreset)
                        sender req_abc db_empty world0)).

(** A connection timeout: no ECONNRESET code, no 454 text. *)
Definition err_etimedout : JsError :=
  mkJsError "connect failed" "Error: connect failed" (VStr "ETIMEDOUT")
            VUndefined VUndefined.

(** A server whose connection check is refused for good. *)
Definition smtp_refusing (e : unit) : option JsError * unit :=
  (Some err_rejected, e).

(** A choice of the latest batch of a name: the row inserted last. *)
Definition latest_by_rowid (l : list BatchRow) : option BatchRow :=
  hd_error (rev l).

(** A preview request for one recipient without any column. *)
Definition areq_no_columns : ArchiveRequest :=
  mkArchiveRequest (Some [Some []]) "Hi {Name}" "<p>Dear {Name}</p>".

(** A request whose first recipient is followed by one without an
    address. *)
Definition req_b_then_missing : SendRequest :=
  mkSendRequest (Some [rcp "b@x.com"; Some [("Name", VStr "Bo")]])
                "Hi {Name}" "<p>Dear {Name}</p>" "list.csv".

(** A server that rejects every message with [err]. *)
Definition send_rejecting (err : JsError) (m : MailOptions) (e : unit)
  : option JsError * unit := (Some err, e).

(** A server that accepts every message. *)
Definition send_accepting (m : MailOptions) (e : unit)
  : option JsError * unit := (None, e).

(** A request with an empty recipient array. *)
Definition req_no_recipients : SendRequest :=
  mkSendRequest (Some []) "Hi {Name}" "<p>Dear {Name}</p>" "list.csv".

(** Two parsed CSV records: the second has no address. *)
Definition csv_records : list Obj :=
  [ [(" Email ", VStr " a@x.com "); ("Name", VStr "Ann")];
    [("Email", VStr "  "); ("Name", VStr "Bo")] ].

End Examples.
Import Examples.

(* ================================================================== *)
(** * Properties *)

(** ** Strings *)

Lemma startsWith_map_chars (f : ascii -> ascii) (p s : string) :
  startsWith s p = true ->
  startsWith (map_chars f s) (map_chars f p) = true.
Proof.
  revert s; induction p as [|a p IH]; intros s H; [now destruct s|].
  destruct s as [|b s]; simpl in *; [discriminate|].
  apply andb_true_iff in H as [Hab Hrest].
  apply Ascii.eqb_eq in Hab; subst b.
  now rewrite Ascii.eqb_refl, IH.
Qed.

Lemma includes_map_chars (f : ascii -> ascii) (sub s : string) :
  includes s sub = true ->
  includes (map_chars f s) (map_chars f sub) = true.
Proof.
  induction s as [|c s IH]; simpl; intros H.
  - apply orb_true_iff in H as [H|H]; [|discriminate].
    destruct sub; [reflexivity|discriminate].
  - apply orb_true_iff in H as [H|H]; apply orb_true_iff.
    + left. exact (startsWith_map_chars f sub (String c s) H).
    + right. auto.
Qed.

Lemma upper_of_lower_char (c : ascii) :
  upper_char (lower_char c) = upper_char c.
Proof.
  destruct c as [[] [] [] [] [] [] [] []]; reflexivity.
Qed.

Lemma toUpperCase_of_toLowerCase (s : string) :
  toUpperCase (toLowerCase s) = toUpperCase s.
Proof.
  unfold toUpperCase, toLowerCase.
  induction s as [|c s IH]; simpl; [reflexivity|].
  now rewrite upper_of_lower_char, IH.
Qed.

Lemma same_lower_same_upper (s t : string) :
  toLowerCase s = toLowerCase t -> toUpperCase s = toUpperCase t.
Proof.
  intros H.
  rewrite <- (toUpperCase_of_toLowerCase s), <- (toUpperCase_of_toLowerCase t).
  now rewrite H.
Qed.

(** ** The failure classifier *)

Lemma reason_of_cases (tempAuth netErr : bool) :
  (tempAuth = true -> reason_of tempAuth netErr = TEMP_AUTH) /\
  (tempAuth = false -> netErr = true -> reason_of tempAuth netErr = NETWORK) /\
  (tempAuth = false -> netErr = false -> reason_of tempAuth netErr = OTHER).
Proof. destruct tempAuth, netErr; repeat split; intros; congruence. Qed.

Lemma temp_auth_of_text (e : JsError) :
  includes (err_message e) "454 4.7.0" = true \/
  includes (str_or_empty (err_response e)) "454 4.7.0" = true ->
  isTemporaryAuthError (Some e) = true.
Proof.
  intros H. unfold isTemporaryAuthError.
  destruct (strict_eq_num (err_responseCode e) 454); [reflexivity|].
  destruct H as [H|H];
    apply (includes_map_chars lower_char) in H;
    change (map_chars lower_char "454 4.7.0") with "454 4.7.0" in H;
    unfold toLowerCase; rewrite H; simpl;
    rewrite ?orb_true_r; reflexivity.
Qed.

Lemma network_of_code (e : JsError) :
  toUpperCase (str_or_empty (err_code e)) = "ECONNRESET" ->
  isNetworkError (Some e) = true.
Proof.
  intros H. unfold isNetworkError. now rewrite H.
Qed.

(** The classifier reads the message, the response text and the code only
    up to letter case. *)
Lemma classify_ignores_case (e e' : JsError) :
  toLowerCase (err_message e) = toLowerCase (err_message e') ->
  toLowerCase (str_or_empty (err_response e)) =
    toLowerCase (str_or_empty (err_response e')) ->
  toLowerCase (str_or_empty (err_code e)) =
    toLowerCase (str_or_empty (err_code e')) ->
  err_responseCode e = err_responseCode e' ->
  classify (Some e) = classify (Some e').
Proof.
  intros Hm Hr Hc Hrc.
  unfold classify, isTemporaryAuthError, isNetworkError.
  now rewrite Hm, Hr, Hrc, (same_lower_same_upper _ _ Hc).
Qed.

Lemma strict_eq_num_iff (v : JsVal) (n : Z) :
  strict_eq_num v n = true <-> v = VNum n.
Proof.
  destruct v; cbn [strict_eq_num]; try (split; [discriminate|discriminate]).
  split; [intros H; apply Z.eqb_eq in H; now subst|].
  intros H. injection H as ->. apply Z.eqb_refl.
Qed.

Lemma isTemporaryAuthError_iff (e : JsError) :
  isTemporaryAuthError (Some e) = true <-> temp_auth_sign e.
Proof.
  unfold isTemporaryAuthError, temp_auth_sign, message_text, response_text,
    temp_auth_phrases.
  destruct (strict_eq_num (err_responseCode e) 454) eqn:Hrc.
  - apply strict_eq_num_iff in Hrc. split; [now left|reflexivity].
  - assert (Hne : err_responseCode e <> VNum 454).
    { intros H. apply strict_eq_num_iff in H. congruence. }
    rewrite !orb_true_iff. split.
    + intros [[[H|H]|H]|H]; right.
      * exists "454 4.7.0". split; [now left|now left].
      * exists "454 4.7.0". split; [now left|now right].
      * exists "temporary authentication failure".
        split; [right; now left|now left].
      * exists "temporary authentication failure".
        split; [right; now left|now right].
    + intros [H|(ph & [<-|[<-|[]]] & [H|H])]; [contradiction|tauto..].
Qed.

Lemma list_includes_iff (l : list string) (x : string) :
  list_includes l x = true <-> In x l.
Proof.
  unfold list_includes. rewrite existsb_exists. split.
  - intros (y & Hin & Heq). apply String.eqb_eq in Heq. now subst.
  - intros Hin. exists x. split; [exact Hin|apply String.eqb_refl].
Qed.

Lemma isNetworkError_iff (e : JsError) :
  isNetworkError (Some e) = true <-> network_sign e.
Proof.
  unfold isNetworkError, network_sign, joined_text, message_text,
    response_text.
  change network_codes with network_code_names.
  destruct (list_includes network_code_names
              (toUpperCase (str_or_empty (err_code e)))) eqn:Hcode.
  - apply list_includes_iff in Hcode. split; [now left|reflexivity].
  - assert (Hne : ~ In (toUpperCase (str_or_empty (err_code e)))
                       network_code_names).
    { intros H. apply list_includes_iff in H. congruence. }
    cbv zeta. rewrite !orb_true_iff. unfold network_phrases. split.
    + intros [[[[[[H|H]|H]|H]|H]|H]|H]; right; eexists;
        (split; [|exact H]); cbn [In]; tauto.
    + intros [H|(ph & Hin & H)]; [contradiction|].
      cbn [In] in Hin.
      destruct Hin as [<-|[<-|[<-|[<-|[<-|[<-|[<-|[]]]]]]]]; tauto.
Qed.

(** C5. The classifier is a total function of the error value, so every
    error has exactly one class, and the temporary-authentication test is
    made before the network test: an error is TEMP_AUTH exactly when its
    response code is 454 or its lower-cased message or response holds
    "454 4.7.0" or "temporary authentication failure"; it is NETWORK
    exactly when it is not TEMP_AUTH and its upper-cased code is one of
    ECONNECTION, ECONNRESET, ETIMEDOUT, ESOCKET, EAI_AGAIN, ENOTFOUND or
    its lower-cased message and response, joined by a blank, hold one of
    the seven network phrases; it is OTHER exactly when it shows none of
    these signs.  In particular code ECONNRESET without a
    temporary-authentication sign gives NETWORK, "454 4.7.0" in the
    message or response gives TEMP_AUTH whatever else the error holds, the
    class does not depend on letter case, and no error value ([null]) is
    OTHER. *)
Theorem classify_total_ordered (e : JsError) :
  (exists! c, classify (Some e) = c) /\
  (classify (Some e) = TEMP_AUTH <-> temp_auth_sign e) /\
  (classify (Some e) = NETWORK <-> ~ temp_auth_sign e /\ network_sign e) /\
  (classify (Some e) = OTHER <-> ~ temp_auth_sign e /\ ~ network_sign e) /\
  (toUpperCase (str_or_empty (err_code e)) = "ECONNRESET" ->
   ~ temp_auth_sign e ->
   classify (Some e) = NETWORK) /\
  (includes (err_message e) "454 4.7.0" = true \/
   includes (str_or_empty (err_response e)) "454 4.7.0" = true ->
   classify (Some e) = TEMP_AUTH) /\
  (forall e',
     toLowerCase (err_message e) = toLowerCase (err_message e') ->
     toLowerCase (str_or_empty (err_response e)) =
       toLowerCase (str_or_empty (err_response e')) ->
     toLowerCase (str_or_empty (err_code e)) =
       toLowerCase (str_or_empty (err_code e')) ->
     err_responseCode e = err_responseCode e' ->
     classify (Some e') = classify (Some e)) /\
  classify None = OTHER.
Proof.
  pose proof (isTemporaryAuthError_iff e) as Hta.
  pose proof (isNetworkError_iff e) as Hnet.
  assert (Hcases : (classify (Some e) = TEMP_AUTH <-> temp_auth_sign e) /\
                   (classify (Some e) = NETWORK <->
                    ~ temp_auth_sign e /\ network_sign e) /\
                   (classify (Some e) = OTHER <->
                    ~ temp_auth_sign e /\ ~ network_sign e)).
  { unfold classify, reason_of.
    destruct (isTemporaryAuthError (Some e)) eqn:Eta;
      [|destruct (isNetworkError (Some e)) eqn:Enet].
    - assert (Hs : temp_auth_sign e) by now apply Hta.
      repeat split; try discriminate; try tauto.
    - assert (Hs : ~ temp_auth_sign e)
        by (intros H; apply Hta in H; discriminate).
      assert (Hn : network_sign e) by now apply Hnet.
      repeat split; try discriminate; try tauto.
    - assert (Hs : ~ temp_auth_sign e)
        by (intros H; apply Hta in H; discriminate).
      assert (Hn : ~ network_sign e)
        by (intros H; apply Hnet in H; discriminate).
      repeat split; try discriminate; try tauto. }
  destruct Hcases as (Hc1 & Hc2 & Hc3).
  split; [|split; [exact Hc1|split; [exact Hc2|split; [exact Hc3|]]]].
  - exists (classify (Some e)). split; [reflexivity|]. intros c Hc. exact Hc.
  - split; [|split; [|split]].
    + intros Hcode Hnot. apply Hc2. split; [exact Hnot|].
      left. rewrite Hcode. cbn [In network_code_names]. tauto.
    + intros Htext. apply Hc1, Hta. now apply temp_auth_of_text.
    + intros e' Hm Hr Hc Hrc. symmetry. now apply classify_ignores_case.
    + reflexivity.
Qed.

Lemma classify_total_ordered_witness :
  classify (Some err_econnreset) = NETWORK /\
  classify (Some err_454) = TEMP_AUTH /\
  classify (Some err_rejected) = OTHER.
Proof.
  split; [|split].
  - destruct (classify_total_ordered err_econnreset)
      as (_ & Hta & _ & _ & Hcode & _).
    apply Hcode; [reflexivity|].
    intros H. apply Hta in H. discriminate H.
  - destruct (classify_total_ordered err_454)
      as (_ & _ & _ & _ & _ & Htext & _).
    apply Htext. right. reflexivity.
  - destruct (classify_total_ordered err_rejected)
      as (_ & Hta & Hnet & Hother & _).
    apply Hother. split.
    + intros H. apply Hta in H. discriminate H.
    + intros H.
      assert (Hno : ~ temp_auth_sign err_rejected)
        by (intros H'; apply Hta in H'; discriminate H').
      pose proof (proj2 Hnet (conj Hno H)) as Habs. discriminate Habs.
Defined.

(** C5 as stated fails: a timeout error has no code ECONNRESET and no
    "454 4.7.0" in its message or response, so it matches neither of the
    two rules the claim names, yet its class is NETWORK, not OTHER. *)
Lemma timeout_matches_neither_rule :
  toUpperCase (str_or_empty (err_code err_etimedout)) <> "ECONNRESET" /\
  includes (toLowerCase (err_message err_etimedout)) "454 4.7.0" = false /\
  includes (toLowerCase (str_or_empty (err_response err_etimedout)))
           "454 4.7.0" = false /\
  classify (Some err_etimedout) = NETWORK /\
  classify (Some err_etimedout) <> OTHER.
Proof.
  split; [discriminate|]. repeat split. discriminate.
Qed.

(** ** The retry loops *)

Section RetryFacts.

Variable Env : Type.
Variable smtp_verify : Env -> option JsError * Env.
Variable smtp_sendMail : MailOptions -> Env -> option JsError * Env.
Variable SMTP_USER : option string.

Lemma count_sends_app (t1 t2 : list Event) :
  count_sends (t1 ++ t2) = count_sends t1 + count_sends t2.
Proof.
  unfold count_sends. now rewrite filter_app, length_app.
Qed.

Lemma count_sends_sendMail (t : list Event) (opts : MailOptions) :
  count_sends (t ++ [EvSendMail opts]) = S (count_sends t).
Proof. rewrite count_sends_app. unfold count_sends. simpl. lia. Qed.

Lemma count_sends_sleep (t : list Event) (ms : N) :
  count_sends (t ++ [EvSleep ms]) = count_sends t.
Proof. rewrite count_sends_app. unfold count_sends. simpl. lia. Qed.

Lemma count_sends_verify (t : list Event) :
  count_sends (t ++ [EvVerify]) = count_sends t.
Proof. rewrite count_sends_app. unfold count_sends. simpl. lia. Qed.

Lemma sendMail_trace (opts : MailOptions) (w : World Env) :
  trace (snd (sendMail Env smtp_sendMail opts w)) =
    (trace w ++ [EvSendMail opts])%list.
Proof.
  unfold sendMail. now destruct (smtp_sendMail opts (env w)).
Qed.

Lemma send_attempts_step (fuel attempt : nat) (email : string)
  (opts : MailOptions) (w : World Env) :
  attempt <= MAX_RETRIES ->
  send_attempts Env smtp_sendMail (S fuel) attempt email opts w =
    match sendMail Env smtp_sendMail opts w with
    | (None, w1) => (Some (mkSendResult email sent attempt None None), w1)
    | (Some err, w1) =>
        if (isTemporaryAuthError (Some err) || isNetworkError (Some err))
           && (attempt <? MAX_RETRIES)
        then send_attempts Env smtp_sendMail fuel (S attempt) email opts
                           (sleep Env RETRY_DELAY_MS w1)
        else (Some (mkSendResult email error attempt
                                 (Some (error_text_of err))
                                 (Some (classify (Some err)))), w1)
    end.
Proof.
  intros Hle. cbn [send_attempts].
  apply Nat.leb_le in Hle. rewrite Hle.
  destruct (sendMail Env smtp_sendMail opts w) as [[err|] w1]; reflexivity.
Qed.

Lemma stops_error_iff (email msg : string) (attempt : nat) (c : FailureClass) :
  stops (mkSendResult email error attempt (Some msg) (Some c)) = false
  <-> c = OTHER.
Proof. destruct c; unfold stops; simpl; split; congruence. Qed.

(** What the retry loop returns when entered with [attempt] within the
    budget: a result, never [undefined]; the attempt it records is the
    counter at the exit; the calls made are [sendMail] calls with the
    given options, one per iteration. *)
Lemma send_attempts_result (fuel : nat) :
  forall attempt email opts (w : World Env),
    attempt <= MAX_RETRIES -> attempt + fuel = S MAX_RETRIES ->
    exists r w',
      send_attempts Env smtp_sendMail fuel attempt email opts w = (Some r, w')
      /\ res_email r = email
      /\ attempt <= res_attempt r <= MAX_RETRIES
      /\ count_sends (trace w') + attempt =
           count_sends (trace w) + S (res_attempt r)
      /\ (res_status r = sent /\ res_error r = None /\ res_reason r = None
          \/ res_status r = error /\
             exists err, res_error r = Some (error_text_of err) /\
                         res_reason r = Some (classify (Some err)) /\
                         (stops r = false <-> classify (Some err) = OTHER)).
Proof.
  induction fuel as [|fuel IH]; intros attempt email opts w Hle Hsum.
  - unfold MAX_RETRIES in *. lia.
  - rewrite send_attempts_step by exact Hle.
    pose proof (sendMail_trace opts w) as Htr.
    destruct (sendMail Env smtp_sendMail opts w) as [[err|] w1] eqn:Esend;
      simpl in Htr.
    + destruct ((isTemporaryAuthError (Some err) || isNetworkError (Some err))
                && (attempt <? MAX_RETRIES)) eqn:Eretry.
      * apply andb_true_iff in Eretry as [_ Hlt].
        apply Nat.ltb_lt in Hlt.
        destruct (IH (S attempt) email opts (sleep Env RETRY_DELAY_MS w1))
          as (r & w' & Hrun & Hemail & Hatt & Hcount & Hcase); [lia|lia|].
        exists r, w'.
        unfold sleep, log in Hcount. cbn [trace] in Hcount.
        rewrite count_sends_sleep, Htr, count_sends_sendMail in Hcount.
        repeat split; try assumption; lia.
      * eexists; eexists. split; [reflexivity|]. cbn [res_email res_attempt
          res_status res_error res_reason].
        rewrite Htr, count_sends_sendMail.
        split; [reflexivity|]. split; [lia|]. split; [lia|].
        right. split; [reflexivity|]. exists err.
        split; [reflexivity|]. split; [reflexivity|].
        apply stops_error_iff.
    + eexists; eexists. split; [reflexivity|]. cbn [res_email res_attempt
        res_status res_error res_reason].
      rewrite Htr, count_sends_sendMail.
      split; [reflexivity|]. split; [lia|]. split; [lia|].
      left. repeat split.
Qed.

End RetryFacts.

(** ** The send loop *)

Section LoopFacts.

Variable Env : Type.
Variable smtp_verify : Env -> option JsError * Env.
Variable smtp_sendMail : MailOptions -> Env -> option JsError * Env.
Variable SMTP_USER : option string.

Local Abbreviation sendToRecipient :=
  (sendToRecipientWithRetry Env smtp_sendMail SMTP_USER).
Local Abbreviation loop := (send_loop Env smtp_sendMail SMTP_USER).

Lemma sendToRecipient_result (recipient : option Obj) (subject html : string)
  (w : World Env) :
  exists r w',
    sendToRecipient recipient subject html w = (Some r, w') /\
    outcome_ok recipient r /\
    count_sends (trace w') = count_sends (trace w) + res_attempt r /\
    (getField recipient "Email" "" = "" -> w' = w).
Proof.
  unfold sendToRecipientWithRetry.
  destruct (String.eqb_spec (getField recipient "Email" "") "") as [He|He].
  - exists missing_email_result, w. split; [reflexivity|].
    split; [|split; [simpl; lia|reflexivity]].
    unfold outcome_ok. split; [unfold MAX_RETRIES; simpl; lia|].
    split; [reflexivity|]. split; [intros Hne; contradiction|].
    right. split; [reflexivity|]. split; [eexists; reflexivity|].
    exists OTHER. split; [reflexivity|]. split; reflexivity.
  - destruct (send_attempts_result Env smtp_sendMail MAX_RETRIES 1
                (getField recipient "Email" "")
                (make_mailOptions SMTP_USER (getField recipient "Email" "")
                   (getField recipient "Name" "Candidate") subject html
                   recipient) w)
      as (r & w' & Hrun & Hemail & Hatt & Hcount & Hcase);
      [unfold MAX_RETRIES; lia|reflexivity|].
    exists r, w'. split; [exact Hrun|]. split; [|split; [lia|]].
    + unfold outcome_ok. split; [lia|]. split; [intros; contradiction|].
      split; [intros _; split; [lia|exact Hemail]|].
      destruct Hcase as [(Hs & Herr & Hre)|(Hs & err & Herr & Hre & Hst)].
      * left. repeat split; assumption.
      * right. split; [exact Hs|]. split; [eexists; exact Herr|].
        eexists. split; [exact Hre|exact Hst].
    + intros Habs. contradiction.
Qed.

Lemma send_loop_cons (batchId : nat) (subject html : string) (i : nat)
  (recipient : option Obj) (rest : list (option Obj)) (st : LoopState Env)
  (r : SendResult) (w1 : World Env) :
  sendToRecipient recipient subject html (ls_world st) = (Some r, w1) ->
  loop batchId subject html i (recipient :: rest) st =
    let st1 :=
      mkLoopState Env ((ls_results st ++ [r])%list)
        (if stops r then Some i else ls_stoppedAt st)
        (if is_sent (res_status r) then S (ls_sentCount st)
         else ls_sentCount st)
        (if is_error (res_status r) then S (ls_failedCount st)
         else ls_failedCount st)
        (updateRec (if is_sent (res_status r) then sent else error)
                   (res_attempt r) (res_error r) batchId i (ls_db st))
        w1 in
    if stops r then Finished Env st1
    else loop batchId subject html (S i) rest st1.
Proof.
  intros Hrun. cbn [send_loop]. rewrite Hrun. unfold stops.
  destruct (is_error (res_status r) && is_infra (res_reason r)); reflexivity.
Qed.

Lemma settle_row_nil (batchId i : nat) (row : RecipientRow) :
  settle_row batchId i [] row = row.
Proof.
  unfold settle_row.
  destruct ((r_batch_id row =? batchId) && (i <=? r_idx row)); [|reflexivity].
  now destruct (r_idx row - i).
Qed.

Lemma settle_row_step (batchId i : nat) (r : SendResult)
  (new : list SendResult) (row : RecipientRow) :
  settle_row batchId (S i) new
    (if (r_batch_id row =? batchId) && (r_idx row =? i)
     then apply_result r row else row)
  = settle_row batchId i (r :: new) row.
Proof.
  unfold settle_row.
  destruct (Nat.eqb_spec (r_batch_id row) batchId) as [Hb|Hb]; cbn [andb].
  - destruct (Nat.eqb_spec (r_idx row) i) as [Hi|Hi].
    + cbn [apply_result r_batch_id r_idx].
      rewrite (proj2 (Nat.eqb_eq _ _) Hb). cbn [andb].
      rewrite (proj2 (Nat.leb_gt _ _)) by lia.
      rewrite (proj2 (Nat.leb_le i _)) by lia.
      replace (r_idx row - i) with 0 by lia. reflexivity.
    + rewrite (proj2 (Nat.eqb_eq _ _) Hb). cbn [andb].
      destruct (Nat.leb_spec (S i) (r_idx row)) as [Hlt|Hge];
        destruct (Nat.leb_spec i (r_idx row)) as [Hle|Hgt]; try lia;
        try reflexivity.
      replace (r_idx row - i) with (S (r_idx row - S i)) by lia.
      reflexivity.
  - rewrite (proj2 (Nat.eqb_neq _ _) Hb). reflexivity.
Qed.

Lemma map_settle_nil (batchId i : nat) (rows : list RecipientRow) :
  map (settle_row batchId i []) rows = rows.
Proof.
  induction rows as [|row rows IH]; simpl; [reflexivity|].
  now rewrite settle_row_nil, IH.
Qed.

Lemma count_sent_cons (r : SendResult) (rs : list SendResult) :
  count_sent (r :: rs) =
    (if is_sent (res_status r) then 1 else 0) + count_sent rs.
Proof.
  unfold count_sent. simpl. now destruct (is_sent (res_status r)).
Qed.

Lemma count_error_cons (r : SendResult) (rs : list SendResult) :
  count_error (r :: rs) =
    (if is_error (res_status r) then 1 else 0) + count_error rs.
Proof.
  unfold count_error. simpl. now destruct (is_error (res_status r)).
Qed.

Lemma updateRec_rows (r : SendResult) (batchId i : nat) (db : DB) :
  batch_recipients
    (updateRec (if is_sent (res_status r) then sent else error)
               (res_attempt r) (res_error r) batchId i db)
  = map (fun row => if (r_batch_id row =? batchId) && (r_idx row =? i)
                    then apply_result r row else row)
        (batch_recipients db).
Proof. reflexivity. Qed.

(** The send loop always runs to its end (it never reads a field of
    [undefined]); it yields one result per recipient it reached, counts each
    in exactly one counter, writes each result to the row of its index, and
    stops exactly at the first result that trips the circuit breaker. *)
Lemma send_loop_spec (batchId : nat) (subject html : string)
  (rest : list (option Obj)) :
  forall (i : nat) (st : LoopState Env),
  exists st' new,
    loop batchId subject html i rest st = Finished Env st' /\
    ls_results st' = (ls_results st ++ new)%list /\
    List.length new <= List.length rest /\
    Forall2 outcome_ok (firstn (List.length new) rest) new /\
    ls_sentCount st' = ls_sentCount st + count_sent new /\
    ls_failedCount st' = ls_failedCount st + count_error new /\
    count_sent new + count_error new = List.length new /\
    batches (ls_db st') = batches (ls_db st) /\
    batch_recipients (ls_db st') =
      map (settle_row batchId i new) (batch_recipients (ls_db st)) /\
    stop_ok i (List.length rest) (ls_stoppedAt st) (ls_stoppedAt st') new /\
    count_sends (trace (ls_world st')) =
      count_sends (trace (ls_world st)) + total_attempts new.
Proof.
  induction rest as [|recipient rest IH]; intros i st.
  - exists st, []. cbn [send_loop]. rewrite app_nil_r, map_settle_nil.
    unfold count_sent, count_error, total_attempts.
    split; [reflexivity|]. split; [reflexivity|]. split; [simpl; lia|].
    split; [constructor|]. split; [simpl; lia|]. split; [simpl; lia|].
    split; [reflexivity|]. split; [reflexivity|]. split; [reflexivity|].
    split; [|simpl; lia].
    left. repeat split. constructor.
  - destruct (sendToRecipient_result recipient subject html (ls_world st))
      as (r & w1 & Hrun & Hok & Hsends & _).
    rewrite (send_loop_cons batchId subject html i recipient rest st r w1 Hrun).
    assert (Hcnt : (if is_sent (res_status r) then 1 else 0) +
                   (if is_error (res_status r) then 1 else 0) = 1).
    { destruct Hok as (_ & _ & _ & [(Hs & _)|(Hs & _)]); rewrite Hs;
        reflexivity. }
    cbv zeta. destruct (stops r) eqn:Hstop.
    + eexists. exists [r]. split; [reflexivity|].
      cbn [ls_results ls_sentCount ls_failedCount ls_db ls_stoppedAt
           ls_world].
      rewrite count_sent_cons, count_error_cons.
      change (count_sent []) with 0. change (count_error []) with 0.
      split; [reflexivity|]. split; [simpl; lia|].
      split; [simpl; constructor; [exact Hok|constructor]|].
      split; [destruct (is_sent (res_status r)); lia|].
      split; [destruct (is_error (res_status r)); lia|].
      split; [simpl; lia|].
      split; [reflexivity|].
      split.
      { rewrite updateRec_rows. apply map_ext. intros row.
        rewrite <- settle_row_step. now rewrite settle_row_nil. }
      split.
      { right. exists [], r. repeat split;
          [constructor|exact Hstop|simpl; f_equal; lia]. }
      rewrite Hsends. simpl. lia.
    + match goal with
      | |- context [loop _ _ _ _ _ ?st1] =>
          destruct (IH (S i) st1)
            as (st' & new & Hloop & Hres & Hlen & Hall & Hsent & Hfail
                & Hsum & Hbat & Hrows & Hstopok & Htrace)
      end.
      cbn [ls_results ls_sentCount ls_failedCount ls_db ls_stoppedAt
           ls_world] in *.
      exists st', (r :: new). split; [exact Hloop|].
      rewrite count_sent_cons, count_error_cons.
      split; [rewrite Hres, <- app_assoc; reflexivity|].
      split; [simpl; lia|].
      split; [simpl; constructor; assumption|].
      split; [rewrite Hsent; destruct (is_sent (res_status r)); lia|].
      split; [rewrite Hfail; destruct (is_error (res_status r)); lia|].
      split; [simpl; lia|].
      split; [exact Hbat|].
      split.
      { rewrite Hrows, updateRec_rows, map_map. apply map_ext.
        intros row. apply settle_row_step. }
      split.
      { destruct Hstopok
          as [(Hnone & Hn & Hsame)|(pre & r' & Hnew & Hpre & Hr' & Hat)].
        - left. repeat split;
            [constructor; assumption|simpl; lia|exact Hsame].
        - right. exists (r :: pre), r'. repeat split;
            [rewrite Hnew; reflexivity|constructor; assumption
            |exact Hr'|rewrite Hat; simpl; f_equal; lia]. }
      rewrite Htrace, Hsends. simpl. lia.
Qed.

End LoopFacts.

(** ** The ledger during a run *)

Lemma next_rowid_fresh (ids : list nat) (k : nat) :
  In k ids -> k <> next_rowid ids.
Proof.
  intros Hin. unfold next_rowid.
  assert (H : Forall (fun n => n <= list_max ids) ids)
    by now apply list_max_le.
  rewrite Forall_forall in H. specialize (H k Hin). lia.
Qed.

Lemma insert_recipients_spec (batchId : nat) (recs : list (option Obj)) :
  forall (i : nat) (db : DB),
    batches (insert_recipients batchId i recs db) = batches db /\
    exists rows,
      batch_recipients (insert_recipients batchId i recs db) =
        (batch_recipients db ++ rows)%list /\
      pending_from batchId i recs rows.
Proof.
  induction recs as [|rec recs IH]; intros i db.
  - split; [reflexivity|]. exists []. split; [|exact I].
    simpl. now rewrite app_nil_r.
  - cbn [insert_recipients].
    destruct (IH (S i)
                (insertRec batchId i (getField rec "Email" "")
                   (getField rec "Name" "")
                   (match rec with Some o => o | None => [] end) db))
      as (Hb & rows & Hrows & Hpend).
    split; [exact Hb|].
    eexists (_ :: rows). split.
    + rewrite Hrows. unfold insertRec. cbn [batch_recipients].
      rewrite <- app_assoc. reflexivity.
    + split; [|exact Hpend]. repeat split.
Qed.

Lemma settle_row_keeps (batchId i : nat) (rs : list SendResult)
  (row : RecipientRow) :
  r_batch_id (settle_row batchId i rs row) = r_batch_id row /\
  r_idx (settle_row batchId i rs row) = r_idx row.
Proof.
  unfold settle_row.
  destruct ((r_batch_id row =? batchId) && (i <=? r_idx row));
    [|split; reflexivity].
  destruct (nth_error rs (r_idx row - i)); split; reflexivity.
Qed.

Lemma settle_row_at (batchId j : nat) (rs : list SendResult)
  (row : RecipientRow) :
  r_batch_id row = batchId -> r_idx row = j ->
  settle_row batchId 0 rs row = settled rs j row.
Proof.
  intros Hb Hj. unfold settle_row, settled.
  rewrite Hb, Hj, Nat.eqb_refl, Nat.sub_0_r. reflexivity.
Qed.

Lemma pending_from_length (batchId : nat) (recs : list (option Obj)) :
  forall i rows, pending_from batchId i recs rows ->
                 List.length rows = List.length recs.
Proof.
  induction recs as [|rec recs IH]; intros i [|row rows] H;
    simpl in *; try contradiction; [reflexivity|].
  destruct H as [_ H]. now rewrite (IH _ _ H).
Qed.

Lemma pending_from_batch (batchId : nat) (recs : list (option Obj)) :
  forall i rows, pending_from batchId i recs rows ->
                 Forall (fun row => r_batch_id row = batchId) rows.
Proof.
  induction recs as [|rec recs IH]; intros i [|row rows] H;
    simpl in *; try contradiction; constructor.
  - now destruct H as [(Hb & _) _].
  - destruct H as [_ H]. eapply IH; exact H.
Qed.

(** Rows inserted from index [i] on hold no row of a smaller index. *)
Lemma rows_below_absent (batchId : nat) (rs : list SendResult)
  (recs : list (option Obj)) :
  forall i rows j,
    pending_from batchId i recs rows -> j < i ->
    filter (fun r => r_idx r =? j) (map (settle_row batchId 0 rs) rows) = [].
Proof.
  induction recs as [|rec recs IH]; intros i [|row rows] j H Hlt;
    simpl in *; try contradiction; [reflexivity|].
  destruct H as [(_ & Hi & _) H].
  destruct (settle_row_keeps batchId 0 rs row) as [_ Hidx].
  rewrite Hidx, Hi.
  destruct (Nat.eqb_spec i j) as [Heq|_]; [lia|].
  apply (IH (S i)); [exact H|lia].
Qed.

(** Among the rows inserted for a batch there is exactly one row of each
    index, and after the results are written it is the settled pending
    row of that index. *)
Lemma row_of_index (batchId : nat) (rs : list SendResult)
  (recs : list (option Obj)) :
  forall i rows j,
    pending_from batchId i recs rows ->
    i <= j -> j < i + List.length recs ->
    exists rec row,
      nth_error recs (j - i) = Some rec /\
      is_pending_row batchId j rec row /\
      filter (fun r => r_idx r =? j) (map (settle_row batchId 0 rs) rows) =
        [settled rs j row].
Proof.
  induction recs as [|rec recs IH]; intros i [|row rows] j H Hle Hlt;
    simpl in *; try contradiction; [lia|].
  destruct H as [Hrow H].
  destruct (settle_row_keeps batchId 0 rs row) as [_ Hidx].
  rewrite Hidx.
  destruct Hrow as (Hb & Hi & Hrest).
  rewrite Hi.
  destruct (Nat.eq_dec j i) as [->|Hne].
  - rewrite Nat.eqb_refl, Nat.sub_diag.
    exists rec, row.
    split; [reflexivity|]. split; [repeat split; tauto|].
    rewrite (rows_below_absent batchId rs recs (S i) rows i H) by lia.
    now rewrite (settle_row_at batchId i rs row Hb Hi).
  - destruct (Nat.eqb_spec i j) as [Heq|_]; [lia|].
    destruct (IH (S i) rows j H) as (rec' & row' & Hnth & Hpend & Hfilter);
      [lia|lia|].
    exists rec', row'.
    replace (j - i) with (S (j - S i)) by lia.
    split; [exact Hnth|]. split; [exact Hpend|exact Hfilter].
Qed.

Lemma rows_of_fresh (db : DB) (rs : list SendResult)
  (rows : list RecipientRow) :
  db_ok db ->
  Forall (fun row => r_batch_id row = next_rowid (map b_id (batches db)))
         rows ->
  filter (fun r => r_batch_id r =? next_rowid (map b_id (batches db)))
         (map (settle_row (next_rowid (map b_id (batches db))) 0 rs)
              (batch_recipients db ++ rows))
  = map (settle_row (next_rowid (map b_id (batches db))) 0 rs) rows.
Proof.
  intros Hok Hrows.
  set (bid := next_rowid (map b_id (batches db))) in *.
  rewrite map_app, filter_app.
  assert (Hold : filter (fun r => r_batch_id r =? bid)
                   (map (settle_row bid 0 rs) (batch_recipients db)) = []).
  { assert (Hall : forall r, In r (batch_recipients db) ->
                             r_batch_id r <> bid).
    { intros r Hin. apply next_rowid_fresh. now apply Hok. }
    induction (batch_recipients db) as [|r l IHl]; [reflexivity|].
    simpl. destruct (settle_row_keeps bid 0 rs r) as [Hb _]. rewrite Hb.
    destruct (Nat.eqb_spec (r_batch_id r) bid) as [Heq|_].
    - exfalso. apply (Hall r); [now left|exact Heq].
    - apply IHl. intros r' Hin. apply Hall. now right. }
  rewrite Hold. simpl.
  induction Hrows as [|row rows Hrow _ IHrows]; [reflexivity|].
  simpl. destruct (settle_row_keeps bid 0 rs row) as [Hb _].
  rewrite Hb, Hrow, Nat.eqb_refl. now rewrite IHrows.
Qed.

Lemma updateBatch_fresh (db : DB) (row : BatchRow)
  (rows : list RecipientRow) (sent_ failed_ processed_ : nat)
  (status : BatchStatus) (stopped_at : option nat) (err : option string) :
  b_id row = next_rowid (map b_id (batches db)) ->
  updateBatch sent_ failed_ processed_ status stopped_at err
              (next_rowid (map b_id (batches db)))
              (mkDB (batches db ++ [row]) rows)
  = mkDB (batches db ++
            [mkBatchRow (b_id row) (b_subject row) (b_html_body row)
                        (b_total row) (b_csv_name row) status (Some sent_)
                        (Some failed_) (Some processed_) stopped_at err])
         rows.
Proof.
  intros Hid. unfold updateBatch. cbn [batches batch_recipients].
  f_equal. rewrite map_app. cbn [map]. rewrite Hid, Nat.eqb_refl.
  f_equal.
  assert (Hall : forall b, In b (batches db) ->
                           b_id b <> next_rowid (map b_id (batches db))).
  { intros b Hin. apply next_rowid_fresh. now apply in_map. }
  generalize dependent (next_rowid (map b_id (batches db))).
  intros bid _ Hall.
  induction (batches db) as [|b l IHl]; [reflexivity|].
  simpl. destruct (Nat.eqb_spec (b_id b) bid) as [Heq|_].
  - exfalso. apply (Hall b); [now left|exact Heq].
  - f_equal. apply IHl. intros b' Hin. apply Hall. now right.
Qed.

Lemma find_batch_fresh (db : DB) (row : BatchRow)
  (rows : list RecipientRow) :
  b_id row = next_rowid (map b_id (batches db)) ->
  find_batch (next_rowid (map b_id (batches db)))
             (mkDB (batches db ++ [row]) rows) = Some row.
Proof.
  intros Hid. unfold find_batch. cbn [batches].
  assert (Hall : forall b, In b (batches db) ->
                           b_id b <> next_rowid (map b_id (batches db))).
  { intros b Hin. apply next_rowid_fresh. now apply in_map. }
  revert Hid Hall. generalize (next_rowid (map b_id (batches db))).
  intros bid Hid Hall.
  induction (batches db) as [|b l IHl].
  - simpl. now rewrite Hid, Nat.eqb_refl.
  - simpl. destruct (Nat.eqb_spec (b_id b) bid) as [Heq|_].
    + exfalso. apply (Hall b); [now left|exact Heq].
    + apply IHl. intros b' Hin. apply Hall. now right.
Qed.

(** ** The handler *)

Section HandlerFacts.

Variable Env : Type.
Variable smtp_verify : Env -> option JsError * Env.
Variable smtp_sendMail : MailOptions -> Env -> option JsError * Env.
Variable SMTP_USER : option string.

Local Abbreviation handler :=
  (send_emails Env smtp_verify smtp_sendMail SMTP_USER).
Local Abbreviation verifyRetry := (verifySmtpWithRetry Env smtp_verify).

(** Connectivity verification makes no [sendMail] call. *)
Lemma verify_from_sends (fuel : nat) :
  forall attempt (w : World Env),
    count_sends (trace (snd (verify_from Env smtp_verify fuel attempt w))) =
    count_sends (trace w).
Proof.
  induction fuel as [|fuel IH]; intros attempt w; [reflexivity|].
  cbn [verify_from].
  destruct (attempt <=? MAX_RETRIES); [|reflexivity].
  unfold verify.
  destruct (smtp_verify (env w)) as [[err|] e]; cbn [snd trace].
  - destruct ((isTemporaryAuthError (Some err) || isNetworkError (Some err))
              && (attempt <? MAX_RETRIES)).
    + rewrite IH. unfold sleep, log. cbn [trace].
      now rewrite count_sends_sleep, count_sends_verify.
    + cbn [snd trace]. apply count_sends_verify.
  - apply count_sends_verify.
Qed.

(** What the handler does with a request that passes validation. *)
Lemma send_emails_valid (req : SendRequest) (recs : list (option Obj))
  (db : DB) (w : World Env) :
  valid_request req recs ->
  let bid := next_rowid (map b_id (batches db)) in
  let total := List.length recs in
  exists rows,
    pending_from bid 0 recs rows /\
    ((exists err w1,
        verifyRetry w = (Some err, w1) /\
        handler req db w =
          (Some (mkResponse 500
                   (ErrorBody "SMTP connection failed"
                              (Some (err_message err)) (err_code err))),
           mkDB (batches db ++
                   [final_batch_row req bid total stopped 0 0 0 None
                      (Some ("SMTP verify failed: " ++ error_text_of err))])
                (batch_recipients db ++ rows),
           w1))
     \/
     (exists w1 rs ko w',
        verifyRetry w = (None, w1) /\
        handler req db w =
          (Some (mkResponse 200
                   (SendBody (count_sent rs) (count_error rs) total
                             (List.length rs) ko rs bid)),
           mkDB (batches db ++
                   [final_batch_row req bid total
                      (finalStatus (List.length rs) total ko)
                      (count_sent rs) (count_error rs) (List.length rs)
                      ko None])
                (map (settle_row bid 0 rs) (batch_recipients db ++ rows)),
           w') /\
        List.length rs <= total /\
        Forall2 outcome_ok (firstn (List.length rs) recs) rs /\
        count_sent rs + count_error rs = List.length rs /\
        stop_ok 0 total None ko rs /\
        count_sends (trace w') = count_sends (trace w1) + total_attempts rs)).
Proof.
  intros (Hrecs & Hne & Hsubj & Hhtml) bid total.
  destruct (insert_recipients_spec bid recs 0
              (mkDB (batches db ++
                       [mkBatchRow bid (req_subject req) (req_htmlBody req)
                                   total (stored_csv_name req) in_progress
                                   None None None None None])
                    (batch_recipients db)))
    as (Hbat & rows & Hrows & Hpend).
  cbn [batches batch_recipients] in Hbat, Hrows.
  exists rows. split; [exact Hpend|].
  unfold send_emails. rewrite Hrecs.
  destruct recs as [|rec0 recs0]; [contradiction|].
  apply String.eqb_neq in Hsubj. apply String.eqb_neq in Hhtml.
  rewrite Hsubj, Hhtml. cbn [orb].
  unfold insertBatch. cbv zeta. cbv iota beta.
  fold (stored_csv_name req). fold bid. fold total.
  set (db2 := insert_recipients bid 0 (rec0 :: recs0) _) in *.
  assert (Hdb2 : db2 =
                 mkDB (batches db ++
                         [mkBatchRow bid (req_subject req) (req_htmlBody req)
                                     total (stored_csv_name req) in_progress
                                     None None None None None])
                      (batch_recipients db ++ rows)).
  { destruct db2 as [bs rws]. cbn [batches batch_recipients] in *.
    now subst. }
  clearbody db2. subst db2. subst bid total.
  destruct (verifySmtpWithRetry Env smtp_verify w) as [[err|] w1] eqn:Hver.
  - left. exists err, w1. split; [reflexivity|].
    rewrite updateBatch_fresh by reflexivity. reflexivity.
  - right.
    match goal with
    | |- context [send_loop _ _ _ ?b ?s ?h 0 ?rest ?st] =>
        destruct (send_loop_spec Env smtp_sendMail SMTP_USER b s h rest 0 st)
          as (st' & rs & Hloop & Hres & Hlen & Hall & Hsent & Hfail
              & Hsum & Hbs & Hrs & Hstopok & Htrace)
    end.
    cbn [ls_results ls_sentCount ls_failedCount ls_db ls_stoppedAt ls_world
         batches batch_recipients app] in *.
    exists w1, rs, (ls_stoppedAt st'), (ls_world st').
    split; [reflexivity|]. rewrite Hloop, Hres, Hsent, Hfail.
    destruct (ls_db st') as [bs rws]. cbn [batches batch_recipients] in *.
    subst bs rws. cbn [plus].
    rewrite updateBatch_fresh by reflexivity.
    split; [reflexivity|].
    split; [exact Hlen|]. split; [exact Hall|]. split; [exact Hsum|].
    split; [exact Hstopok|exact Htrace].
Qed.

End HandlerFacts.

(** ** Final status of a batch *)

Lemma finalStatus_completed_iff (processed total : nat)
  (stoppedAt : option nat) :
  finalStatus processed total stoppedAt = completed <->
  processed = total /\ (stoppedAt = None \/ stoppedAt = Some 0).
Proof.
  unfold finalStatus, not_stoppedAt.
  destruct (Nat.eqb_spec processed total) as [Heq|Hne]; cbn [andb].
  - destruct stoppedAt as [[|k]|]; cbn [Nat.eqb].
    + split; [intros _; split; [exact Heq|now right]|reflexivity].
    + split; [discriminate|intros (_ & [H|H]); discriminate].
    + split; [intros _; split; [exact Heq|now left]|reflexivity].
  - split; [discriminate|]. intros (Heq & _). contradiction.
Qed.

Lemma finalStatus_values (processed total : nat) (stoppedAt : option nat) :
  finalStatus processed total stoppedAt = completed \/
  finalStatus processed total stoppedAt = stopped.
Proof.
  unfold finalStatus.
  destruct ((processed =? total) && not_stoppedAt stoppedAt); tauto.
Qed.

(** C1 (the code departs from the claim).  A batch of one recipient whose
    delivery fails with a connection reset is stopped by the circuit breaker
    at index 0: the ledger records stop index 0 and processed = total = 1,
    and yet the final status written is [completed], because the test
    [!stoppedAt] also holds for the index 0. *)
Theorem finalStatus_completed_despite_stop_at_0 :
  exists b db' w',
    send_emails unit smtp_ok (send_failing "b@x.com" err_econnreset) sender
                req_one db_empty world0
    = (Some (mkResponse 200
               (SendBody 0 1 1 1 (Some 0)
                  [mkSendResult "b@x.com" error 3 (Some "read ECONNRESET")
                                (Some NETWORK)] 1)),
       db', w') /\
    find_batch 1 db' = Some b /\
    b_stopped_at b = Some 0 /\
    b_processed b = Some 1 /\ b_total b = 1 /\
    b_status b = completed /\
    finalStatus 1 1 (Some 0) = completed.
Proof.
  eexists; eexists; eexists.
  split; [vm_compute; reflexivity|].
  vm_compute. repeat split.
Qed.

(** ** Aggregate counts *)

Section Claims.

Variable Env : Type.
Variable smtp_verify : Env -> option JsError * Env.
Variable smtp_sendMail : MailOptions -> Env -> option JsError * Env.
Variable SMTP_USER : option string.

Local Abbreviation handler :=
  (send_emails Env smtp_verify smtp_sendMail SMTP_USER).
Local Abbreviation verifyRetry := (verifySmtpWithRetry Env smtp_verify).

(** A valid request whose connectivity check succeeds is answered with
    status 200, and the run has the shape [send_emails_valid] gives. *)
Lemma send_emails_runs (req : SendRequest) (recs : list (option Obj))
  (db : DB) (w w1 : World Env) :
  valid_request req recs ->
  verifyRetry w = (None, w1) ->
  let bid := next_rowid (map b_id (batches db)) in
  let total := List.length recs in
  exists rows rs ko w',
    pending_from bid 0 recs rows /\
    handler req db w =
      (Some (mkResponse 200
               (SendBody (count_sent rs) (count_error rs) total
                         (List.length rs) ko rs bid)),
       mkDB (batches db ++
               [final_batch_row req bid total
                  (finalStatus (List.length rs) total ko)
                  (count_sent rs) (count_error rs) (List.length rs) ko None])
            (map (settle_row bid 0 rs) (batch_recipients db ++ rows)),
       w') /\
    List.length rs <= total /\
    Forall2 outcome_ok (firstn (List.length rs) recs) rs /\
    count_sent rs + count_error rs = List.length rs /\
    stop_ok 0 total None ko rs /\
    count_sends (trace w') = count_sends (trace w1) + total_attempts rs.
Proof.
  intros Hvalid Hver bid total.
  destruct (send_emails_valid Env smtp_verify smtp_sendMail SMTP_USER
              req recs db w Hvalid)
    as (rows & Hpend & [(err & w1' & Hver' & _)
                       |(w1' & rs & ko & w' & Hver' & Hrun & Hrest)]).
  - rewrite Hver in Hver'. discriminate.
  - rewrite Hver in Hver'. injection Hver' as <-.
    exists rows, rs, ko, w'. split; [exact Hpend|]. split; [exact Hrun|].
    exact Hrest.
Qed.


(** *** The circuit breaker *)

Lemma stop_ok_some (n k : nat) (rs : list SendResult) :
  stop_ok 0 n None (Some k) rs ->
  List.length rs = S k /\
  exists r, nth_error rs k = Some r /\ stops r = true.
Proof.
  intros [(_ & _ & Habs)|(pre & r & -> & _ & Hr & Hk)]; [discriminate|].
  injection Hk as ->. cbn [plus]. split.
  - rewrite length_app. simpl. lia.
  - exists r. split; [|exact Hr].
    rewrite nth_error_app2 by lia. now rewrite Nat.sub_diag.
Qed.

Lemma stop_ok_continue (n : nat) (ko : option nat) (rs : list SendResult)
  (j : nat) (r : SendResult) :
  stop_ok 0 n None ko rs ->
  nth_error rs j = Some r -> stops r = false ->
  ko <> Some j /\ (S j < n -> S j < List.length rs).
Proof.
  intros [(_ & Hlen & ->)|(pre & r' & -> & _ & Hr' & ->)] Hnth Hstop.
  - split; [discriminate|]. intros H. lia.
  - cbn [plus].
    assert (Hj : j < List.length (pre ++ [r']))
      by (apply nth_error_Some; congruence).
    rewrite length_app in *. simpl in Hj.
    assert (Hne : j <> List.length pre).
    { intros ->. rewrite nth_error_app2 in Hnth by lia.
      rewrite Nat.sub_diag in Hnth. injection Hnth as <-. congruence. }
    split; [intros Heq; injection Heq as Heq; lia|].
    intros _. simpl. lia.
Qed.

Lemma stops_true (r : SendResult) :
  stops r = true ->
  res_status r = error /\
  (res_reason r = Some NETWORK \/ res_reason r = Some TEMP_AUTH).
Proof.
  unfold stops. intros H. apply andb_true_iff in H as [Hs Hr].
  split.
  - destruct (res_status r); try discriminate; reflexivity.
  - destruct (res_reason r) as [[]|]; try discriminate; auto.
Qed.

Lemma stops_other (r : SendResult) :
  res_reason r = Some OTHER -> stops r = false.
Proof.
  unfold stops. intros ->. apply andb_false_r.
Qed.

(** The ledger rows of the batch after a run: one row per index, settled
    by the result of that index when the loop reached it. *)
Lemma rows_at_run (db : DB) (rs : list SendResult)
  (recs : list (option Obj)) (rows : list RecipientRow) (j : nat) :
  db_ok db ->
  pending_from (next_rowid (map b_id (batches db))) 0 recs rows ->
  j < List.length recs ->
  exists rec row,
    nth_error recs j = Some rec /\
    is_pending_row (next_rowid (map b_id (batches db))) j rec row /\
    forall bs,
      rows_at (next_rowid (map b_id (batches db))) j
              (mkDB bs (map (settle_row (next_rowid (map b_id (batches db)))
                                        0 rs)
                            (batch_recipients db ++ rows)))
      = [settled rs j row].
Proof.
  intros Hok Hpend Hj.
  destruct (row_of_index _ rs recs 0 rows j Hpend) as (rec & row & H);
    [lia|lia|].
  rewrite Nat.sub_0_r in H. exists rec, row.
  destruct H as (Hrec & Hrow & Hfilter).
  split; [exact Hrec|]. split; [exact Hrow|]. intros bs.
  unfold rows_at, rows_of. cbn [batch_recipients].
  rewrite rows_of_fresh;
    [exact Hfilter|exact Hok|eapply pending_from_batch; exact Hpend].
Qed.

(** C2. In a finalized batch with stop index k, the ledger row of index k
    has status [error] and its result carries the class NETWORK or
    TEMP_AUTH, and every row of a larger index is still the pending row
    that was inserted (status [pending], attempt 0, no error); a result of
    class OTHER is never the stop index, and the recipient after it, if
    any, is processed. *)
Theorem stop_index_splits_ledger (req : SendRequest)
  (recs : list (option Obj)) (db : DB) (w w1 : World Env) :
  valid_request req recs ->
  verifyRetry w = (None, w1) ->
  db_ok db ->
  exists s f p ko rs bid db' w' b,
    handler req db w =
      (Some (mkResponse 200 (SendBody s f (List.length recs) p ko rs bid)),
       db', w') /\
    find_batch bid db' = Some b /\ b_stopped_at b = ko /\
    (forall k, ko = Some k ->
       k < List.length recs /\
       (exists row r,
          rows_at bid k db' = [row] /\ r_status row = error /\
          nth_error rs k = Some r /\ res_status r = error /\
          (res_reason r = Some NETWORK \/ res_reason r = Some TEMP_AUTH)) /\
       (forall j, k < j -> j < List.length recs ->
          exists rec row,
            nth_error recs j = Some rec /\
            rows_at bid j db' = [row] /\
            is_pending_row bid j rec row /\
            nth_error rs j = None)) /\
    (forall j r, nth_error rs j = Some r -> res_reason r = Some OTHER ->
       ko <> Some j /\
       (S j < List.length recs -> exists r', nth_error rs (S j) = Some r')).
Proof.
  intros Hvalid Hver Hok.
  destruct (send_emails_runs req recs db w w1 Hvalid Hver)
    as (rows & rs & ko & w' & Hpend & Hrun & Hlen & Hall & Hsum & Hstop & _).
  do 6 eexists. eexists. eexists. eexists.
  split; [exact Hrun|].
  split; [apply find_batch_fresh; reflexivity|].
  split; [reflexivity|]. split.
  - intros k ->.
    destruct (stop_ok_some _ _ _ Hstop) as (Hk & r & Hnth & Hr).
    assert (Hklt : k < List.length recs) by lia.
    split; [exact Hklt|]. split.
    + destruct (rows_at_run db rs recs rows k Hok Hpend Hklt)
        as (rec & row & _ & _ & Hat).
      destruct (stops_true r Hr) as [Hs Hclass].
      exists (settled rs k row), r. split; [apply Hat|].
      unfold settled. rewrite Hnth. cbn [apply_result r_status].
      rewrite Hs. cbn [is_sent]. repeat split; assumption.
    + intros j Hkj Hj.
      destruct (rows_at_run db rs recs rows j Hok Hpend Hj)
        as (rec & row & Hrec & Hrow & Hat).
      assert (Hnone : nth_error rs j = None)
        by (apply nth_error_None; lia).
      exists rec, row. split; [exact Hrec|].
      split; [rewrite Hat; unfold settled; now rewrite Hnone|].
      split; [exact Hrow|exact Hnone].
  - intros j r Hnth Hother.
    destruct (stop_ok_continue _ _ _ j r Hstop Hnth (stops_other r Hother))
      as [Hne Hnext].
    split; [exact Hne|]. intros Hj.
    destruct (nth_error rs (S j)) as [r'|] eqn:E; [now exists r'|].
    apply nth_error_None in E. specialize (Hnext Hj). lia.
Qed.

(** *** Attempt counts *)

Lemma Forall2_nth_error_r {A B : Type} (P : A -> B -> Prop)
  (l1 : list A) (l2 : list B) :
  Forall2 P l1 l2 ->
  forall j y, nth_error l2 j = Some y ->
              exists x, nth_error l1 j = Some x /\ P x y.
Proof.
  induction 1 as [|x y l1 l2 Hxy _ IH]; intros [|j] y' Hnth;
    simpl in *; try discriminate.
  - injection Hnth as <-. now exists x.
  - now apply IH.
Qed.

Lemma outcome_at (recs : list (option Obj)) (rs : list SendResult)
  (j : nat) (rec : option Obj) (r : SendResult) :
  Forall2 outcome_ok (firstn (List.length rs) recs) rs ->
  nth_error recs j = Some rec -> nth_error rs j = Some r ->
  outcome_ok rec r.
Proof.
  intros Hall Hrec Hr.
  destruct (Forall2_nth_error_r _ _ _ Hall j r Hr) as (rec' & Hrec' & Hok).
  rewrite nth_error_firstn in Hrec'.
  destruct (j <? List.length rs); [|discriminate].
  congruence.
Qed.

Lemma pending_from_In (batchId : nat) (recs : list (option Obj)) :
  forall i rows row,
    pending_from batchId i recs rows -> In row rows ->
    exists j rec,
      i <= j /\ nth_error recs (j - i) = Some rec /\
      is_pending_row batchId j rec row.
Proof.
  induction recs as [|rec recs IH]; intros i [|row0 rows] row H Hin;
    simpl in *; try contradiction.
  destruct H as [Hrow0 H]. destruct Hin as [<-|Hin].
  - exists i, rec. rewrite Nat.sub_diag.
    split; [lia|]. split; [reflexivity|exact Hrow0].
  - destruct (IH (S i) rows row H Hin) as (j & rec' & Hle & Hnth & Hrow).
    exists j, rec'. split; [lia|].
    replace (j - i) with (S (j - S i)) by lia. split; assumption.
Qed.

(** C4, as the code has it.  In the ledger of a finalized batch, a
    recipient row with a terminal status records at most 3 attempts; it
    records at least 1 attempt when the recipient has an address, and 0
    attempts (with status [error]) when the address is missing. *)
Theorem attempt_bounds (req : SendRequest) (recs : list (option Obj))
  (db : DB) (w w1 : World Env) :
  valid_request req recs ->
  verifyRetry w = (None, w1) ->
  db_ok db ->
  exists s f p ko rs bid db' w',
    handler req db w =
      (Some (mkResponse 200 (SendBody s f (List.length recs) p ko rs bid)),
       db', w') /\
    forall row,
      In row (rows_of bid db') ->
      r_status row = sent \/ r_status row = error ->
      r_attempt row <= 3 /\
      (r_email row <> "" -> 1 <= r_attempt row) /\
      (r_email row = "" -> r_attempt row = 0 /\ r_status row = error).
Proof.
  intros Hvalid Hver Hok.
  destruct (send_emails_runs req recs db w w1 Hvalid Hver)
    as (rows & rs & ko & w' & Hpend & Hrun & Hlen & Hall & _).
  do 6 eexists. eexists. eexists.
  split; [exact Hrun|].
  intros row Hin Hterm. unfold rows_of in Hin. cbn [batch_recipients] in Hin.
  rewrite rows_of_fresh in Hin;
    [|exact Hok|eapply pending_from_batch; exact Hpend].
  apply in_map_iff in Hin as (row0 & <- & Hin0).
  destruct (pending_from_In _ recs 0 rows row0 Hpend Hin0)
    as (j & rec & _ & Hrec & Hrow0).
  rewrite Nat.sub_0_r in Hrec.
  pose proof Hrow0 as (Hb & Hi & Hemail & _ & _ & Hst & _).
  rewrite (settle_row_at _ j rs row0 Hb Hi) in *.
  unfold settled in *.
  destruct (nth_error rs j) as [r|] eqn:Hr.
  - destruct (outcome_at recs rs j rec r Hall Hrec Hr)
      as (Hmax & Hmiss & Hhas & _).
    cbn [apply_result r_attempt r_email r_status] in *.
    rewrite Hemail. unfold MAX_RETRIES in Hmax.
    split; [exact Hmax|]. split.
    + intros Hne. now apply Hhas.
    + intros He. rewrite (Hmiss He). split; reflexivity.
  - rewrite Hst in Hterm. destruct Hterm; discriminate.
Qed.

(** *** Failure of the connectivity check *)

Lemma count_verifies_snoc (t : list Event) (ev : Event) :
  count_verifies (t ++ [ev]) =
    count_verifies t + (if is_verify ev then 1 else 0).
Proof.
  unfold count_verifies. rewrite filter_app, length_app. simpl.
  now destruct (is_verify ev).
Qed.

(** When [verifySmtpWithRetry] throws, it has called [verify] between one
    and three times, and either the budget is used up or the last error is
    not retryable. *)
Lemma verify_from_failure (fuel : nat) :
  forall attempt (w w1 : World Env) err,
    attempt + fuel = S MAX_RETRIES ->
    verify_from Env smtp_verify fuel attempt w = (Some err, w1) ->
    exists n,
      count_verifies (trace w1) = count_verifies (trace w) + n /\
      1 <= n /\ attempt + n <= S MAX_RETRIES /\
      (attempt + n = S MAX_RETRIES \/ classify (Some err) = OTHER).
Proof.
  induction fuel as [|fuel IH]; intros attempt w w1 err Hsum Hrun;
    [discriminate|].
  cbn [verify_from] in Hrun.
  destruct (Nat.leb_spec attempt MAX_RETRIES) as [Hle|Hgt]; [|discriminate].
  unfold verify in Hrun.
  destruct (smtp_verify (env w)) as [[e|] env1]; [|discriminate].
  destruct ((isTemporaryAuthError (Some e) || isNetworkError (Some e))
            && (attempt <? MAX_RETRIES)) eqn:Eretry.
  - apply andb_true_iff in Eretry as [_ Hlt]. apply Nat.ltb_lt in Hlt.
    destruct (IH (S attempt) _ w1 err ltac:(lia) Hrun)
      as (n & Hcount & Hn & Hbound & Hwhy).
    unfold sleep, log in Hcount. cbn [trace] in Hcount.
    rewrite !count_verifies_snoc in Hcount. cbn [is_verify] in Hcount.
    exists (S n). repeat split; try lia.
    destruct Hwhy as [Hfull|Hother]; [left; lia|right; exact Hother].
  - injection Hrun as <- <-. cbn [trace].
    rewrite count_verifies_snoc. cbn [is_verify].
    exists 1. repeat split; try lia.
    apply andb_false_iff in Eretry as [Hclass|Hlast].
    + right. unfold classify. apply orb_false_iff in Hclass as [-> ->].
      reflexivity.
    + left. apply Nat.ltb_ge in Hlast. lia.
Qed.

Lemma rows_of_inserted (db : DB) (bs : list BatchRow)
  (recs : list (option Obj)) (rows : list RecipientRow) :
  db_ok db ->
  pending_from (next_rowid (map b_id (batches db))) 0 recs rows ->
  rows_of (next_rowid (map b_id (batches db)))
          (mkDB bs (batch_recipients db ++ rows)) = rows.
Proof.
  intros Hok Hpend. unfold rows_of. cbn [batch_recipients].
  pose proof (rows_of_fresh db [] rows Hok
                (pending_from_batch _ recs 0 rows Hpend)) as H.
  now rewrite !map_settle_nil in H.
Qed.

(** What the handler does when [verifySmtpWithRetry] throws. *)
Lemma verify_throw_stops_batch (req : SendRequest)
  (recs : list (option Obj)) (db : DB) (w w1 : World Env) (err : JsError) :
  valid_request req recs ->
  verifyRetry w = (Some err, w1) ->
  db_ok db ->
  exists bid db' b rows n,
    handler req db w =
      (Some (mkResponse 500
               (ErrorBody "SMTP connection failed" (Some (err_message err))
                          (err_code err))),
       db', w1) /\
    find_batch bid db' = Some b /\
    b_total b = List.length recs /\
    b_status b = stopped /\
    b_sent b = Some 0 /\ b_failed b = Some 0 /\ b_processed b = Some 0 /\
    b_stopped_at b = None /\
    b_error b = Some ("SMTP verify failed: " ++ error_text_of err) /\
    rows_of bid db' = rows /\ pending_from bid 0 recs rows /\
    count_sends (trace w1) = count_sends (trace w) /\
    count_verifies (trace w1) = count_verifies (trace w) + n /\
    1 <= n <= MAX_RETRIES /\
    (n = MAX_RETRIES \/ classify (Some err) = OTHER).
Proof.
  intros Hvalid Hver Hok.
  destruct (send_emails_valid Env smtp_verify smtp_sendMail SMTP_USER
              req recs db w Hvalid)
    as (rows & Hpend & [(err' & w1' & Hver' & Hrun)
                       |(w1' & rs & ko & w' & Hver' & _)]).
  2: { rewrite Hver in Hver'. discriminate. }
  rewrite Hver in Hver'. injection Hver' as <- <-.
  destruct (verify_from_failure MAX_RETRIES 1 w w1 err eq_refl Hver)
    as (n & Hcount & Hn & Hbound & Hwhy).
  do 3 eexists. exists rows, n.
  split; [exact Hrun|].
  split; [apply find_batch_fresh; reflexivity|].
  cbn [final_batch_row b_total b_status b_sent b_failed b_processed
       b_stopped_at b_error].
  do 7 (split; [reflexivity|]).
  split; [now apply (rows_of_inserted db _ recs rows)|].
  split; [exact Hpend|].
  split.
  { pose proof (verify_from_sends Env smtp_verify MAX_RETRIES 1 w) as H.
    unfold verifySmtpWithRetry in Hver. now rewrite Hver in H. }
  split; [exact Hcount|]. unfold MAX_RETRIES in *.
  split; [lia|]. destruct Hwhy as [H|H]; [left; lia|right; exact H].
Qed.

(** Failing checks make [verifySmtpWithRetry] throw the error of the last
    check. *)
Lemma failed_checks_throw (fuel : nat) :
  forall attempt (w : World Env) err,
    attempt + fuel = S MAX_RETRIES ->
    failed_checks smtp_verify fuel (env w) = Some err ->
    exists w1, verify_from Env smtp_verify fuel attempt w = (Some err, w1).
Proof.
  induction fuel as [|fuel IH]; intros attempt w err Hsum Hfail;
    [discriminate|].
  cbn [verify_from failed_checks] in *.
  destruct (Nat.leb_spec attempt MAX_RETRIES) as [_|Hgt]; [|lia].
  unfold verify.
  destruct (smtp_verify (env w)) as [[e|] env1]; [|discriminate].
  unfold classify, reason_of in Hfail.
  destruct (isTemporaryAuthError (Some e) || isNetworkError (Some e))
    eqn:Eretry.
  - assert (Hnext : match fuel with
                    | O => Some e
                    | S _ => failed_checks smtp_verify fuel env1
                    end = Some err).
    { destruct (isTemporaryAuthError (Some e)); [exact Hfail|].
      destruct (isNetworkError (Some e)); [exact Hfail|discriminate]. }
    cbn [andb]. destruct fuel as [|fuel'].
    + destruct (Nat.ltb_spec attempt MAX_RETRIES) as [Hlt|_]; [lia|].
      injection Hnext as <-. eexists. reflexivity.
    + destruct (Nat.ltb_spec attempt MAX_RETRIES) as [_|Hge]; [|lia].
      apply IH; [lia|exact Hnext].
  - apply orb_false_iff in Eretry as [Hta Hnet].
    rewrite Hta, Hnet in Hfail. injection Hfail as <-.
    cbn [andb]. eexists. reflexivity.
Qed.

(** C6. When the connectivity checks of a valid request fail (the server
    rejects all three [verify] calls, or rejects one with an error of
    class OTHER, which is not retried), the handler answers 500 with the
    message and code of the last error, the batch row is finalized as
    [stopped] with sent = failed = processed = 0, no stop index and the
    fatal error text, every recipient row of the batch is still pending,
    and no [sendMail] call was made. *)
Theorem verify_failure_stops_batch (req : SendRequest)
  (recs : list (option Obj)) (db : DB) (w : World Env) (err : JsError) :
  valid_request req recs ->
  failed_checks smtp_verify MAX_RETRIES (env w) = Some err ->
  db_ok db ->
  exists bid db' w1 b rows n,
    handler req db w =
      (Some (mkResponse 500
               (ErrorBody "SMTP connection failed" (Some (err_message err))
                          (err_code err))),
       db', w1) /\
    find_batch bid db' = Some b /\
    b_total b = List.length recs /\
    b_status b = stopped /\
    b_sent b = Some 0 /\ b_failed b = Some 0 /\ b_processed b = Some 0 /\
    b_stopped_at b = None /\
    b_error b = Some ("SMTP verify failed: " ++ error_text_of err) /\
    rows_of bid db' = rows /\ pending_from bid 0 recs rows /\
    count_sends (trace w1) = count_sends (trace w) /\
    count_verifies (trace w1) = count_verifies (trace w) + n /\
    1 <= n <= MAX_RETRIES /\
    (n = MAX_RETRIES \/ classify (Some err) = OTHER).
Proof.
  intros Hvalid Hfail Hok.
  destruct (failed_checks_throw MAX_RETRIES 1 w err eq_refl Hfail)
    as (w1 & Hver).
  destruct (verify_throw_stops_batch req recs db w w1 err Hvalid Hver Hok)
    as (bid & db' & b & rows & n & H).
  exists bid, db', w1, b, rows, n. exact H.
Qed.

(** *** Recipients without an address *)

Lemma missing_email_no_attempt (rec : option Obj) (subject html : string)
  (w0 : World Env) :
  getField rec "Email" "" = "" ->
  sendToRecipientWithRetry Env smtp_sendMail SMTP_USER rec subject html w0
  = (Some missing_email_result, w0).
Proof.
  intros He. unfold sendToRecipientWithRetry. now rewrite He.
Qed.

(** [getField(recipient, "Email", "")] is empty exactly for the
    recipients without an address. *)
Lemma no_address_iff (rec : option Obj) :
  getField rec "Email" "" = "" <-> no_address rec.
Proof.
  destruct rec as [o|]; [|split; [intros _; exact I|reflexivity]].
  unfold getField, no_address. fold is_email_key.
  destruct (find is_email_key (keys o)) as [k|] eqn:Hfind;
    [|split; [intros _; exact I|reflexivity]].
  apply find_some in Hfind as [_ Hk].
  destruct (String.eqb_spec k "") as [->|_]; [discriminate|].
  destruct (obj_get k o) as [v|]; [|split; [intros _; exact I|reflexivity]].
  destruct (is_nullish v).
  - split; [intros _; now left|reflexivity].
  - split; [intros H; now right|intros [H|H]; [discriminate|exact H]].
Qed.

End Claims.

(** ** Referential integrity is an invariant *)

Section Invariant.

Variable Env : Type.
Variable smtp_verify : Env -> option JsError * Env.
Variable smtp_sendMail : MailOptions -> Env -> option JsError * Env.
Variable SMTP_USER : option string.

Lemma db_ok_extend (db : DB) (row : BatchRow) (rs : list SendResult)
  (rows : list RecipientRow) :
  db_ok db ->
  Forall (fun r => r_batch_id r = b_id row) rows ->
  db_ok (mkDB (batches db ++ [row])
              (map (settle_row (b_id row) 0 rs)
                   (batch_recipients db ++ rows))).
Proof.
  intros Hok Hrows r Hin. cbn [batches batch_recipients] in *.
  apply in_map_iff in Hin as (r0 & <- & Hin0).
  destruct (settle_row_keeps (b_id row) 0 rs r0) as [-> _].
  rewrite map_app. apply in_or_app.
  apply in_app_or in Hin0 as [Hold|Hnew].
  - left. now apply Hok.
  - right. rewrite Forall_forall in Hrows. rewrite (Hrows r0 Hnew).
    now left.
Qed.

(** Every request leaves a ledger with referential integrity in a ledger
    with referential integrity; the empty ledger has it, so every ledger
    the handler can reach has it. *)
Lemma send_emails_keeps_db_ok (req : SendRequest) (db : DB) (w : World Env) :
  db_ok db ->
  db_ok (snd (fst (send_emails Env smtp_verify smtp_sendMail SMTP_USER
                               req db w))).
Proof.
  intros Hok.
  destruct (req_recipients req) as [[|rec0 recs0]|] eqn:Hrecs.
  1, 3: unfold send_emails; rewrite Hrecs; exact Hok.
  destruct (String.eqb_spec (req_subject req) "") as [Hs|Hs].
  { unfold send_emails. rewrite Hrecs, Hs. exact Hok. }
  destruct (String.eqb_spec (req_htmlBody req) "") as [Hh|Hh].
  { unfold send_emails. rewrite Hrecs, Hh, orb_true_r. exact Hok. }
  assert (Hvalid : valid_request req (rec0 :: recs0))
    by (repeat split; [exact Hrecs|discriminate|exact Hs|exact Hh]).
  destruct (send_emails_valid Env smtp_verify smtp_sendMail SMTP_USER
              req (rec0 :: recs0) db w Hvalid)
    as (rows & Hpend & [(err & w1 & _ & ->)
                       |(w1 & rs & ko & w' & _ & -> & _)]);
    cbn [fst snd].
  - rewrite <- (map_settle_nil (next_rowid (map b_id (batches db))) 0
                  (batch_recipients db ++ rows)).
    apply (db_ok_extend db
             (final_batch_row req (next_rowid (map b_id (batches db)))
                (List.length (rec0 :: recs0)) stopped 0 0 0 None _) []);
      [exact Hok|].
    eapply pending_from_batch; exact Hpend.
  - apply (db_ok_extend db
             (final_batch_row req (next_rowid (map b_id (batches db)))
                (List.length (rec0 :: recs0)) _ _ _ _ ko None) rs);
      [exact Hok|].
    eapply pending_from_batch; exact Hpend.
Qed.

End Invariant.

(** ** The theorems at concrete runs *)

Lemma valid_req_abc : valid_request req_abc recs_abc.
Proof. repeat split; discriminate. Qed.

Lemma valid_req_missing : valid_request req_missing recs_missing.
Proof. repeat split; discriminate. Qed.

Lemma db_empty_ok : db_ok db_empty.
Proof. intros r []. Qed.


Lemma stop_index_splits_ledger_witness :
  valid_request req_abc recs_abc /\ db_ok db_empty /\
  exists ko rs, forall j r,
      nth_error rs j = Some r -> res_reason r = Some OTHER -> ko <> Some j.
Proof.
  split; [exact valid_req_abc|]. split; [exact db_empty_ok|].
  destruct (stop_index_splits_ledger unit smtp_ok
              (send_failing "b@x.com" err_econnreset) sender
              req_abc recs_abc db_empty world0 world_verified
              valid_req_abc eq_refl db_empty_ok)
    as (s & f & p & ko & rs & bid & db' & w' & b & _ & _ & _ & _ & Hother).
  exists ko, rs. intros j r Hnth Hr. exact (proj1 (Hother j r Hnth Hr)).
Defined.

Lemma attempt_bounds_witness :
  valid_request req_missing recs_missing /\ db_ok db_empty /\
  exists bid db', forall row,
      In row (rows_of bid db') ->
      r_status row = sent \/ r_status row = error -> r_attempt row <= 3.
Proof.
  split; [exact valid_req_missing|]. split; [exact db_empty_ok|].
  destruct (attempt_bounds unit smtp_ok
              (send_failing "b@x.com" err_econnreset) sender
              req_missing recs_missing db_empty world0 world_verified
              valid_req_missing eq_refl db_empty_ok)
    as (s & f & p & ko & rs & bid & db' & w' & _ & Hrows).
  exists bid, db'. intros row Hin Hterm. exact (proj1 (Hrows row Hin Hterm)).
Defined.

(** C4 as stated fails: the second recipient of [req_missing] has no
    address; its row ends with status [error] and attempt 0. *)
Lemma attempt_zero_on_terminal_row :
  exists row,
    In row (rows_of 1
              (snd (fst (send_emails unit smtp_ok
                           (send_failing "b@x.com" err_econnreset) sender
                           req_missing db_empty world0)))) /\
    r_status row = error /\
    r_attempt row = 0 /\
    ~ (1 <= r_attempt row <= 3).
Proof.
  eexists. split; [vm_compute; right; left; reflexivity|].
  cbn. repeat split. lia.
Qed.

Lemma verify_failure_stops_batch_witness :
  failed_checks smtp_down MAX_RETRIES (env world0) = Some err_econnreset /\
  failed_checks smtp_refusing MAX_RETRIES (env world0) = Some err_rejected /\
  (exists db' w1 bid b,
     send_emails unit smtp_down (send_failing "b@x.com" err_econnreset)
                 sender req_abc db_empty world0 =
       (Some (mkResponse 500
                (ErrorBody "SMTP connection failed" (Some "read ECONNRESET")
                           (VStr "econnreset"))), db', w1) /\
     find_batch bid db' = Some b /\ b_status b = stopped /\
     b_processed b = Some 0 /\ count_sends (trace w1) = 0) /\
  (exists db' w1 bid b,
     send_emails unit smtp_refusing (send_failing "b@x.com" err_econnreset)
                 sender req_abc db_empty world0 =
       (Some (mkResponse 500
                (ErrorBody "SMTP connection failed"
                           (Some "550 5.1.1 User unknown")
                           (VStr "EENVELOPE"))), db', w1) /\
     find_batch bid db' = Some b /\ b_status b = stopped /\
     count_verifies (trace w1) = 1).
Proof.
  split; [reflexivity|]. split; [reflexivity|]. split.
  - destruct (verify_failure_stops_batch unit smtp_down
                (send_failing "b@x.com" err_econnreset) sender
                req_abc recs_abc db_empty world0 err_econnreset
                valid_req_abc eq_refl db_empty_ok)
      as (bid & db' & w1 & b & rows & n & Hrun & Hfind & _ & Hst & _ & _
          & Hp & _ & _ & _ & _ & Hsends & _).
    exists db', w1, bid, b. repeat split; assumption.
  - destruct (verify_failure_stops_batch unit smtp_refusing
                (send_failing "b@x.com" err_econnreset) sender
                req_abc recs_abc db_empty world0 err_rejected
                valid_req_abc eq_refl db_empty_ok)
      as (bid & db' & w1 & b & rows & n & Hrun & Hfind & _ & Hst & _ & _
          & _ & _ & _ & _ & _ & _ & Hcount & Hn & Hwhy).
    exists db', w1, bid, b. split; [exact Hrun|].
    split; [exact Hfind|]. split; [exact Hst|].
    pose proof (f_equal snd Hrun) as Hw. cbn [snd] in Hw.
    rewrite <- Hw. reflexivity.
Defined.

(** ** Archive entries *)

Lemma all_chars_app (p : ascii -> bool) (s t : string) :
  all_chars p (s ++ t) = all_chars p s && all_chars p t.
Proof.
  induction s as [|c s IH]; simpl; [reflexivity|].
  now rewrite IH, andb_assoc.
Qed.

Lemma sanitize_safe (email : string) :
  all_chars is_safe_char (sanitize email) = true.
Proof.
  unfold sanitize. induction email as [|c s IH]; simpl; [reflexivity|].
  rewrite IH, andb_true_r.
  destruct (is_safe_char c) eqn:E; [exact E|reflexivity].
Qed.

Lemma sanitize_empty (email : string) :
  sanitize email = "" <-> email = "".
Proof.
  destruct email; simpl; split; intros H; try reflexivity; discriminate.
Qed.

Lemma filename_of_safe (email : string) :
  all_chars is_safe_char (filename_of email) = true.
Proof.
  unfold filename_of, or_str. rewrite all_chars_app.
  destruct (String.eqb (sanitize email) ""); [reflexivity|].
  now rewrite sanitize_safe.
Qed.

Lemma csv_filename_of_safe (email : string) :
  all_chars is_safe_char (csv_filename_of email) = true.
Proof.
  unfold csv_filename_of. rewrite all_chars_app. now rewrite sanitize_safe.
Qed.

Lemma filename_of_cases (email : string) :
  (email = "" -> filename_of email = "recipient.pdf") /\
  (email <> "" -> filename_of email = sanitize email ++ ".pdf").
Proof.
  unfold filename_of, or_str. split.
  - intros ->. reflexivity.
  - intros Hne. destruct (String.eqb_spec (sanitize email) "") as [He|_];
      [|reflexivity].
    apply (proj1 (sanitize_empty email)) in He. contradiction.
Qed.

Section ArchiveFacts.

Variable Pdf : Type.
Variable Browser : Type.
Variable launch : Browser + string.
Variable page_pdf : string -> Browser -> (Pdf + string) * Browser.
Variable latest : list BatchRow -> option BatchRow.

Lemma append_all_names (pdfFiles : list (PdfFile Pdf)) :
  map fst (append_all Pdf pdfFiles) = map (filename Pdf) pdfFiles.
Proof.
  unfold append_all.
  assert (H : forall acc,
             map fst (fold_left
                        (fun archive file =>
                           (archive ++ [(filename Pdf file, buffer Pdf file)])
                             %list) pdfFiles acc)
             = (map fst acc ++ map (filename Pdf) pdfFiles)%list).
  { induction pdfFiles as [|file files IH]; intros acc; simpl.
    - now rewrite app_nil_r.
    - rewrite IH, map_app, <- app_assoc. reflexivity. }
  apply (H []).
Qed.

Lemma render_files_names (subject htmlBody : string)
  (recipients : list (option Obj)) :
  forall (b : Browser) (acc pdfFiles : list (PdfFile Pdf)),
    render_files Pdf Browser page_pdf subject htmlBody recipients b acc
      = inl pdfFiles ->
    map (filename Pdf) pdfFiles =
      (map (filename Pdf) acc ++
       map (fun r => filename_of (getField r "Email" "unknown")) recipients)
        %list.
Proof.
  induction recipients as [|r rest IH]; intros b acc pdfFiles H.
  - simpl in H. injection H as <-. now rewrite app_nil_r.
  - cbn [render_files] in H.
    destruct (page_pdf _ b) as [[pdf|msg] b']; [|discriminate].
    apply IH in H. rewrite H, map_app. cbn [map filename].
    rewrite <- app_assoc. reflexivity.
Qed.

Lemma insert_by_idx_length (row : RecipientRow) (rows : list RecipientRow) :
  List.length (insert_by_idx row rows) = S (List.length rows).
Proof.
  induction rows as [|r rows IH]; [reflexivity|].
  cbn [insert_by_idx]. destruct (r_idx row <? r_idx r); simpl;
    [reflexivity|now rewrite IH].
Qed.

Lemma order_by_idx_length (rows : list RecipientRow) :
  List.length (order_by_idx rows) = List.length rows.
Proof.
  unfold order_by_idx. induction rows as [|r rows IH]; [reflexivity|].
  cbn [fold_right]. now rewrite insert_by_idx_length, IH.
Qed.

Lemma render_rows_names (batchRow : BatchRow) (recRows : list RecipientRow) :
  forall (b : Browser) (acc pdfFiles : list (PdfFile Pdf)),
    render_rows Pdf Browser page_pdf batchRow recRows b acc = inl pdfFiles ->
    map (filename Pdf) pdfFiles =
      (map (filename Pdf) acc ++
       map (fun rec => csv_filename_of (stored_email rec)) recRows)%list.
Proof.
  induction recRows as [|rec rest IH]; intros b acc pdfFiles H.
  - simpl in H. injection H as <-. now rewrite app_nil_r.
  - cbn [render_rows] in H.
    destruct (page_pdf _ b) as [[pdf|msg] b']; [|discriminate].
    apply IH in H. rewrite H, map_app. cbn [map filename].
    rewrite <- app_assoc. reflexivity.
Qed.

Lemma csv_filename_of_cases (email : string) :
  (email = "" -> csv_filename_of email = "recipient.pdf") /\
  (email <> "" -> csv_filename_of email = sanitize email ++ ".pdf").
Proof.
  unfold csv_filename_of, or_str. split.
  - intros ->. reflexivity.
  - intros Hne. apply String.eqb_neq in Hne. now rewrite Hne.
Qed.

(** C9. A request that is answered with an archive yields one entry per
    recipient, in input order for [/api/email-pdfs] and in index order of
    the stored rows of the batch found for [/api/csv-pdfs]; the name of an
    entry is the recipient's address with every character outside
    [[A-Za-z0-9@._-]] replaced by an underscore and ".pdf" appended, or
    "recipient.pdf" when the address is the empty string, where the
    address is the value of the recipient's Email column and "unknown"
    when the recipient has no such column or a null value in it; every
    character of every entry name is in [[A-Za-z0-9@._-]]. *)
Theorem archive_entries_named (req : ArchiveRequest)
  (recs : list (option Obj)) (csvName : string) (db : DB)
  (entries : list (string * Pdf)) :
  (areq_recipients req = Some recs ->
   email_pdfs Pdf Browser launch page_pdf req = ArchiveZip Pdf entries ->
   List.length entries = List.length recs /\
   map fst entries =
     map (fun r => filename_of (getField r "Email" "unknown")) recs /\
   (forall email,
      (email = "" -> filename_of email = "recipient.pdf") /\
      (email <> "" -> filename_of email = sanitize email ++ ".pdf")) /\
   Forall (fun e => all_chars is_safe_char (fst e) = true) entries)
  /\
  (chooses_member latest ->
   csv_pdfs Pdf Browser launch page_pdf latest csvName db =
     ArchiveZip Pdf entries ->
   exists batchRow,
     find_latest_batch latest (trim csvName) db = Some batchRow /\
     In batchRow (batches_named (trim csvName) db) /\
     List.length entries = List.length (rows_of (b_id batchRow) db) /\
     map fst entries =
       map (fun rec => csv_filename_of (stored_email rec))
           (select_recipients (b_id batchRow) db) /\
     (forall email,
        (email = "" -> csv_filename_of email = "recipient.pdf") /\
        (email <> "" -> csv_filename_of email = sanitize email ++ ".pdf")) /\
     Forall (fun e => all_chars is_safe_char (fst e) = true) entries).
Proof.
  split.
  - intros Hrecs Hzip. unfold email_pdfs in Hzip. rewrite Hrecs in Hzip.
    destruct recs as [|r0 recs0]; [discriminate|].
    destruct (String.eqb (areq_subject req) "" ||
              String.eqb (areq_htmlBody req) ""); [discriminate|].
    destruct launch as [page|msg]; [|discriminate].
    destruct (render_files Pdf Browser page_pdf (areq_subject req)
                (areq_htmlBody req) (r0 :: recs0) page [])
      as [pdfFiles|msg] eqn:Hfiles; [|discriminate].
    injection Hzip as <-.
    apply render_files_names in Hfiles. cbn [map app] in Hfiles.
    assert (Hnames : map fst (append_all Pdf pdfFiles) =
                     map (fun r => filename_of (getField r "Email" "unknown"))
                         (r0 :: recs0)).
    { rewrite append_all_names. exact Hfiles. }
    split.
    { rewrite <- (length_map fst), Hnames, length_map. reflexivity. }
    split; [exact Hnames|]. split; [exact filename_of_cases|].
    apply Forall_forall. intros e Hin.
    assert (Hfst : In (fst e) (map fst (append_all Pdf pdfFiles)))
      by now apply in_map.
    rewrite Hnames in Hfst. apply in_map_iff in Hfst as (r & <- & _).
    apply filename_of_safe.
  - intros Hlatest Hzip. unfold csv_pdfs in Hzip.
    destruct (String.eqb csvName "" || String.eqb (trim csvName) "");
      [discriminate|].
    destruct (find_latest_batch latest (trim csvName) db) as [batchRow|]
      eqn:Hfound; [|discriminate].
    exists batchRow. split; [reflexivity|].
    split.
    { unfold find_latest_batch in Hfound.
      pose proof (Hlatest (batches_named (trim csvName) db)) as Hin.
      now rewrite Hfound in Hin. }
    destruct launch as [page|msg]; [|discriminate].
    destruct (render_rows Pdf Browser page_pdf batchRow
                (select_recipients (b_id batchRow) db) page [])
      as [pdfFiles|msg] eqn:Hfiles; [|discriminate].
    injection Hzip as <-.
    apply render_rows_names in Hfiles. cbn [map app] in Hfiles.
    assert (Hnames : map fst (append_all Pdf pdfFiles) =
                     map (fun rec => csv_filename_of (stored_email rec))
                         (select_recipients (b_id batchRow) db)).
    { rewrite append_all_names. exact Hfiles. }
    split.
    { rewrite <- (length_map fst), Hnames, length_map.
      apply order_by_idx_length. }
    split; [exact Hnames|]. split; [exact csv_filename_of_cases|].
    apply Forall_forall. intros e Hin.
    assert (Hfst : In (fst e) (map fst (append_all Pdf pdfFiles)))
      by now apply in_map.
    rewrite Hnames in Hfst. apply in_map_iff in Hfst as (r & <- & _).
    apply csv_filename_of_safe.
Qed.

End ArchiveFacts.

Lemma latest_by_rowid_ok : chooses_member latest_by_rowid.
Proof.
  intros l. unfold latest_by_rowid.
  destruct (rev l) as [|b l'] eqn:Hrev; cbn [hd_error].
  - apply (f_equal (@rev BatchRow)) in Hrev.
    now rewrite rev_involutive in Hrev.
  - apply in_rev. rewrite Hrev. now left.
Qed.

Lemma archive_entries_named_witness :
  (exists entries,
     email_pdfs string unit (inl tt) page_pdf_ok areq_abc
       = ArchiveZip string entries /\
     map fst entries =
       ["a@x.com.pdf"; "recipient.pdf"; "Zoe__z_1_@x.com.pdf";
        "unknown.pdf"]) /\
  (exists entries,
     csv_pdfs string unit (inl tt) page_pdf_ok latest_by_rowid " LIST.csv "
              db_after_abc
       = ArchiveZip string entries /\
     Forall (fun e => all_chars is_safe_char (fst e) = true) entries).
Proof.
  split.
  - eexists. split; [vm_compute; reflexivity|].
    exact (proj1 (proj2
      (proj1 (archive_entries_named string unit (inl tt) page_pdf_ok
                latest_by_rowid areq_abc _ "" db_empty _)
             eq_refl eq_refl))).
  - eexists. split; [vm_compute; reflexivity|].
    destruct (proj2 (archive_entries_named string unit (inl tt) page_pdf_ok
                       latest_by_rowid areq_abc [] " LIST.csv "
                       db_after_abc _) latest_by_rowid_ok eq_refl)
      as (batchRow & _ & _ & _ & _ & _ & Hsafe).
    exact Hsafe.
Defined.

(** C9 as stated fails: a recipient without an Email column has an empty
    address, and its entry is named "unknown.pdf", which is neither the
    sanitized address nor the fallback "recipient.pdf". *)
Lemma entry_named_unknown_without_email :
  getField (Some []) "Email" "" = "" /\
  exists entries,
    email_pdfs string unit (inl tt) page_pdf_ok areq_no_columns
      = ArchiveZip string entries /\
    map fst entries = ["unknown.pdf"] /\
    map fst entries <> ["recipient.pdf"] /\
    map fst entries <> [sanitize "" ++ ".pdf"].
Proof.
  split; [reflexivity|]. eexists. split; [vm_compute; reflexivity|].
  cbn [map fst]. repeat split; discriminate.
Qed.

(** ** The template engine *)

Lemma str_app_assoc (a b c : string) : (a ++ b) ++ c = a ++ (b ++ c).
Proof. induction a as [|x a IH]; simpl; [reflexivity|now rewrite IH]. Qed.

Lemma str_app_nil_r (a : string) : a ++ "" = a.
Proof. induction a as [|x a IH]; simpl; [reflexivity|now rewrite IH]. Qed.

Lemma str_length_app (a b : string) :
  String.length (a ++ b) = String.length a + String.length b.
Proof. induction a as [|x a IH]; simpl; [reflexivity|now rewrite IH]. Qed.

(** The pattern source built by [applyTemplate] denotes the literal
    placeholder text. *)
Lemma literal_of_escaped (key : string) :
  literal_of_source (escapeRegExp key ++ "\}") = Some (key ++ "}").
Proof.
  induction key as [|c key IH]; [reflexivity|].
  cbn [escapeRegExp]. destruct (is_special c) eqn:Hc.
  - cbn [append literal_of_source].
    change (Ascii.eqb "\" "\") with true. cbv iota.
    rewrite Hc, IH. reflexivity.
  - cbn [append literal_of_source]. rewrite Hc.
    destruct (Ascii.eqb_spec c "\") as [->|_]; [discriminate|].
    rewrite IH. reflexivity.
Qed.

Lemma pattern_source_literal (key : string) :
  literal_of_source (pattern_source key) = Some (placeholder key).
Proof.
  unfold pattern_source, placeholder.
  change ("\{" ++ escapeRegExp key ++ "\}")
    with (String "\" (String "{" (escapeRegExp key ++ "\}"))).
  cbn [literal_of_source].
  change (Ascii.eqb "\" "\") with true. cbv iota.
  change (is_special "{") with true. cbv iota.
  now rewrite literal_of_escaped.
Qed.

(** *** Identity when nothing matches *)

Lemma replace_scan_no_match (pat repl : string) (s : string) :
  includes s pat = false ->
  forall before, replace_scan pat repl before s 0 = s.
Proof.
  induction s as [|c s IH]; intros Hinc before; [reflexivity|].
  cbn [includes] in Hinc. apply orb_false_iff in Hinc as [Hstart Hrest].
  cbn [replace_scan]. rewrite Hstart. now rewrite IH.
Qed.

Lemma apply_entry_no_match (result key : string) (v : JsVal) :
  key = "" \/ includes result (placeholder key) = false ->
  apply_entry result (key, v) = result.
Proof.
  intros H. unfold apply_entry.
  destruct (String.eqb_spec key "") as [_|Hne]; [reflexivity|].
  destruct H as [H|H]; [contradiction|].
  unfold replace_placeholder. now apply replace_scan_no_match.
Qed.

Lemma applyTemplate_no_match (template : string) (o : Obj) :
  (forall k, In k (keys o) -> k <> "" ->
             includes template (placeholder k) = false) ->
  applyTemplate template (Some o) = template.
Proof.
  intros H. unfold applyTemplate.
  destruct (String.eqb_spec template "") as [->|_]; [reflexivity|].
  induction o as [|[k v] o IH]; [reflexivity|].
  cbn [fold_left]. rewrite apply_entry_no_match.
  - apply IH. intros k' Hin. apply H. now right.
  - destruct (String.eqb_spec k "") as [->|Hne]; [now left|right].
    apply H; [now left|exact Hne].
Qed.

(** *** Placeholders of other names survive a replacement *)

Lemma brace_free_cons (c : ascii) (s : string) :
  brace_free (String c s) = true ->
  c <> "{"%char /\ c <> "}"%char /\ brace_free s = true.
Proof.
  unfold brace_free. cbn [all_chars]. intros H.
  apply andb_true_iff in H as [Hc Hs].
  apply andb_true_iff in Hc as [Ho Hcl].
  apply negb_true_iff in Ho. apply negb_true_iff in Hcl.
  apply Ascii.eqb_neq in Ho. apply Ascii.eqb_neq in Hcl. tauto.
Qed.

(** A match of [{k}] that starts inside a segment ends inside it: it
    cannot run into the opening brace that follows the segment. *)
Lemma match_fits (k : string) :
  forall seg tl,
    brace_free k = true ->
    startsWith (seg ++ String "{" tl) (k ++ "}") = true ->
    String.length (k ++ "}") <= String.length seg.
Proof.
  induction k as [|a k IH]; intros [|c seg] tl Hk H;
    cbn [append startsWith String.length] in H |- *.
  - apply andb_true_iff in H as [H _]. apply Ascii.eqb_eq in H.
    discriminate.
  - lia.
  - apply brace_free_cons in Hk as (Ho & _ & _).
    apply andb_true_iff in H as [Ha _]. apply Ascii.eqb_eq in Ha.
    contradiction.
  - apply brace_free_cons in Hk as (_ & _ & Hk).
    apply andb_true_iff in H as [_ H].
    specialize (IH seg tl Hk H). lia.
Qed.

(** At a placeholder [{n}], the pattern of another name does not match. *)
Lemma other_name_no_match (k : string) :
  forall n rest,
    brace_free k = true -> brace_free n = true ->
    startsWith (n ++ String "}" rest) (k ++ "}") = true -> k = n.
Proof.
  induction k as [|a k IH]; intros [|b n] rest Hk Hn H;
    cbn [append startsWith] in H.
  - reflexivity.
  - apply brace_free_cons in Hn as (_ & Hcl & _).
    apply andb_true_iff in H as [Hb _]. apply Ascii.eqb_eq in Hb.
    symmetry in Hb. contradiction.
  - apply brace_free_cons in Hk as (_ & Hcl & _).
    apply andb_true_iff in H as [Ha _]. apply Ascii.eqb_eq in Ha.
    contradiction.
  - apply brace_free_cons in Hk as (_ & _ & Hk).
    apply brace_free_cons in Hn as (_ & _ & Hn).
    apply andb_true_iff in H as [Hab H]. apply Ascii.eqb_eq in Hab.
    subst b. f_equal. exact (IH n rest Hk Hn H).
Qed.

(** Text without an opening brace is copied. *)
Lemma scan_copies (q repl : string) (m : string) :
  forall before rest,
    all_chars (fun c => negb (Ascii.eqb c "{")) m = true ->
    replace_scan (String "{" q) repl before (m ++ rest) 0 =
      m ++ replace_scan (String "{" q) repl (before ++ m) rest 0.
Proof.
  induction m as [|c m IH]; intros before rest Hm.
  - cbn [append]. now rewrite str_app_nil_r.
  - cbn [all_chars] in Hm. apply andb_true_iff in Hm as [Hc Hm].
    apply negb_true_iff in Hc.
    cbn [append replace_scan startsWith].
    rewrite Ascii.eqb_sym in Hc. rewrite Hc. cbn [andb].
    rewrite IH by exact Hm. rewrite str_app_assoc. reflexivity.
Qed.

Lemma brace_free_no_open (n : string) :
  brace_free n = true ->
  all_chars (fun c => negb (Ascii.eqb c "{")) (n ++ "}") = true.
Proof.
  induction n as [|c n IH]; intros H; [reflexivity|].
  apply brace_free_cons in H as (Ho & _ & Hn).
  cbn [append all_chars]. rewrite (IH Hn), andb_true_r.
  apply negb_true_iff. now apply Ascii.eqb_neq.
Qed.

Lemma scan_placeholder (k n repl before rest : string) :
  brace_free k = true -> brace_free n = true -> k <> n ->
  replace_scan (placeholder k) repl before (placeholder n ++ rest) 0 =
    placeholder n ++
    replace_scan (placeholder k) repl (before ++ placeholder n) rest 0.
Proof.
  intros Hk Hn Hne. unfold placeholder.
  change ("{" ++ k ++ "}") with (String "{" (k ++ "}")).
  change ("{" ++ n ++ "}") with (String "{" (n ++ "}")).
  cbn [append replace_scan startsWith].
  change (Ascii.eqb "{" "{") with true. cbn [andb].
  destruct (startsWith ((n ++ "}") ++ rest) (k ++ "}")) eqn:Hm.
  - exfalso. apply Hne. rewrite str_app_assoc in Hm.
    exact (other_name_no_match k n rest Hk Hn Hm).
  - rewrite scan_copies by now apply brace_free_no_open.
    rewrite !str_app_assoc. reflexivity.
Qed.

Lemma scan_segment (k n repl rest : string) :
  brace_free k = true -> brace_free n = true -> k <> n ->
  forall seg before skip,
    skip <= String.length seg ->
    exists seg',
      replace_scan (placeholder k) repl before
                   (seg ++ placeholder n ++ rest) skip =
        seg' ++ placeholder n ++
        replace_scan (placeholder k) repl (before ++ seg ++ placeholder n)
                     rest 0.
Proof.
  intros Hk Hn Hne.
  induction seg as [|c seg IH]; intros before skip Hskip.
  - cbn in Hskip. assert (skip = 0) by lia. subst skip.
    exists "". cbn [append]. now apply scan_placeholder.
  - cbn [append replace_scan]. cbn [String.length] in Hskip.
    assert (Hb : (before ++ String c "") ++ seg ++ placeholder n =
                 before ++ String c seg ++ placeholder n)
      by (rewrite str_app_assoc; reflexivity).
    destruct skip as [|sk].
    + destruct (startsWith (String c (seg ++ placeholder n ++ rest))
                           (placeholder k)) eqn:Hm.
      * assert (Hfit : String.length (placeholder k) - 1 <= String.length seg).
        { unfold placeholder in Hm |- *.
          change ("{" ++ k ++ "}") with (String "{" (k ++ "}")) in Hm |- *.
          change ("{" ++ n ++ "}") with (String "{" (n ++ "}")) in Hm.
          cbn [append startsWith] in Hm.
          apply andb_true_iff in Hm as [_ Hm].
          apply match_fits in Hm; [|exact Hk].
          cbn [String.length]. lia. }
        destruct (IH (before ++ String c "")
                     (String.length (placeholder k) - 1) Hfit)
          as (seg' & Hseg).
        rewrite Hb in Hseg. rewrite Hseg.
        eexists. symmetry. apply str_app_assoc.
      * destruct (IH (before ++ String c "") 0 ltac:(lia)) as (seg' & Hseg).
        rewrite Hb in Hseg. rewrite Hseg.
        exists (String c seg'). reflexivity.
    + destruct (IH (before ++ String c "") sk ltac:(lia)) as (seg' & Hseg).
      rewrite Hb in Hseg. rewrite Hseg.
      exists seg'. reflexivity.
Qed.

Lemma scan_join (k n repl : string) :
  brace_free k = true -> brace_free n = true -> k <> n ->
  forall segs s0 before,
    exists s0' segs',
      replace_scan (placeholder k) repl before
                   (join_with (placeholder n) s0 segs) 0 =
        join_with (placeholder n) s0' segs' /\
      List.length segs' = List.length segs.
Proof.
  intros Hk Hn Hne.
  induction segs as [|s1 segs IH]; intros s0 before.
  - eexists. exists []. split; reflexivity.
  - cbn [join_with].
    destruct (scan_segment k n repl (join_with (placeholder n) s1 segs)
                Hk Hn Hne s0 before 0 ltac:(lia)) as (s0' & Hs0).
    destruct (IH s1 (before ++ s0 ++ placeholder n))
      as (s1' & segs' & Hrest & Hlen).
    exists s0', (s1' :: segs'). cbn [join_with List.length].
    rewrite Hs0, Hrest, Hlen. split; reflexivity.
Qed.

Lemma apply_entry_join (k n : string) (v : JsVal) (s0 : string)
  (segs : list string) :
  brace_free k = true -> brace_free n = true -> k <> n ->
  exists s0' segs',
    apply_entry (join_with (placeholder n) s0 segs) (k, v) =
      join_with (placeholder n) s0' segs' /\
    List.length segs' = List.length segs.
Proof.
  intros Hk Hn Hne. unfold apply_entry.
  destruct (String.eqb k ""); [exists s0, segs; split; reflexivity|].
  unfold replace_placeholder. now apply scan_join.
Qed.

(** C7, as the code has it.  Rendering returns the template unchanged
    when the recipient is [null], when the attribute map is empty, and
    whenever no key of the map has its placeholder occurring in the
    template.  When the keys of the map contain no brace character, every
    occurrence of a placeholder [{n}] whose name (without braces) is not
    a key is still there in the rendered output: a template cut at
    occurrences of [{n}] renders to a text cut at as many occurrences of
    [{n}]. *)
Theorem applyTemplate_keeps_unmatched (template : string) (o : Obj) :
  applyTemplate template None = template /\
  applyTemplate template (Some []) = template /\
  ((forall k, In k (keys o) -> k <> "" ->
              includes template (placeholder k) = false) ->
   applyTemplate template (Some o) = template) /\
  (forall n s0 segs,
     Forall (fun k => brace_free k = true) (keys o) ->
     brace_free n = true ->
     ~ In n (keys o) ->
     template = join_with (placeholder n) s0 segs ->
     exists s0' segs',
       applyTemplate template (Some o) =
         join_with (placeholder n) s0' segs' /\
       List.length segs' = List.length segs).
Proof.
  split; [|split; [|split]].
  - unfold applyTemplate.
    now destruct (String.eqb_spec template "") as [->|_].
  - unfold applyTemplate.
    now destruct (String.eqb_spec template "") as [->|_].
  - apply applyTemplate_no_match.
  - intros n s0 segs Hkeys Hn Hnot ->. unfold applyTemplate.
    destruct (String.eqb_spec (join_with (placeholder n) s0 segs) "")
      as [He|_].
    { rewrite <- He. exists s0, segs. split; reflexivity. }
    revert s0 segs.
    induction o as [|[k v] o IH]; intros s0 segs.
    + exists s0, segs. split; reflexivity.
    + cbn [keys map fst] in Hkeys, Hnot.
      apply Forall_cons_iff in Hkeys as [Hk Hkeys].
      assert (Hne : k <> n) by (intros ->; apply Hnot; now left).
      destruct (apply_entry_join k n v s0 segs Hk Hn Hne)
        as (s1 & segs1 & Hstep & Hlen1).
      cbn [fold_left]. rewrite Hstep.
      destruct (IH Hkeys (fun H => Hnot (or_intror H)) s1 segs1)
        as (s2 & segs2 & Hfold & Hlen2).
      exists s2, segs2. split; [exact Hfold|congruence].
Qed.

Lemma applyTemplate_keeps_unmatched_witness :
  brace_free "Name" = true /\
  ~ In "Name" (keys [("Code", VStr "X-1")]) /\
  exists s0 segs,
    applyTemplate "Hi {Name}, your {Code} for {Name}"
                  (Some [("Code", VStr "X-1")])
      = join_with "{Name}" s0 segs /\ List.length segs = 2.
Proof.
  assert (Hnot : ~ In "Name" (keys [("Code", VStr "X-1")]))
    by (intros [H|[]]; discriminate).
  split; [reflexivity|]. split; [exact Hnot|].
  destruct (applyTemplate_keeps_unmatched
              "Hi {Name}, your {Code} for {Name}" [("Code", VStr "X-1")])
    as (_ & _ & _ & Hkeep).
  apply (Hkeep "Name" "Hi " [", your {Code} for "; ""]).
  - repeat constructor.
  - reflexivity.
  - exact Hnot.
  - reflexivity.
Defined.

(** C7 as stated fails for a column name that contains a brace: with the
    column [A{B] the template [{A{B}] holds the placeholder [{B}], whose
    name is not a key, and the rendered text no longer holds it. *)
Lemma placeholder_lost_to_braced_key :
  ~ In "B" (keys [("A{B", VStr "x")]) /\
  includes "{A{B}" (placeholder "B") = true /\
  applyTemplate "{A{B}" (Some [("A{B", VStr "x")]) = "x" /\
  includes (applyTemplate "{A{B}" (Some [("A{B", VStr "x")]))
           (placeholder "B") = false.
Proof.
  split; [intros [H|[]]; discriminate|]. repeat split.
Qed.

(** ** Objects and the [Name] fallback *)

Lemma has_key_false_get (k : string) (o : Obj) :
  has_key k o = false <-> obj_get k o = None.
Proof.
  unfold has_key, keys.
  induction o as [|[k' v] o IH]; simpl; [tauto|].
  rewrite (String.eqb_sym k k').
  destruct (String.eqb k' k); simpl; [split; discriminate|exact IH].
Qed.

Lemma has_key_In (k : string) (o : Obj) :
  has_key k o = true <-> In k (keys o).
Proof.
  unfold has_key. rewrite existsb_exists. split.
  - intros (x & Hin & Heq). apply String.eqb_eq in Heq. now subst.
  - intros Hin. exists k. split; [exact Hin|apply String.eqb_refl].
Qed.

Lemma replace_value_app (k : string) (v : JsVal) (a b : Obj) :
  replace_value k v (a ++ b)%list =
    if has_key k a then (replace_value k v a ++ b)%list
    else (a ++ replace_value k v b)%list.
Proof.
  induction a as [|[k' v'] a IH]; [reflexivity|].
  unfold has_key, keys in *. cbn [app replace_value map fst existsb].
  rewrite (String.eqb_sym k k').
  destruct (String.eqb k' k); cbn [orb]; [reflexivity|].
  rewrite IH. now destruct (existsb (String.eqb k) (map fst a)).
Qed.

Lemma replace_value_keys (k : string) (v : JsVal) (o : Obj) :
  keys (replace_value k v o) = keys o.
Proof.
  unfold keys. induction o as [|[k' v'] o IH]; [reflexivity|].
  cbn [replace_value]. destruct (String.eqb k' k); cbn [map fst];
    [reflexivity|now rewrite IH].
Qed.

Lemma obj_get_replace_same (k : string) (v : JsVal) (o : Obj) :
  has_key k o = true -> obj_get k (replace_value k v o) = Some v.
Proof.
  unfold has_key, keys.
  induction o as [|[k' v'] o IH]; simpl; [discriminate|].
  rewrite (String.eqb_sym k k').
  destruct (String.eqb k' k) eqn:E; simpl; [now rewrite E|].
  rewrite E. exact IH.
Qed.

Lemma obj_get_replace_other (k k' : string) (v : JsVal) (o : Obj) :
  k' <> k -> obj_get k' (replace_value k v o) = obj_get k' o.
Proof.
  intros Hne. induction o as [|[k0 v0] o IH]; [reflexivity|].
  cbn [replace_value]. destruct (String.eqb_spec k0 k) as [->|_].
  - cbn [obj_get]. apply not_eq_sym in Hne. apply String.eqb_neq in Hne.
    now rewrite Hne.
  - cbn [obj_get]. now rewrite IH.
Qed.

Lemma obj_get_insert_same (n : N) (k : string) (v : JsVal) (o : Obj) :
  has_key k o = false -> obj_get k (insert_index n k v o) = Some v.
Proof.
  unfold has_key, keys.
  induction o as [|[k' v'] o IH]; intros H; simpl in *.
  - now rewrite String.eqb_refl.
  - apply orb_false_iff in H as [Hk H]. rewrite String.eqb_sym in Hk.
    destruct (array_index k') as [m|]; [destruct (m <? n)%N|];
      simpl; rewrite ?String.eqb_refl; try reflexivity.
    rewrite Hk. now apply IH.
Qed.

Lemma obj_get_insert_other (n : N) (k k' : string) (v : JsVal) (o : Obj) :
  k' <> k -> obj_get k' (insert_index n k v o) = obj_get k' o.
Proof.
  intros Hne. apply not_eq_sym in Hne. apply String.eqb_neq in Hne.
  induction o as [|[k0 v0] o IH]; simpl; [now rewrite Hne|].
  destruct (array_index k0) as [m|]; [destruct (m <? n)%N|];
    simpl; rewrite ?Hne; try reflexivity.
  now rewrite IH.
Qed.

Lemma obj_get_app (k : string) (a b : Obj) :
  obj_get k (a ++ b)%list =
    match obj_get k a with Some v => Some v | None => obj_get k b end.
Proof.
  induction a as [|[k' v'] a IH]; [reflexivity|].
  simpl. now destruct (String.eqb k' k).
Qed.

Lemma obj_get_set_same (k : string) (v : JsVal) (o : Obj) :
  obj_get k (obj_set k v o) = Some v.
Proof.
  unfold obj_set. destruct (has_key k o) eqn:Hk.
  - now apply obj_get_replace_same.
  - destruct (array_index k) as [n|].
    + now apply obj_get_insert_same.
    + rewrite obj_get_app. apply has_key_false_get in Hk. rewrite Hk.
      simpl. now rewrite String.eqb_refl.
Qed.

Lemma obj_get_set_other (k k' : string) (v : JsVal) (o : Obj) :
  k' <> k -> obj_get k' (obj_set k v o) = obj_get k' o.
Proof.
  intros Hne. unfold obj_set. destruct (has_key k o).
  - now apply obj_get_replace_other.
  - destruct (array_index k) as [n|].
    + now apply obj_get_insert_other.
    + rewrite obj_get_app. simpl.
      apply not_eq_sym in Hne. apply String.eqb_neq in Hne. rewrite Hne.
      now destruct (obj_get k' o).
Qed.

(** The value a key has after a spread: the source's value when the source
    has the key, the base's otherwise. *)
Lemma obj_get_spread (k : string) (o : Obj) :
  NoDup (keys o) ->
  forall base,
    obj_get k (spread base (Some o)) =
      match obj_get k o with
      | Some v => Some v
      | None => obj_get k base
      end.
Proof.
  unfold spread.
  induction o as [|[k0 v0] o IH]; intros Hnd base; [reflexivity|].
  cbn [keys map fst] in Hnd. apply NoDup_cons_iff in Hnd as [Hnot Hnd].
  cbn [fold_left fst snd]. rewrite (IH Hnd). cbn [obj_get].
  destruct (String.eqb_spec k0 k) as [->|Hne].
  - assert (Hnone : obj_get k o = None)
      by (apply has_key_false_get; destruct (has_key k o) eqn:E;
          [apply has_key_In in E; contradiction|reflexivity]).
    rewrite Hnone. apply obj_get_set_same.
  - destruct (obj_get k o); [reflexivity|].
    apply obj_get_set_other. now apply not_eq_sym.
Qed.

Lemma Forall_replace_value (Q : string -> Prop) (k : string) (x : JsVal)
  (o : Obj) :
  Forall (fun kv => Q (fst kv)) o ->
  Forall (fun kv => Q (fst kv)) (replace_value k x o).
Proof.
  induction 1 as [|[k' v'] o Hq Ho IH]; [constructor|].
  cbn [replace_value]. destruct (String.eqb k' k); constructor;
    cbn [fst] in *; assumption.
Qed.

Lemma insert_index_shape (n : N) (k : string) (x v : JsVal) (post : Obj) :
  forall pre,
    Forall (fun kv => array_index (fst kv) <> None) pre ->
    exists pre1 pre2,
      pre = (pre1 ++ pre2)%list /\
      insert_index n k x (pre ++ ("Name", v) :: post)%list =
        ((pre1 ++ (k, x) :: pre2) ++ ("Name", v) :: post)%list.
Proof.
  induction pre as [|[k' v'] pre IH]; intros Hpre.
  - exists [], []. split; reflexivity.
  - apply Forall_cons_iff in Hpre as [Hk' Hpre]. cbn [fst] in Hk'.
    cbn [app insert_index].
    destruct (array_index k') as [m|]; [|contradiction].
    destruct (m <? n)%N.
    + destruct (IH Hpre) as (pre1 & pre2 & -> & Hins).
      exists ((k', v') :: pre1), pre2. split; [reflexivity|].
      rewrite Hins. reflexivity.
    + exists [], ((k', v') :: pre). split; reflexivity.
Qed.

Lemma obj_set_shape (ks : list string) (k : string) (x : JsVal)
  (acc : Obj) :
  In k ks -> name_shape ks acc -> name_shape ks (obj_set k x acc).
Proof.
  intros Hin (pre & v & post & -> & Hpre). unfold obj_set.
  destruct (has_key k (pre ++ ("Name", v) :: post)%list).
  - rewrite replace_value_app. destruct (has_key k pre).
    + exists (replace_value k x pre), v, post. split; [reflexivity|].
      now apply (Forall_replace_value
                   (fun k0 => array_index k0 <> None /\ In k0 ks)).
    + cbn [replace_value]. destruct (String.eqb "Name" k).
      * exists pre, x, post. split; [reflexivity|exact Hpre].
      * exists pre, v, (replace_value k x post).
        split; [reflexivity|exact Hpre].
  - destruct (array_index k) as [n|] eqn:Hidx.
    + destruct (insert_index_shape n k x v post pre) as (p1 & p2 & -> & ->).
      { eapply Forall_impl; [|exact Hpre]. intros kv [H _]. exact H. }
      exists (p1 ++ (k, x) :: p2)%list, v, post. split; [reflexivity|].
      apply Forall_app in Hpre as [H1 H2]. apply Forall_app. split; [exact H1|].
      constructor; [|exact H2]. cbn [fst]. split; [congruence|exact Hin].
    + exists pre, v, (post ++ [(k, x)])%list.
      split; [|exact Hpre]. rewrite <- app_assoc. reflexivity.
Qed.

Lemma make_vars_shape (name : string) (o : Obj) :
  name_shape (keys o) (make_vars name (Some o)).
Proof.
  unfold make_vars, spread.
  assert (H : forall o' acc,
             (forall k, In k (keys o') -> In k (keys o)) ->
             name_shape (keys o) acc ->
             name_shape (keys o)
               (fold_left (fun acc kv => obj_set (fst kv) (snd kv) acc)
                          o' acc)).
  { induction o' as [|[k v] o' IH]; intros acc Hsub Hacc; [exact Hacc|].
    cbn [fold_left fst snd]. apply IH.
    - intros k' Hin. apply Hsub. now right.
    - apply obj_set_shape; [apply Hsub; now left|exact Hacc]. }
  apply H; [auto|].
  exists [], (VStr name), []. split; [reflexivity|constructor].
Qed.

Lemma obj_get_name_shape (ks : list string) (pre post : Obj) (v : JsVal) :
  Forall (fun kv => array_index (fst kv) <> None /\ In (fst kv) ks) pre ->
  obj_get "Name" (pre ++ ("Name", v) :: post)%list = Some v.
Proof.
  induction 1 as [|[k' v'] pre [Hidx _] _ IH]; [reflexivity|].
  cbn [app obj_get]. destruct (String.eqb_spec k' "Name") as [->|_].
  - exfalso. apply Hidx. reflexivity.
  - exact IH.
Qed.

Lemma getField_found (o : Obj) (fieldName defaultValue k : string)
  (v : JsVal) :
  find (fun k0 => String.eqb (toLowerCase k0) (toLowerCase fieldName))
       (keys o) = Some k ->
  k <> "" -> obj_get k o = Some v ->
  getField (Some o) fieldName defaultValue =
    if is_nullish v then defaultValue else toStr v.
Proof.
  intros Hfind Hne Hget. unfold getField. rewrite Hfind.
  apply String.eqb_neq in Hne. now rewrite Hne, Hget.
Qed.

(** C8, as the code has it.  The variables handed to the template engine
    are some array-index columns of the recipient, then [Name], then the
    other columns, so the text put in place of [{Name}] comes from the
    value [v] bound to [Name]: the recipient's own value when the recipient
    has the column [Name] (an explicit empty string stays empty), and
    otherwise the name [getField] finds, which is "Candidate" when no
    column equals "Name" up to letter case or when the first such column
    holds [null] or [undefined], and that column's text otherwise. *)
Theorem name_fallback_rule (o : Obj) (template : string) :
  NoDup (keys o) ->
  template <> "" ->
  let name := getField (Some o) "Name" "Candidate" in
  exists pre v post,
    make_vars name (Some o) = (pre ++ ("Name", v) :: post)%list /\
    Forall (fun kv => array_index (fst kv) <> None /\ In (fst kv) (keys o))
           pre /\
    applyTemplate template (Some (make_vars name (Some o))) =
      fold_left apply_entry post
        (replace_placeholder "Name" (replacement_of v)
           (fold_left apply_entry pre template)) /\
    (forall v0, obj_get "Name" o = Some v0 -> v = v0) /\
    (obj_get "Name" o = Some (VStr "") -> replacement_of v = "") /\
    (obj_get "Name" o = None -> v = VStr name) /\
    (find is_name_key (keys o) = None -> name = "Candidate") /\
    (forall k v0,
       find is_name_key (keys o) = Some k -> obj_get k o = Some v0 ->
       name = if is_nullish v0 then "Candidate" else toStr v0).
Proof.
  intros Hnd Ht name.
  destruct (make_vars_shape name o) as (pre & v & post & Hvars & Hpre).
  exists pre, v, post.
  assert (Hget : obj_get "Name" (make_vars name (Some o)) = Some v)
    by (rewrite Hvars; eapply obj_get_name_shape; exact Hpre).
  unfold make_vars in Hget. rewrite (obj_get_spread "Name" o Hnd) in Hget.
  split; [exact Hvars|]. split; [exact Hpre|]. split.
  { rewrite Hvars. unfold applyTemplate.
    apply String.eqb_neq in Ht. rewrite Ht.
    rewrite fold_left_app. reflexivity. }
  split.
  { intros v0 H0. rewrite H0 in Hget. congruence. }
  split.
  { intros H0. rewrite H0 in Hget. injection Hget as <-. reflexivity. }
  split.
  { intros H0. rewrite H0 in Hget. cbn [obj_get] in Hget.
    change (String.eqb "Name" "Name") with true in Hget. cbv iota in Hget.
    congruence. }
  split.
  { intros Hnone. unfold name, getField.
    unfold is_name_key in Hnone. now rewrite Hnone. }
  intros k v0 Hfind Hk. unfold name.
  apply (getField_found o "Name" "Candidate" k v0 Hfind); [|exact Hk].
  intros ->. apply find_some in Hfind as [_ Habs]. discriminate.
Qed.

Lemma name_fallback_rule_witness :
  NoDup (keys rcp_empty_name) /\
  exists pre v post,
    make_vars (getField (Some rcp_empty_name) "Name" "Candidate")
              (Some rcp_empty_name)
      = (pre ++ ("Name", v) :: post)%list /\
    replacement_of v = "".
Proof.
  assert (Hnd : NoDup (keys rcp_empty_name)).
  { repeat constructor; simpl; intuition discriminate. }
  split; [exact Hnd|].
  destruct (name_fallback_rule rcp_empty_name "Hi {Name}" Hnd
              ltac:(discriminate))
    as (pre & v & post & Hvars & _ & _ & _ & Hempty & _).
  exists pre, v, post. split; [exact Hvars|]. apply Hempty. reflexivity.
Defined.

(** C8 as stated fails: the recipient [rcp_null_name] has the column
    [name], equal to "Name" up to letter case, and still the message sent
    to it has "Candidate" in place of [{Name}]. *)
Lemma candidate_despite_name_column :
  existsb is_name_key (keys rcp_null_name) = true /\
  trace (snd (sendToRecipientWithRetry unit (send_failing "" err_rejected)
                sender (Some rcp_null_name) "Hi {Name}" "<p>Dear {Name}</p>"
                world0))
  = [EvSendMail (mkMailOptions sender "a@x.com" "Hi Candidate"
                               "<p>Dear Candidate</p>")].
Proof.
  split; vm_compute; reflexivity.
Qed.

(* ================================================================== *)
(** * Further properties of the server and of the sending page *)

(** ** Requests, batches and the ledger *)

Lemma settle_row_other_batch (batchId i : nat) (rs : list SendResult)
  (row : RecipientRow) :
  r_batch_id row <> batchId -> settle_row batchId i rs row = row.
Proof.
  intros Hne. unfold settle_row.
  apply Nat.eqb_neq in Hne. now rewrite Hne.
Qed.

Lemma settle_old_rows (db : DB) (rs : list SendResult) :
  db_ok db ->
  map (settle_row (next_rowid (map b_id (batches db))) 0 rs)
      (batch_recipients db) = batch_recipients db.
Proof.
  intros Hok.
  assert (Hall : forall r, In r (batch_recipients db) ->
                           r_batch_id r <> next_rowid (map b_id (batches db))).
  { intros r Hin. apply next_rowid_fresh. now apply Hok. }
  induction (batch_recipients db) as [|r l IH]; [reflexivity|].
  cbn [map]. rewrite settle_row_other_batch by (apply Hall; now left).
  f_equal. apply IH. intros r' Hin. apply Hall. now right.
Qed.

Section MoreHandlerFacts.

Variable Env : Type.
Variable smtp_verify : Env -> option JsError * Env.
Variable smtp_sendMail : MailOptions -> Env -> option JsError * Env.
Variable SMTP_USER : option string.

Local Abbreviation handler :=
  (send_emails Env smtp_verify smtp_sendMail SMTP_USER).
Local Abbreviation verifyRetry := (verifySmtpWithRetry Env smtp_verify).
Local Abbreviation sendToRecipient :=
  (sendToRecipientWithRetry Env smtp_sendMail SMTP_USER).
Local Abbreviation loop := (send_loop Env smtp_sendMail SMTP_USER).

Lemma invalid_cases (req : SendRequest) :
  (forall recs, ~ valid_request req recs) ->
  req_recipients req = None \/ req_recipients req = Some [] \/
  req_subject req = "" \/ req_htmlBody req = "".
Proof.
  intros Hinv.
  destruct (req_recipients req) as [[|rec0 recs0]|] eqn:Hrecs; auto.
  destruct (String.eqb_spec (req_subject req) "") as [Hs|Hs]; auto.
  destruct (String.eqb_spec (req_htmlBody req) "") as [Hh|Hh]; auto.
  exfalso. apply (Hinv (rec0 :: recs0)).
  repeat split; [exact Hrecs|discriminate|exact Hs|exact Hh].
Qed.

(** X1. A request is answered 400 exactly when it fails validation
    (recipients not a non-empty array, or subject or body empty), and then
    nothing was done: the ledger and the transport are as before.  A
    request that passes validation is answered 200 or 500. *)
Theorem invalid_request_has_no_effect (req : SendRequest) (db : DB)
  (w : World Env) :
  ((forall recs, ~ valid_request req recs) ->
   exists msg,
     handler req db w =
       (Some (mkResponse 400 (ErrorBody msg None VUndefined)), db, w)) /\
  (forall recs, valid_request req recs ->
   exists r, fst (fst (handler req db w)) = Some r /\
             (http_status r = 200 \/ http_status r = 500)).
Proof.
  split.
  - intros Hinv. unfold send_emails.
    destruct (invalid_cases req Hinv) as [H|[H|[H|H]]].
    + rewrite H. eexists. reflexivity.
    + rewrite H. eexists. reflexivity.
    + destruct (req_recipients req) as [[|rec0 recs0]|];
        try (eexists; reflexivity).
      rewrite H. eexists. reflexivity.
    + destruct (req_recipients req) as [[|rec0 recs0]|];
        try (eexists; reflexivity).
      rewrite H, orb_true_r. eexists. reflexivity.
  - intros recs Hvalid.
    destruct (send_emails_valid Env smtp_verify smtp_sendMail SMTP_USER
                req recs db w Hvalid)
      as (rows & _ & [(err & w1 & _ & ->)|(w1 & rs & ko & w' & _ & -> & _)]);
      eexists; (split; [reflexivity|]); cbn [http_status]; auto.
Qed.

(** X2. A request never changes what the ledger already holds: the rows
    of earlier batches and their recipient rows are still there,
    unchanged and in place; a request adds at most one batch row, with a
    fresh id, and recipient rows of that batch only. *)
Theorem earlier_batches_untouched (req : SendRequest) (db : DB)
  (w : World Env) :
  db_ok db ->
  exists bs rs,
    batches (snd (fst (handler req db w))) = (batches db ++ bs)%list /\
    batch_recipients (snd (fst (handler req db w))) =
      (batch_recipients db ++ rs)%list /\
    List.length bs <= 1 /\
    Forall (fun b => b_id b = next_rowid (map b_id (batches db)) /\
                     ~ In (b_id b) (map b_id (batches db))) bs /\
    Forall (fun r => r_batch_id r = next_rowid (map b_id (batches db))) rs.
Proof.
  intros Hok.
  assert (Hfresh : ~ In (next_rowid (map b_id (batches db)))
                        (map b_id (batches db))).
  { intros Hin. now apply (next_rowid_fresh _ _ Hin). }
  destruct (req_recipients req) as [[|rec0 recs0]|] eqn:Hrecs.
  1, 3: exists [], []; unfold send_emails; rewrite Hrecs; cbn [fst snd];
        rewrite !app_nil_r; repeat split; auto.
  destruct (String.eqb_spec (req_subject req) "") as [Hs|Hs].
  { exists [], []. unfold send_emails. rewrite Hrecs, Hs. cbn [fst snd orb].
    rewrite !app_nil_r. repeat split; auto. }
  destruct (String.eqb_spec (req_htmlBody req) "") as [Hh|Hh].
  { exists [], []. unfold send_emails. rewrite Hrecs, Hh, orb_true_r.
    cbn [fst snd]. rewrite !app_nil_r. repeat split; auto. }
  assert (Hvalid : valid_request req (rec0 :: recs0))
    by (repeat split; [exact Hrecs|discriminate|exact Hs|exact Hh]).
  destruct (send_emails_valid Env smtp_verify smtp_sendMail SMTP_USER
              req (rec0 :: recs0) db w Hvalid)
    as (rows & Hpend & [(err & w1 & _ & ->)
                       |(w1 & rs & ko & w' & _ & -> & _)]);
    cbn [fst snd batches batch_recipients].
  - eexists [_], rows. split; [reflexivity|]. split; [reflexivity|].
    split; [simpl; lia|]. split.
    + constructor; [|constructor]. split; [reflexivity|exact Hfresh].
    + eapply pending_from_batch; exact Hpend.
  - eexists [_], (map (settle_row _ 0 rs) rows).
    split; [reflexivity|]. split.
    { rewrite map_app, (settle_old_rows db rs Hok). reflexivity. }
    split; [simpl; lia|]. split.
    + constructor; [|constructor]. split; [reflexivity|exact Hfresh].
    + apply Forall_forall. intros r Hin.
      apply in_map_iff in Hin as (r0 & <- & Hin0).
      destruct (settle_row_keeps (next_rowid (map b_id (batches db))) 0 rs r0)
        as [-> _].
      pose proof (pending_from_batch _ _ _ _ Hpend) as Hb.
      rewrite Forall_forall in Hb. now apply Hb.
Qed.

(** X3. The ledger stores each result as it was returned: for every
    submitted recipient the batch has exactly one row at its index, holding
    the address, name and attributes as submitted; when the loop reached
    the index the row has the status, attempt count and error text of the
    result of that index, whose email is the recipient's address;
    otherwise the row is still pending. *)
Theorem results_are_persisted (req : SendRequest)
  (recs : list (option Obj)) (db : DB) (w w1 : World Env) :
  valid_request req recs ->
  verifyRetry w = (None, w1) ->
  db_ok db ->
  exists s f p ko rs bid db' w',
    handler req db w =
      (Some (mkResponse 200 (SendBody s f (List.length recs) p ko rs bid)),
       db', w') /\
    forall j rec,
      nth_error recs j = Some rec ->
      exists row,
        rows_at bid j db' = [row] /\
        r_batch_id row = bid /\ r_idx row = j /\
        r_email row = getField rec "Email" "" /\
        r_name row = getField rec "Name" "" /\
        r_data_json row = match rec with Some o => o | None => [] end /\
        match nth_error rs j with
        | Some r =>
            r_status row = res_status r /\
            r_attempt row = res_attempt r /\
            r_error row = res_error r /\
            res_email r = getField rec "Email" ""
        | None =>
            r_status row = pending /\ r_attempt row = 0 /\ r_error row = None
        end.
Proof.
  intros Hvalid Hver Hok.
  destruct (send_emails_runs Env smtp_verify smtp_sendMail SMTP_USER
              req recs db w w1 Hvalid Hver)
    as (rows & rs & ko & w' & Hpend & Hrun & Hlen & Hall & _).
  do 6 eexists. eexists. eexists. split; [exact Hrun|].
  intros j rec Hrec.
  assert (Hj : j < List.length recs)
    by (apply nth_error_Some; congruence).
  destruct (rows_at_run db rs recs rows j Hok Hpend Hj)
    as (rec' & row & Hrec' & Hrow & Hat).
  rewrite Hrec in Hrec'. injection Hrec' as <-.
  destruct Hrow as (Hb & Hi & Hemail & Hname & Hdata & Hst & Hatt & Herr).
  exists (settled rs j row). split; [apply Hat|].
  unfold settled.
  destruct (nth_error rs j) as [r|] eqn:Hr.
  - cbn [apply_result r_batch_id r_idx r_email r_name r_data_json r_status
         r_attempt r_error].
    do 5 (split; [assumption|]).
    destruct (outcome_at recs rs j rec r Hall Hrec Hr)
      as (_ & Hmiss & Hhas & Hcase).
    split.
    { destruct Hcase as [(Hs & _)|(Hs & _)]; rewrite Hs; reflexivity. }
    split; [reflexivity|]. split; [reflexivity|].
    destruct (String.eqb_spec (getField rec "Email" "") "") as [He|He].
    + rewrite (Hmiss He), He. reflexivity.
    + now apply Hhas.
  - repeat split; assumption.
Qed.

End MoreHandlerFacts.

(** ** What a run does to the transport *)

Lemma attempt_events_more (opts : MailOptions) (n : nat) :
  1 <= n ->
  attempt_events opts (S n) =
    EvSendMail opts :: EvSleep RETRY_DELAY_MS :: attempt_events opts n.
Proof. destruct n; [lia|reflexivity]. Qed.

Lemma verify_events_more (n : nat) :
  1 <= n ->
  verify_events (S n) = EvVerify :: EvSleep RETRY_DELAY_MS :: verify_events n.
Proof. destruct n; [lia|reflexivity]. Qed.

Lemma or_str_nonempty (a b : string) : b <> "" -> or_str a b <> "".
Proof.
  intros Hb. unfold or_str.
  destruct (String.eqb_spec a "") as [_|Ha]; assumption.
Qed.

Lemma classify_other_iff (err : JsError) :
  classify (Some err) = OTHER <->
  isTemporaryAuthError (Some err) || isNetworkError (Some err) = false.
Proof.
  unfold classify, reason_of.
  destruct (isTemporaryAuthError (Some err)), (isNetworkError (Some err));
    simpl; split; congruence.
Qed.

Section TransportFacts.

Variable Env : Type.
Variable smtp_verify : Env -> option JsError * Env.
Variable smtp_sendMail : MailOptions -> Env -> option JsError * Env.
Variable SMTP_USER : option string.

Local Abbreviation handler :=
  (send_emails Env smtp_verify smtp_sendMail SMTP_USER).
Local Abbreviation verifyRetry := (verifySmtpWithRetry Env smtp_verify).
Local Abbreviation sendToRecipient :=
  (sendToRecipientWithRetry Env smtp_sendMail SMTP_USER).
Local Abbreviation loop := (send_loop Env smtp_sendMail SMTP_USER).

Lemma send_attempts_trace (fuel : nat) :
  forall attempt email opts (w w' : World Env) r,
    attempt <= MAX_RETRIES -> attempt + fuel = S MAX_RETRIES ->
    send_attempts Env smtp_sendMail fuel attempt email opts w = (Some r, w') ->
    attempt <= res_attempt r /\
    trace w' =
      (trace w ++ attempt_events opts (S (res_attempt r) - attempt))%list.
Proof.
  induction fuel as [|fuel IH]; intros attempt email opts w w' r Hle Hsum Hrun.
  - discriminate.
  - rewrite send_attempts_step in Hrun by exact Hle.
    pose proof (sendMail_trace Env smtp_sendMail opts w) as Htr.
    destruct (sendMail Env smtp_sendMail opts w) as [[err|] w1];
      cbn [snd] in Htr.
    + destruct ((isTemporaryAuthError (Some err) || isNetworkError (Some err))
                && (attempt <? MAX_RETRIES)) eqn:Eretry.
      * apply andb_true_iff in Eretry as [_ Hlt]. apply Nat.ltb_lt in Hlt.
        destruct (IH (S attempt) email opts _ w' r ltac:(lia) ltac:(lia) Hrun)
          as [Hge Hevs].
        split; [lia|]. rewrite Hevs. unfold sleep, log. cbn [trace].
        rewrite Htr, <- !app_assoc. f_equal.
        replace (S (res_attempt r) - attempt)
          with (S (S (res_attempt r) - S attempt)) by lia.
        rewrite attempt_events_more by lia. reflexivity.
      * injection Hrun as <- <-. cbn [res_attempt]. split; [lia|].
        replace (S attempt - attempt) with 1 by lia. exact Htr.
    + injection Hrun as <- <-. cbn [res_attempt]. split; [lia|].
      replace (S attempt - attempt) with 1 by lia. exact Htr.
Qed.

Lemma sendToRecipient_trace (rec : option Obj) (subject html : string)
  (w w' : World Env) (r : SendResult) :
  sendToRecipient rec subject html w = (Some r, w') ->
  trace w' =
    (trace w ++ attempt_events (mail_for SMTP_USER subject html rec)
                               (res_attempt r))%list.
Proof.
  unfold sendToRecipientWithRetry. intros Hrun.
  destruct (String.eqb (getField rec "Email" "") "").
  - injection Hrun as <- <-. cbn [res_attempt attempt_events].
    now rewrite app_nil_r.
  - apply send_attempts_trace in Hrun as [_ Hevs];
      [|unfold MAX_RETRIES; lia|reflexivity].
    rewrite Hevs. unfold mail_for. do 2 f_equal. lia.
Qed.

(** X4. For one recipient the sequencer makes as many [sendMail] calls as
    the attempt count it returns, at most 3, every call with the same
    message, a pause of 15000 ms between two consecutive calls and none
    after the last; the message goes to the recipient's address, and its
    subject and body are never empty. *)
Theorem retries_resend_same_message (rec : option Obj)
  (subject html : string) (w : World Env) :
  exists r w',
    sendToRecipient rec subject html w = (Some r, w') /\
    res_attempt r <= 3 /\
    trace w' =
      (trace w ++ attempt_events (mail_for SMTP_USER subject html rec)
                                 (res_attempt r))%list /\
    mo_to (mail_for SMTP_USER subject html rec) = getField rec "Email" "" /\
    mo_from (mail_for SMTP_USER subject html rec) = SMTP_USER /\
    mo_subject (mail_for SMTP_USER subject html rec) <> "" /\
    mo_html (mail_for SMTP_USER subject html rec) <> "".
Proof.
  destruct (sendToRecipient_result Env smtp_sendMail SMTP_USER rec subject
              html w) as (r & w' & Hrun & (Hmax & _) & _).
  exists r, w'. split; [exact Hrun|]. split; [exact Hmax|].
  split; [now apply sendToRecipient_trace|].
  unfold mail_for, make_mailOptions.
  cbn [mo_to mo_from mo_subject mo_html].
  split; [reflexivity|]. split; [reflexivity|].
  split; apply or_str_nonempty; discriminate.
Qed.

(** X5. Connectivity verification calls [verify] between one and three
    times, with a pause of 15000 ms between two consecutive calls, and
    does nothing else to the transport. *)
Theorem verify_makes_up_to_three_checks (w : World Env) :
  exists n,
    1 <= n <= 3 /\
    trace (snd (verifyRetry w)) = (trace w ++ verify_events n)%list.
Proof.
  unfold verifySmtpWithRetry.
  assert (H : forall fuel attempt (w0 : World Env),
             1 <= fuel -> attempt + fuel = S MAX_RETRIES ->
             exists n,
               1 <= n <= fuel /\
               trace (snd (verify_from Env smtp_verify fuel attempt w0)) =
                 (trace w0 ++ verify_events n)%list).
  { induction fuel as [|fuel IH]; intros attempt w0 Hfuel Hsum; [lia|].
    cbn [verify_from].
    destruct (Nat.leb_spec attempt MAX_RETRIES) as [_|Hgt];
      [|unfold MAX_RETRIES in *; lia].
    unfold verify.
    destruct (smtp_verify (env w0)) as [[err|] e].
    - destruct ((isTemporaryAuthError (Some err) || isNetworkError (Some err))
                && (attempt <? MAX_RETRIES)) eqn:Eretry.
      + apply andb_true_iff in Eretry as [_ Hlt]. apply Nat.ltb_lt in Hlt.
        destruct (IH (S attempt)
                     (sleep Env RETRY_DELAY_MS
                        (mkWorld (trace w0 ++ [EvVerify]) e))
                     ltac:(unfold MAX_RETRIES in *; lia) ltac:(lia))
          as (n & Hn & Hevs).
        exists (S n). split; [lia|]. rewrite Hevs.
        unfold sleep, log. cbn [trace].
        rewrite verify_events_more by lia.
        rewrite <- !app_assoc. reflexivity.
      + exists 1. split; [lia|]. reflexivity.
    - exists 1. split; [lia|]. reflexivity. }
  destruct (H MAX_RETRIES 1 w ltac:(unfold MAX_RETRIES; lia) eq_refl)
    as (n & Hn & Hevs).
  exists n. unfold MAX_RETRIES in Hn. split; [exact Hn|exact Hevs].
Qed.

(** X6. Against a server that rejects every message with the same error,
    a recipient with an address is tried once when the error is of class
    OTHER and three times when it is of class TEMP_AUTH or NETWORK; the
    result is an error with the text and the class of that error. *)
Theorem persistent_failure_policy (err : JsError) (rec : option Obj)
  (subject html : string) (w : World Env) :
  (forall opts e, fst (smtp_sendMail opts e) = Some err) ->
  getField rec "Email" "" <> "" ->
  exists w',
    sendToRecipient rec subject html w =
      (Some (mkSendResult (getField rec "Email" "") error
                          (match classify (Some err) with
                           | OTHER => 1
                           | _ => 3
                           end)
                          (Some (error_text_of err))
                          (Some (classify (Some err)))),
       w').
Proof.
  intros Hfail Haddr.
  assert (H : forall fuel attempt email opts (w0 : World Env),
             attempt <= MAX_RETRIES -> attempt + fuel = S MAX_RETRIES ->
             exists w',
               send_attempts Env smtp_sendMail fuel attempt email opts w0 =
                 (Some (mkSendResult email error
                          (match classify (Some err) with
                           | OTHER => attempt
                           | _ => MAX_RETRIES
                           end)
                          (Some (error_text_of err))
                          (Some (classify (Some err)))), w')).
  { induction fuel as [|fuel IH]; intros attempt email opts w0 Hle Hsum;
      [unfold MAX_RETRIES in *; lia|].
    rewrite send_attempts_step by exact Hle.
    unfold sendMail. specialize (Hfail opts (env w0)).
    destruct (smtp_sendMail opts (env w0)) as [o e]. cbn [fst] in Hfail.
    subst o.
    destruct (isTemporaryAuthError (Some err) || isNetworkError (Some err))
      eqn:Eclass.
    - assert (Hnot : classify (Some err) <> OTHER).
      { intros Hc. apply classify_other_iff in Hc. congruence. }
      cbn [andb].
      destruct (Nat.ltb_spec attempt MAX_RETRIES) as [Hlt|Hge].
      + destruct (IH (S attempt) email opts
                     (sleep Env RETRY_DELAY_MS
                        (mkWorld (trace w0 ++ [EvSendMail opts]) e))
                     ltac:(lia) ltac:(lia)) as (w' & Hrun).
        exists w'. rewrite Hrun.
        destruct (classify (Some err)); [reflexivity|reflexivity|
                                         contradiction].
      + eexists. assert (attempt = MAX_RETRIES) by lia. subst attempt.
        destruct (classify (Some err)); [reflexivity|reflexivity|
                                         contradiction].
    - cbn [andb]. eexists.
      apply classify_other_iff in Eclass. rewrite Eclass. reflexivity. }
  unfold sendToRecipientWithRetry.
  apply String.eqb_neq in Haddr. rewrite Haddr.
  destruct (H MAX_RETRIES 1 (getField rec "Email" "")
              (make_mailOptions SMTP_USER (getField rec "Email" "")
                 (getField rec "Name" "Candidate") subject html rec) w
              ltac:(unfold MAX_RETRIES; lia) eq_refl) as (w' & Hrun).
  exists w'. rewrite Hrun. reflexivity.
Qed.

End TransportFacts.

Lemma In_combine_nth {A B : Type} (la : list A) :
  forall (lb : list B) (a : A) (b : B),
    In (a, b) (combine la lb) ->
    exists j, nth_error la j = Some a /\ nth_error lb j = Some b.
Proof.
  induction la as [|x la IH]; intros [|y lb] a b Hin; simpl in Hin;
    try contradiction.
  destruct Hin as [Heq|Hin].
  - injection Heq as -> ->. now exists 0.
  - destruct (IH lb a b Hin) as (j & Ha & Hb). now exists (S j).
Qed.

Lemma In_attempt_events (opts : MailOptions) (n : nat) (m : MailOptions) :
  In (EvSendMail m) (attempt_events opts n) -> m = opts /\ 1 <= n.
Proof.
  induction n as [|n IH]; [intros []|].
  destruct n as [|n'].
  - intros [H|[]]. injection H as <-. split; [reflexivity|lia].
  - cbn [attempt_events]. intros [H|[H|H]]; [|discriminate|].
    + injection H as <-. split; [reflexivity|lia].
    + destruct (IH H) as [-> _]. split; [reflexivity|lia].
Qed.

Section RunFacts.

Variable Env : Type.
Variable smtp_verify : Env -> option JsError * Env.
Variable smtp_sendMail : MailOptions -> Env -> option JsError * Env.
Variable SMTP_USER : option string.

Local Abbreviation handler :=
  (send_emails Env smtp_verify smtp_sendMail SMTP_USER).
Local Abbreviation verifyRetry := (verifySmtpWithRetry Env smtp_verify).
Local Abbreviation sendToRecipient :=
  (sendToRecipientWithRetry Env smtp_sendMail SMTP_USER).
Local Abbreviation loop := (send_loop Env smtp_sendMail SMTP_USER).

(** The response of a run that passed verification, read off the exit
    state of the send loop. *)
Lemma send_emails_loop (req : SendRequest) (recs : list (option Obj))
  (db : DB) (w w1 : World Env) :
  valid_request req recs ->
  verifyRetry w = (None, w1) ->
  exists db2 st',
    loop (next_rowid (map b_id (batches db))) (req_subject req)
         (req_htmlBody req) 0 recs (mkLoopState Env [] None 0 0 db2 w1)
      = Finished Env st' /\
    fst (fst (handler req db w)) =
      Some (mkResponse 200
              (SendBody (ls_sentCount st') (ls_failedCount st')
                        (List.length recs) (List.length (ls_results st'))
                        (ls_stoppedAt st') (ls_results st')
                        (next_rowid (map b_id (batches db))))) /\
    snd (handler req db w) = ls_world st'.
Proof.
  intros (Hrecs & Hne & Hsubj & Hhtml) Hver.
  unfold send_emails. rewrite Hrecs.
  destruct recs as [|rec0 recs0]; [contradiction|].
  apply String.eqb_neq in Hsubj. apply String.eqb_neq in Hhtml.
  rewrite Hsubj, Hhtml. cbn [orb].
  unfold insertBatch. cbv zeta. cbv iota beta. rewrite Hver.
  match goal with
  | |- context [send_loop _ _ _ ?b ?s ?h 0 ?rest ?st] =>
      destruct (send_loop_spec Env smtp_sendMail SMTP_USER b s h rest 0 st)
        as (st' & rs & Hloop & _);
      exists (ls_db st), st'
  end.
  cbn [ls_db]. rewrite Hloop. repeat split; reflexivity.
Qed.

Lemma send_loop_events (batchId : nat) (subject html : string)
  (rest : list (option Obj)) :
  forall (i : nat) (st st' : LoopState Env),
    loop batchId subject html i rest st = Finished Env st' ->
    exists new,
      ls_results st' = (ls_results st ++ new)%list /\
      trace (ls_world st') =
        (trace (ls_world st) ++
         flat_map (fun p => attempt_events
                              (mail_for SMTP_USER subject html (fst p))
                              (res_attempt (snd p)))
                  (combine rest new))%list.
Proof.
  induction rest as [|rec rest IH]; intros i st st' Hloop.
  - cbn [send_loop] in Hloop. injection Hloop as <-.
    exists []. cbn [combine flat_map]. rewrite !app_nil_r.
    split; reflexivity.
  - destruct (sendToRecipient_result Env smtp_sendMail SMTP_USER rec subject
                html (ls_world st)) as (r & w1 & Hrun & _).
    rewrite (send_loop_cons Env smtp_sendMail SMTP_USER batchId subject html
               i rec rest st r w1 Hrun) in Hloop.
    pose proof (sendToRecipient_trace Env smtp_sendMail SMTP_USER rec
                  subject html _ _ r Hrun) as Htr.
    cbv zeta in Hloop. destruct (stops r).
    + injection Hloop as <-. exists [r].
      cbn [ls_results ls_world].
      split; [reflexivity|]. rewrite Htr. f_equal.
      simpl. now rewrite combine_nil, app_nil_r.
    + apply IH in Hloop as (new & Hres & Hevs).
      cbn [ls_results ls_world] in Hres, Hevs.
      exists (r :: new). split; [rewrite Hres, <- app_assoc; reflexivity|].
      rewrite Hevs, Htr, <- app_assoc. reflexivity.
Qed.

(** X7. The [sendMail] calls of a run are those of the recipients the loop
    reached, in index order, each recipient's calls as its attempt count
    tells.  The recipients reached are those up to the stop index, or all
    of them when there is none, so every message sent is the message of a
    recipient that has an address and whose index is not past the stop
    index: no message goes to a recipient after the stop index nor to a
    recipient without an address. *)
Theorem mail_only_to_reached_recipients (req : SendRequest)
  (recs : list (option Obj)) (db : DB) (w w1 : World Env) :
  valid_request req recs ->
  verifyRetry w = (None, w1) ->
  exists s f p ko rs bid db' w' sent_events,
    handler req db w =
      (Some (mkResponse 200 (SendBody s f (List.length recs) p ko rs bid)),
       db', w') /\
    trace w' = (trace w1 ++ sent_events)%list /\
    sent_events =
      flat_map (fun x => attempt_events
                           (mail_for SMTP_USER (req_subject req)
                                     (req_htmlBody req) (fst x))
                           (res_attempt (snd x)))
               (combine recs rs) /\
    p = List.length rs /\
    (ko = None -> p = List.length recs) /\
    (forall k, ko = Some k -> p = S k) /\
    forall m, In (EvSendMail m) sent_events ->
      exists j rec r,
        nth_error recs j = Some rec /\ nth_error rs j = Some r /\
        (forall k, ko = Some k -> j <= k) /\
        m = mail_for SMTP_USER (req_subject req) (req_htmlBody req) rec /\
        mo_to m = getField rec "Email" "" /\
        getField rec "Email" "" <> "".
Proof.
  intros Hvalid Hver.
  destruct (send_emails_runs Env smtp_verify smtp_sendMail SMTP_USER
              req recs db w w1 Hvalid Hver)
    as (rows & rs & ko & w' & _ & Hrun & _ & Hall & _ & Hstop & _).
  assert (Hnone : ko = None -> List.length rs = List.length recs).
  { intros ->.
    destruct Hstop as [(_ & Hl & _)|(pre & r & _ & _ & _ & Habs)];
      [exact Hl|discriminate]. }
  assert (Hsome : forall k, ko = Some k -> List.length rs = S k).
  { intros k ->. now apply (stop_ok_some (List.length recs)). }
  destruct (send_emails_loop req recs db w w1 Hvalid Hver)
    as (db2 & st' & Hloop & Hresp & Hworld).
  rewrite Hrun in Hresp, Hworld. cbn [fst snd] in Hresp, Hworld.
  injection Hresp as _ _ _ _ Hrs. subst w'.
  apply send_loop_events in Hloop as (new & Hres & Hevs).
  cbn [ls_results ls_world app] in Hres, Hevs. rewrite <- Hrs in Hres.
  subst new.
  do 6 eexists. eexists. eexists. eexists.
  split; [exact Hrun|]. split; [exact Hevs|]. split; [reflexivity|].
  split; [reflexivity|]. split; [exact Hnone|]. split; [exact Hsome|].
  intros m Hin. apply in_flat_map in Hin as ([rec r] & Hpair & Hm).
  cbn [fst snd] in Hm.
  apply In_combine_nth in Hpair as (j & Hrec & Hr).
  apply In_attempt_events in Hm as [-> Hatt].
  exists j, rec, r. split; [exact Hrec|]. split; [exact Hr|].
  split.
  { intros k Hk. specialize (Hsome k Hk).
    assert (j < List.length rs) by (apply nth_error_Some; congruence).
    lia. }
  split; [reflexivity|]. split; [reflexivity|].
  intros He.
  destruct (outcome_at recs rs j rec r Hall Hrec Hr) as (_ & Hmiss & _).
  rewrite (Hmiss He) in Hatt. cbn in Hatt. lia.
Qed.

Lemma count_all_sent (l : list (option Obj)) :
  count_sent (map (fun rec => mkSendResult (getField rec "Email" "") sent 1
                                           None None) l) = List.length l /\
  count_error (map (fun rec => mkSendResult (getField rec "Email" "") sent 1
                                            None None) l) = 0.
Proof.
  unfold count_sent, count_error.
  induction l as [|rec l [IHs IHe]]; [split; reflexivity|].
  cbn [map filter res_status is_sent is_error List.length].
  split; [now rewrite IHs|exact IHe].
Qed.

Lemma send_loop_all_accepted (batchId : nat) (subject html : string)
  (rest : list (option Obj)) :
  (forall opts e, fst (smtp_sendMail opts e) = None) ->
  Forall (fun rec => getField rec "Email" "" <> "") rest ->
  forall (i : nat) (st st' : LoopState Env),
    loop batchId subject html i rest st = Finished Env st' ->
    ls_results st' =
      (ls_results st ++
       map (fun rec => mkSendResult (getField rec "Email" "") sent 1 None None)
           rest)%list /\
    ls_stoppedAt st' = ls_stoppedAt st.
Proof.
  intros Hacc Haddr.
  induction Haddr as [|rec rest Hrec _ IH]; intros i st st' Hloop.
  - cbn [send_loop] in Hloop. injection Hloop as <-.
    now rewrite app_nil_r.
  - assert (Hrun : exists w1,
               sendToRecipient rec subject html (ls_world st) =
                 (Some (mkSendResult (getField rec "Email" "") sent 1
                                     None None), w1)).
    { unfold sendToRecipientWithRetry.
      apply String.eqb_neq in Hrec. rewrite Hrec.
      change (send_attempts Env smtp_sendMail MAX_RETRIES)
        with (send_attempts Env smtp_sendMail (S 2)).
      rewrite send_attempts_step by (unfold MAX_RETRIES; lia).
      unfold sendMail.
      match goal with
      | |- context [smtp_sendMail ?o ?e] =>
          pose proof (Hacc o e) as Ho; destruct (smtp_sendMail o e) as [x e']
      end.
      cbn [fst] in Ho. subst x. eexists. reflexivity. }
    destruct Hrun as (w1 & Hrun).
    rewrite (send_loop_cons Env smtp_sendMail SMTP_USER batchId subject html
               i rec rest st _ w1 Hrun) in Hloop.
    cbv zeta in Hloop. cbn [stops res_status res_reason is_error andb]
      in Hloop.
    apply IH in Hloop as [Hres Hstop].
    cbn [ls_results ls_stoppedAt] in Hres, Hstop.
    split; [rewrite Hres, <- app_assoc; reflexivity|exact Hstop].
Qed.

(** X8. When the server accepts every message and every recipient has an
    address, the run delivers to all of them at the first attempt: the
    response reports sent = processed = total, failed = 0 and no stop
    index, the batch row is finalized as [completed], and every recipient
    row of the batch is [sent] with attempt 1 and no error. *)
Theorem all_accepted_completes (req : SendRequest)
  (recs : list (option Obj)) (db : DB) (w w1 : World Env) :
  valid_request req recs ->
  verifyRetry w = (None, w1) ->
  (forall opts e, fst (smtp_sendMail opts e) = None) ->
  Forall (fun rec => getField rec "Email" "" <> "") recs ->
  db_ok db ->
  exists bid db' w' b,
    handler req db w =
      (Some (mkResponse 200
               (SendBody (List.length recs) 0 (List.length recs)
                  (List.length recs) None
                  (map (fun rec => mkSendResult (getField rec "Email" "")
                                                sent 1 None None) recs)
                  bid)),
       db', w') /\
    find_batch bid db' = Some b /\
    b_status b = completed /\ b_stopped_at b = None /\
    b_sent b = Some (List.length recs) /\ b_failed b = Some 0 /\
    b_processed b = Some (List.length recs) /\
    forall j, j < List.length recs ->
      exists row, rows_at bid j db' = [row] /\
                  r_status row = sent /\ r_attempt row = 1 /\
                  r_error row = None.
Proof.
  intros Hvalid Hver Hacc Haddr Hok.
  destruct (send_emails_runs Env smtp_verify smtp_sendMail SMTP_USER
              req recs db w w1 Hvalid Hver)
    as (rows & rs & ko & w' & Hpend & Hrun & _).
  destruct (send_emails_loop req recs db w w1 Hvalid Hver)
    as (db2 & st' & Hloop & Hresp & _).
  rewrite Hrun in Hresp. cbn [fst] in Hresp.
  injection Hresp as _ _ _ Hko Hrs.
  apply (send_loop_all_accepted _ _ _ _ Hacc Haddr) in Hloop
    as [Hres Hstop].
  cbn [ls_results ls_stoppedAt app] in Hres, Hstop.
  rewrite <- Hrs in Hres. rewrite <- Hko in Hstop. subst rs ko.
  destruct (count_all_sent recs) as [Hcs Hce].
  rewrite Hcs, Hce, length_map in Hrun.
  do 4 eexists. split; [exact Hrun|].
  split; [apply find_batch_fresh; reflexivity|].
  cbn [final_batch_row b_status b_stopped_at b_sent b_failed b_processed].
  split.
  { unfold finalStatus. now rewrite Nat.eqb_refl. }
  do 4 (split; [reflexivity|]).
  intros j Hj.
  destruct (rows_at_run db
              (map (fun rec => mkSendResult (getField rec "Email" "") sent 1
                                            None None) recs)
              recs rows j Hok Hpend Hj)
    as (rec & row & Hrec & _ & Hat).
  eexists. split; [apply Hat|].
  unfold settled. rewrite nth_error_map, Hrec. cbn. repeat split.
Qed.

(** A recipient with an address is delivered at the first attempt by a
    server that accepts every message. *)
Lemma accepted_at_first_attempt (rec : option Obj) (subject html : string)
  (w0 : World Env) :
  (forall opts e, fst (smtp_sendMail opts e) = None) ->
  getField rec "Email" "" <> "" ->
  exists w1,
    sendToRecipient rec subject html w0 =
      (Some (mkSendResult (getField rec "Email" "") sent 1 None None), w1).
Proof.
  intros Hacc Hrec. unfold sendToRecipientWithRetry.
  apply String.eqb_neq in Hrec. rewrite Hrec.
  change (send_attempts Env smtp_sendMail MAX_RETRIES)
    with (send_attempts Env smtp_sendMail (S 2)).
  rewrite send_attempts_step by (unfold MAX_RETRIES; lia).
  unfold sendMail.
  match goal with
  | |- context [smtp_sendMail ?o ?e] =>
      pose proof (Hacc o e) as Ho; destruct (smtp_sendMail o e) as [x e']
  end.
  cbn [fst] in Ho. subst x. eexists. reflexivity.
Qed.

(** Against a server that accepts every message the loop never sets the
    stop index, whether the recipients have an address or not. *)
Lemma send_loop_never_stops (batchId : nat) (subject html : string)
  (rest : list (option Obj)) :
  (forall opts e, fst (smtp_sendMail opts e) = None) ->
  forall (i : nat) (st st' : LoopState Env),
    loop batchId subject html i rest st = Finished Env st' ->
    ls_stoppedAt st' = ls_stoppedAt st.
Proof.
  intros Hacc.
  induction rest as [|rec rest IH]; intros i st st' Hloop.
  - cbn [send_loop] in Hloop. now injection Hloop as <-.
  - destruct (String.eqb_spec (getField rec "Email" "") "") as [He|He].
    + pose proof (missing_email_no_attempt Env smtp_sendMail SMTP_USER rec
                    subject html (ls_world st) He) as Hrun.
      rewrite (send_loop_cons Env smtp_sendMail SMTP_USER batchId subject
                 html i rec rest st _ _ Hrun) in Hloop.
      cbv zeta in Hloop.
      cbn [stops missing_email_result res_status res_reason is_error
           is_infra andb] in Hloop.
      apply IH in Hloop. exact Hloop.
    + destruct (accepted_at_first_attempt rec subject html (ls_world st)
                  Hacc He) as (w1 & Hrun).
      rewrite (send_loop_cons Env smtp_sendMail SMTP_USER batchId subject
                 html i rec rest st _ w1 Hrun) in Hloop.
      cbv zeta in Hloop.
      cbn [stops res_status res_reason is_error andb] in Hloop.
      apply IH in Hloop. exact Hloop.
Qed.

(** C10. For a recipient that yields no address (it has no column equal to
    "Email" up to letter case, or the first such column holds [null],
    [undefined] or an empty text), the sequencer returns the
    missing-address result without touching the transport (no [sendMail]
    call), and its index is never the stop index.  The results of a run
    are those of the indices up to the stop index, or of all indices when
    there is none, and there is none when the server accepts every
    message.  When the run was not stopped at an earlier index, the result
    of the recipient's index is the missing-address result (status
    [error], attempt 0, the message "Missing Email field in recipient
    row", class OTHER), the ledger row of the index records status
    [error], attempt 0 and that message, and the next recipient, if any,
    is processed.  When the run was stopped at an earlier index, the
    recipient has no result and its ledger row is still pending. *)
Theorem missing_email_recorded_and_skipped (req : SendRequest)
  (recs : list (option Obj)) (db : DB) (w w1 : World Env) :
  valid_request req recs ->
  verifyRetry w = (None, w1) ->
  db_ok db ->
  exists s f p ko rs bid db' w',
    handler req db w =
      (Some (mkResponse 200 (SendBody s f (List.length recs) p ko rs bid)),
       db', w') /\
    p = List.length rs /\
    (ko = None -> p = List.length recs) /\
    (forall k, ko = Some k ->
       p = S k /\
       exists r, nth_error rs k = Some r /\ res_status r = error /\
                 (res_reason r = Some NETWORK \/
                  res_reason r = Some TEMP_AUTH)) /\
    ((forall opts e, fst (smtp_sendMail opts e) = None) -> ko = None) /\
    forall j rec,
      nth_error recs j = Some rec ->
      no_address rec ->
      (forall subject html w0,
         sendToRecipient rec subject html w0
         = (Some (mkSendResult "" error 0
                    (Some "Missing Email field in recipient row")
                    (Some OTHER)), w0)) /\
      ko <> Some j /\
      ((forall k, ko = Some k -> j < k) ->
       nth_error rs j =
         Some (mkSendResult "" error 0
                 (Some "Missing Email field in recipient row")
                 (Some OTHER)) /\
       (exists row,
          rows_at bid j db' = [row] /\ r_idx row = j /\
          r_status row = error /\ r_attempt row = 0 /\
          r_error row = Some "Missing Email field in recipient row") /\
       (S j < List.length recs -> S j < p)) /\
      (forall k, ko = Some k -> k < j ->
       nth_error rs j = None /\
       exists row,
         rows_at bid j db' = [row] /\ r_idx row = j /\
         r_status row = pending /\ r_attempt row = 0 /\
         r_error row = None).
Proof.
  intros Hvalid Hver Hok.
  destruct (send_emails_runs Env smtp_verify smtp_sendMail SMTP_USER
              req recs db w w1 Hvalid Hver)
    as (rows & rs & ko & w' & Hpend & Hrun & Hlen & Hall & _ & Hstop & _).
  assert (Hnone : ko = None -> List.length rs = List.length recs).
  { intros ->.
    destruct Hstop as [(_ & Hl & _)|(pre & r & _ & _ & _ & Habs)];
      [exact Hl|discriminate]. }
  assert (Hsome : forall k, ko = Some k ->
                    List.length rs = S k /\
                    exists r, nth_error rs k = Some r /\ stops r = true).
  { intros k ->. now apply (stop_ok_some (List.length recs)). }
  do 6 eexists. eexists. eexists.
  split; [exact Hrun|]. split; [reflexivity|].
  split; [exact Hnone|]. split.
  { intros k Hk. destruct (Hsome k Hk) as (Hp & r & Hr & Hst).
    split; [exact Hp|]. exists r. split; [exact Hr|].
    now apply stops_true. }
  split.
  { intros Hacc.
    destruct (send_emails_loop req recs db w w1 Hvalid Hver)
      as (db2 & st' & Hloop & Hresp & _).
    rewrite Hrun in Hresp. cbn [fst] in Hresp.
    injection Hresp as _ _ _ Hko _.
    apply (send_loop_never_stops _ _ _ _ Hacc) in Hloop.
    cbn [ls_stoppedAt] in Hloop. congruence. }
  intros j rec Hrec He. apply no_address_iff in He.
  assert (Hjlt : j < List.length recs)
    by (apply nth_error_Some; congruence).
  destruct (rows_at_run db rs recs rows j Hok Hpend Hjlt)
    as (rec' & row & Hrec' & Hrow & Hat).
  rewrite Hrec in Hrec'. injection Hrec' as <-.
  assert (Hnot : ko <> Some j).
  { intros Hk. destruct (Hsome j Hk) as (_ & r & Hr & Hst).
    destruct (outcome_at recs rs j rec r Hall Hrec Hr) as (_ & Hmiss & _).
    rewrite (Hmiss He) in Hst. discriminate Hst. }
  split; [intros subject html w0; now apply missing_email_no_attempt|].
  split; [exact Hnot|]. split.
  - intros Hpast.
    assert (Hj : j < List.length rs).
    { destruct ko as [k|].
      - destruct (Hsome k eq_refl) as [Hp _].
        specialize (Hpast k eq_refl). lia.
      - rewrite (Hnone eq_refl). exact Hjlt. }
    destruct (nth_error rs j) as [r|] eqn:Hr;
      [|apply nth_error_None in Hr; lia].
    destruct (outcome_at recs rs j rec r Hall Hrec Hr) as (_ & Hmiss & _).
    specialize (Hmiss He). subst r.
    split; [reflexivity|]. split.
    + exists (settled rs j row). split; [apply Hat|].
      unfold settled. rewrite Hr. cbn.
      destruct Hrow as (_ & Hi & _). repeat split. exact Hi.
    + apply (stop_ok_continue _ _ _ j missing_email_result Hstop Hr).
      reflexivity.
  - intros k Hk Hkj. destruct (Hsome k Hk) as [Hp _].
    assert (Hr : nth_error rs j = None) by (apply nth_error_None; lia).
    split; [exact Hr|].
    exists (settled rs j row). split; [apply Hat|].
    unfold settled. rewrite Hr.
    destruct Hrow as (_ & Hi & _ & _ & _ & Hst & Hatt & Herr).
    repeat split; assumption.
Qed.

End RunFacts.

Lemma missing_email_recorded_and_skipped_witness :
  exists db' w' row,
    send_emails unit smtp_ok send_accepting sender req_missing db_empty
                world0 =
      (Some (mkResponse 200
               (SendBody 2 1 3 3 None
                  [mkSendResult "a@x.com" sent 1 None None;
                   mkSendResult "" error 0
                     (Some "Missing Email field in recipient row")
                     (Some OTHER);
                   mkSendResult "c@x.com" sent 1 None None] 1)),
       db', w') /\
    rows_at 1 1 db' = [row] /\
    r_status row = error /\ r_attempt row = 0 /\
    r_error row = Some "Missing Email field in recipient row".
Proof.
  destruct (missing_email_recorded_and_skipped unit smtp_ok send_accepting
              sender req_missing recs_missing db_empty world0
              world_verified valid_req_missing eq_refl db_empty_ok)
    as (s & f & p & ko & rs & bid & db' & w' & Hrun & _ & _ & _ & Hacc
        & Hmiss).
  assert (Hko : ko = None) by (apply Hacc; intros opts e; reflexivity).
  destruct (Hmiss 1 (Some [("Name", VStr "Bo")]) eq_refl I)
    as (_ & _ & Hreached & _).
  destruct Hreached as (_ & (row & Hat & _ & Hst & Hatt & Herr) & _).
  { intros k Hk. rewrite Hko in Hk. discriminate Hk. }
  pose proof (f_equal (fun x => fst (fst x)) Hrun) as Hresp.
  cbn [fst] in Hresp. vm_compute in Hresp.
  injection Hresp as <- <- <- <- <- <-.
  exists db', w', row. split; [|repeat split; assumption].
  rewrite Hrun. reflexivity.
Defined.

(** C10 as stated fails for a recipient behind the stop index: when the
    delivery to the first recipient fails three times with a connection
    reset, the run stops at index 0 and the row of the second recipient,
    which has no address, is still pending. *)
Lemma no_address_behind_stop_stays_pending :
  no_address (Some [("Name", VStr "Bo")]) /\
  exists row,
    rows_at 1 1
      (snd (fst (send_emails unit smtp_ok
                   (send_failing "b@x.com" err_econnreset) sender
                   req_b_then_missing db_empty world0))) = [row] /\
    r_status row = pending /\ r_status row <> error /\
    r_attempt row = 0 /\ r_error row = None.
Proof.
  split; [exact I|]. eexists. split; [vm_compute; reflexivity|].
  cbn. repeat split. discriminate.
Qed.

(** ** More on the template engine *)

(** X9. Every column of the recipient reaches the template engine under
    its own name with its own value: the synthetic [Name] never hides or
    changes a column, and [Name] itself is always bound. *)
Theorem recipient_columns_reach_template (name : string) (o : Obj) :
  NoDup (keys o) ->
  (forall k v, obj_get k o = Some v ->
               obj_get k (make_vars name (Some o)) = Some v) /\
  (forall k, k <> "Name" -> obj_get k o = None ->
             obj_get k (make_vars name (Some o)) = None) /\
  (exists v, obj_get "Name" (make_vars name (Some o)) = Some v).
Proof.
  intros Hnd. unfold make_vars. split; [|split].
  - intros k v Hk. rewrite (obj_get_spread k o Hnd). now rewrite Hk.
  - intros k Hne Hk. rewrite (obj_get_spread k o Hnd), Hk.
    cbn [obj_get]. apply not_eq_sym in Hne. apply String.eqb_neq in Hne.
    now rewrite Hne.
  - rewrite (obj_get_spread "Name" o Hnd).
    destruct (obj_get "Name" o) as [v|]; eexists; reflexivity.
Qed.

Lemma recipient_columns_reach_template_witness :
  NoDup (keys rcp_empty_name) /\
  obj_get "Email" (make_vars "Candidate" (Some rcp_empty_name))
    = Some (VStr "a@x.com").
Proof.
  assert (Hnd : NoDup (keys rcp_empty_name)).
  { repeat constructor; simpl; intuition discriminate. }
  split; [exact Hnd|].
  apply (proj1 (recipient_columns_reach_template "Candidate" rcp_empty_name
                  Hnd)).
  reflexivity.
Defined.

Lemma expand_without_dollar (matched before after repl : string) :
  all_chars (fun c => negb (Ascii.eqb c "$")) repl = true ->
  expand_replacement matched before after repl = repl.
Proof.
  induction repl as [|c r IH]; intros H; [reflexivity|].
  cbn [all_chars] in H. apply andb_true_iff in H as [Hc Hr].
  apply negb_true_iff in Hc. cbn [expand_replacement]. rewrite Hc.
  now rewrite IH.
Qed.

Lemma scan_skip (pat repl : string) (x : string) :
  forall before rest,
    replace_scan pat repl before (x ++ rest) (String.length x) =
    replace_scan pat repl (before ++ x) rest 0.
Proof.
  induction x as [|c x IH]; intros before rest.
  - cbn [append String.length]. rewrite str_app_nil_r.
    destruct rest; reflexivity.
  - cbn [append String.length replace_scan]. rewrite IH, str_app_assoc.
    reflexivity.
Qed.

Lemma startsWith_self_app (p rest : string) : startsWith (p ++ rest) p = true.
Proof.
  induction p as [|c p IH]; [now destruct rest|].
  cbn [append startsWith]. now rewrite Ascii.eqb_refl, IH.
Qed.

Lemma scan_replaces_cuts (k repl : string) :
  all_chars (fun c => negb (Ascii.eqb c "$")) repl = true ->
  forall segs s0 before,
    Forall (fun s => all_chars (fun c => negb (Ascii.eqb c "{")) s = true)
           (s0 :: segs) ->
    replace_scan (placeholder k) repl before
                 (join_with (placeholder k) s0 segs) 0 =
      join_with repl s0 segs.
Proof.
  intros Hrepl. unfold placeholder.
  change ("{" ++ k ++ "}") with (String "{" (k ++ "}")).
  induction segs as [|s1 segs IH]; intros s0 before Hall.
  - apply Forall_cons_iff in Hall as [Hs0 _]. cbn [join_with].
    rewrite <- (str_app_nil_r s0) at 1.
    rewrite scan_copies by exact Hs0. cbn [replace_scan].
    now rewrite str_app_nil_r.
  - apply Forall_cons_iff in Hall as [Hs0 Hall]. cbn [join_with].
    rewrite scan_copies by exact Hs0. f_equal.
    cbn [append replace_scan].
    change (String "{" ((k ++ "}") ++ join_with (String "{" (k ++ "}"))
                                               s1 segs))
      with (String "{" (k ++ "}") ++
            join_with (String "{" (k ++ "}")) s1 segs).
    rewrite startsWith_self_app.
    rewrite expand_without_dollar by exact Hrepl. f_equal.
    replace (String.length (String "{" (k ++ "}")) - 1)
      with (String.length (k ++ "}")) by (cbn [String.length]; lia).
    rewrite scan_skip. apply IH. exact Hall.
Qed.

(** X10. Every occurrence of a placeholder is replaced by the value of its
    column: a template cut at occurrences of [{k}], whose pieces hold no
    opening brace, renders under the one-column map [{k: v}] to the same
    pieces joined by the text of [v] (empty for [null]), provided that
    text holds no dollar sign. *)
Theorem every_occurrence_is_replaced (k : string) (v : JsVal)
  (s0 : string) (segs : list string) :
  k <> "" ->
  all_chars (fun c => negb (Ascii.eqb c "$")) (replacement_of v) = true ->
  Forall (fun s => all_chars (fun c => negb (Ascii.eqb c "{")) s = true)
         (s0 :: segs) ->
  applyTemplate (join_with (placeholder k) s0 segs) (Some [(k, v)]) =
    join_with (replacement_of v) s0 segs.
Proof.
  intros Hk Hv Hall. unfold applyTemplate.
  destruct (String.eqb_spec (join_with (placeholder k) s0 segs) "")
    as [He|_].
  - destruct segs as [|s1 segs]; cbn [join_with] in He |- *.
    + now rewrite He.
    + destruct s0; discriminate.
  - cbn [fold_left apply_entry]. apply String.eqb_neq in Hk. rewrite Hk.
    unfold replace_placeholder. fold (replacement_of v).
    now apply scan_replaces_cuts.
Qed.

Lemma every_occurrence_is_replaced_witness :
  applyTemplate "Hi {Name}, dear {Name}!" (Some [("Name", VStr "Ada")])
    = "Hi Ada, dear Ada!".
Proof.
  apply (every_occurrence_is_replaced "Name" (VStr "Ada") "Hi "
           [", dear "; "!"]).
  - discriminate.
  - reflexivity.
  - repeat constructor.
Defined.

Lemma startsWith_drop (p s : string) :
  startsWith s p = true -> s = p ++ drop (String.length p) s.
Proof.
  revert s. induction p as [|a p IH]; intros s H.
  - now destruct s.
  - destruct s as [|b s]; cbn [startsWith] in H; [discriminate|].
    apply andb_true_iff in H as [Hab H]. apply Ascii.eqb_eq in Hab.
    subst b. cbn [append String.length drop]. f_equal. now apply IH.
Qed.

Lemma scan_dollar_amp (q : string) (s : string) :
  forall before skip,
    replace_scan (String "{" q) "$&" before s skip = drop skip s.
Proof.
  induction s as [|c s IH]; intros before skip.
  - now destruct skip.
  - cbn [replace_scan]. destruct skip as [|k].
    + destruct (startsWith (String c s) (String "{" q)) eqn:Hm.
      * rewrite IH.
        replace (String.length (String "{" q) - 1)
          with (String.length q) by (cbn [String.length]; lia).
        apply startsWith_drop in Hm. cbn [String.length drop] in Hm.
        rewrite Hm at 2.
        cbn [expand_replacement].
        change (Ascii.eqb "$" "$") with true. cbv iota.
        change (Ascii.eqb "&" "$") with false. cbv iota.
        change (Ascii.eqb "&" "&") with true. cbv iota.
        now rewrite str_app_nil_r.
      * rewrite IH. reflexivity.
    + rewrite IH. reflexivity.
Qed.

(** X11. Dollar patterns in a value are interpreted by the replacement:
    a column whose value is the text [$&] puts each placeholder back in
    place, so rendering any template under the one-column map
    [{k: "$&"}] returns the template unchanged. *)
Theorem dollar_amp_keeps_placeholder (k template : string) :
  applyTemplate template (Some [(k, VStr "$&")]) = template.
Proof.
  unfold applyTemplate.
  destruct (String.eqb_spec template "") as [->|_]; [reflexivity|].
  cbn [fold_left apply_entry is_nullish toStr].
  destruct (String.eqb k ""); [reflexivity|].
  unfold replace_placeholder, placeholder.
  change ("{" ++ k ++ "}") with (String "{" (k ++ "}")).
  apply scan_dollar_amp.
Qed.

Lemma escapeRegExp_plain (s : string) :
  all_chars (fun c => negb (is_special c)) s = true -> escapeRegExp s = s.
Proof.
  induction s as [|c s IH]; intros H; [reflexivity|].
  cbn [all_chars] in H. apply andb_true_iff in H as [Hc Hs].
  apply negb_true_iff in Hc. cbn [escapeRegExp]. rewrite Hc.
  now rewrite IH.
Qed.

Lemma literal_of_escaped_text (s : string) :
  literal_of_source (escapeRegExp s) = Some s.
Proof.
  induction s as [|c s IH]; [reflexivity|].
  cbn [escapeRegExp]. destruct (is_special c) eqn:Hc.
  - cbn [literal_of_source].
    change (Ascii.eqb "\" "\") with true. cbv iota.
    rewrite Hc, IH. reflexivity.
  - cbn [literal_of_source]. rewrite Hc.
    destruct (Ascii.eqb_spec c "\") as [->|_]; [discriminate|].
    rewrite IH. reflexivity.
Qed.

(** X12. Escaping makes every key a literal pattern: read as a pattern
    source, [escapeRegExp(s)] stands for exactly the text [s], and the
    source built for a key stands for the key between braces, whatever
    metacharacters the key holds; a text without metacharacters is
    returned as it is. *)
Theorem escapeRegExp_gives_literal_pattern (s : string) :
  literal_of_source (escapeRegExp s) = Some s /\
  literal_of_source (pattern_source s) = Some (placeholder s) /\
  (all_chars (fun c => negb (is_special c)) s = true ->
   escapeRegExp s = s).
Proof.
  split; [apply literal_of_escaped_text|].
  split; [apply pattern_source_literal|apply escapeRegExp_plain].
Qed.

Lemma escapeRegExp_gives_literal_pattern_witness :
  escapeRegExp "Email" = "Email" /\
  literal_of_source (pattern_source "a.b(c)") = Some "{a.b(c)}".
Proof.
  destruct (escapeRegExp_gives_literal_pattern "Email") as (_ & _ & Hplain).
  destruct (escapeRegExp_gives_literal_pattern "a.b(c)") as (_ & Hpat & _).
  split; [apply Hplain; reflexivity|exact Hpat].
Defined.

(** ** More on archive names *)

Lemma map_chars_length (f : ascii -> ascii) (s : string) :
  String.length (map_chars f s) = String.length s.
Proof. induction s as [|c s IH]; simpl; [reflexivity|now rewrite IH]. Qed.

Lemma sanitize_fixes_safe (s : string) :
  all_chars is_safe_char s = true -> sanitize s = s.
Proof.
  unfold sanitize. induction s as [|c s IH]; intros H; [reflexivity|].
  cbn [all_chars] in H. apply andb_true_iff in H as [Hc Hs].
  cbn [map_chars]. now rewrite Hc, IH.
Qed.

(** X13. Sanitizing an address keeps its length and changes only the
    characters outside [[A-Za-z0-9@._-]]: an address made of such
    characters is returned as it is, so sanitizing twice is sanitizing
    once; and an entry name always ends in ".pdf" after a non-empty
    stem. *)
Theorem sanitize_is_stable (email : string) :
  String.length (sanitize email) = String.length email /\
  sanitize (sanitize email) = sanitize email /\
  (all_chars is_safe_char email = true -> sanitize email = email) /\
  (exists stem, filename_of email = stem ++ ".pdf" /\ stem <> "") /\
  (exists stem, csv_filename_of email = stem ++ ".pdf" /\ stem <> "").
Proof.
  split; [apply map_chars_length|].
  split; [apply sanitize_fixes_safe, sanitize_safe|].
  split; [apply sanitize_fixes_safe|].
  split.
  - unfold filename_of. eexists. split; [reflexivity|].
    apply or_str_nonempty. discriminate.
  - unfold csv_filename_of. eexists. split; [reflexivity|].
    intros He. apply (proj1 (sanitize_empty _)) in He.
    revert He. apply or_str_nonempty. discriminate.
Qed.

Lemma sanitize_is_stable_witness :
  sanitize "a.b-c_d@x.com" = "a.b-c_d@x.com".
Proof.
  apply (proj1 (proj2 (proj2 (sanitize_is_stable "a.b-c_d@x.com")))).
  reflexivity.
Defined.

(** ** The shape of the ledger *)

Lemma settle_row_keeps_id (batchId i : nat) (rs : list SendResult)
  (row : RecipientRow) :
  r_id (settle_row batchId i rs row) = r_id row.
Proof.
  unfold settle_row.
  destruct ((r_batch_id row =? batchId) && (i <=? r_idx row)); [|reflexivity].
  now destruct (nth_error rs (r_idx row - i)).
Qed.

Lemma map_settle_ids (batchId i : nat) (rs : list SendResult)
  (rows : list RecipientRow) :
  map r_id (map (settle_row batchId i rs) rows) = map r_id rows /\
  map (fun r => (r_batch_id r, r_idx r)) (map (settle_row batchId i rs) rows)
    = map (fun r => (r_batch_id r, r_idx r)) rows.
Proof.
  rewrite !map_map. split; apply map_ext; intros row.
  - apply settle_row_keeps_id.
  - now destruct (settle_row_keeps batchId i rs row) as [-> ->].
Qed.

Lemma pending_pairs (batchId : nat) (recs : list (option Obj)) :
  forall i rows,
    pending_from batchId i recs rows ->
    map (fun r => (r_batch_id r, r_idx r)) rows =
      map (fun j => (batchId, j)) (seq i (List.length recs)).
Proof.
  induction recs as [|rec recs IH]; intros i [|row rows] H;
    simpl in H; try contradiction; [reflexivity|].
  destruct H as [(Hb & Hi & _) H]. cbn [map seq List.length].
  rewrite Hb, Hi. f_equal. now apply IH.
Qed.

Lemma next_rowid_positive (ids : list nat) : 1 <= next_rowid ids.
Proof. unfold next_rowid. lia. Qed.

Lemma insert_recipients_ids_ok (batchId : nat) (recs : list (option Obj)) :
  forall i db,
    NoDup (map r_id (batch_recipients db)) ->
    Forall (fun r => 1 <= r_id r) (batch_recipients db) ->
    NoDup (map r_id (batch_recipients (insert_recipients batchId i recs db)))
    /\
    Forall (fun r => 1 <= r_id r)
           (batch_recipients (insert_recipients batchId i recs db)).
Proof.
  induction recs as [|rec recs IH]; intros i db Hnd Hpos; [now split|].
  cbn [insert_recipients]. apply IH.
  - unfold insertRec. cbn [batch_recipients]. rewrite map_app. cbn [map r_id].
    apply NoDup_app; [exact Hnd|repeat constructor; intros []|].
    intros a Hin [Heq|[]]. subst a.
    now apply (next_rowid_fresh _ _ Hin).
  - unfold insertRec. cbn [batch_recipients]. apply Forall_app.
    split; [exact Hpos|]. constructor; [|constructor].
    cbn [r_id]. apply next_rowid_positive.
Qed.

Section LedgerShape.

Variable Env : Type.
Variable smtp_verify : Env -> option JsError * Env.
Variable smtp_sendMail : MailOptions -> Env -> option JsError * Env.
Variable SMTP_USER : option string.

Local Abbreviation handler :=
  (send_emails Env smtp_verify smtp_sendMail SMTP_USER).

(** The recipient rows after a valid request are the rows the insertion
    loop wrote, with the results settled on them. *)
Lemma send_emails_rows (req : SendRequest) (recs : list (option Obj))
  (db : DB) (w : World Env) :
  valid_request req recs ->
  exists rs row0,
    batch_recipients (snd (fst (handler req db w))) =
      map (settle_row (next_rowid (map b_id (batches db))) 0 rs)
          (batch_recipients
             (insert_recipients (next_rowid (map b_id (batches db))) 0 recs
                (mkDB (batches db ++ [row0]) (batch_recipients db)))).
Proof.
  intros (Hrecs & Hne & Hsubj & Hhtml).
  unfold send_emails. rewrite Hrecs.
  destruct recs as [|rec0 recs0]; [contradiction|].
  apply String.eqb_neq in Hsubj. apply String.eqb_neq in Hhtml.
  rewrite Hsubj, Hhtml. cbn [orb].
  unfold insertBatch. cbv zeta. cbv iota beta.
  destruct (verifySmtpWithRetry Env smtp_verify w) as [[err|] w1].
  - exists []. eexists. cbn [fst snd updateBatch batch_recipients].
    now rewrite map_settle_nil.
  - match goal with
    | |- context [send_loop _ _ _ ?b ?s ?h 0 ?rest ?st] =>
        destruct (send_loop_spec Env smtp_sendMail SMTP_USER b s h rest 0 st)
          as (st' & rs & Hloop & _ & _ & _ & _ & _ & _ & _ & Hrows & _)
    end.
    rewrite Hloop. cbn [fst snd updateBatch batch_recipients].
    cbn [ls_db] in Hrows. exists rs. eexists. exact Hrows.
Qed.

Lemma send_emails_keeps_wf (req : SendRequest) (db : DB) (w : World Env) :
  ledger_wf db ->
  ledger_wf (snd (fst (handler req db w))).
Proof.
  intros (Hok & Hbids & Hrids & Hpos & Hpairs).
  split; [now apply send_emails_keeps_db_ok|].
  destruct (req_recipients req) as [[|rec0 recs0]|] eqn:Hrecs.
  1, 3: unfold send_emails; rewrite Hrecs; cbn [fst snd]; tauto.
  destruct (String.eqb_spec (req_subject req) "") as [Hs|Hs].
  { unfold send_emails. rewrite Hrecs, Hs. cbn [fst snd orb]. tauto. }
  destruct (String.eqb_spec (req_htmlBody req) "") as [Hh|Hh].
  { unfold send_emails. rewrite Hrecs, Hh, orb_true_r. cbn [fst snd]. tauto. }
  assert (Hvalid : valid_request req (rec0 :: recs0))
    by (repeat split; [exact Hrecs|discriminate|exact Hs|exact Hh]).
  set (bid := next_rowid (map b_id (batches db))).
  assert (Hfresh : ~ In bid (map b_id (batches db))).
  { intros Hin. now apply (next_rowid_fresh _ _ Hin). }
  destruct (send_emails_rows req (rec0 :: recs0) db w Hvalid)
    as (rs0 & row0 & Hrows0).
  fold bid in Hrows0.
  destruct (insert_recipients_ids_ok bid (rec0 :: recs0) 0
              (mkDB (batches db ++ [row0]) (batch_recipients db))
              Hrids Hpos) as [Hnd' Hpos'].
  assert (Hbatches : exists row,
             batches (snd (fst (handler req db w))) =
               (batches db ++ [row])%list /\ b_id row = bid /\
             exists rs rows,
               pending_from bid 0 (rec0 :: recs0) rows /\
               batch_recipients (snd (fst (handler req db w))) =
                 map (settle_row bid 0 rs) (batch_recipients db ++ rows)).
  { destruct (send_emails_valid Env smtp_verify smtp_sendMail SMTP_USER
                req (rec0 :: recs0) db w Hvalid)
      as (rows & Hpend & [(err & w1 & _ & ->)
                         |(w1 & rs & ko & w' & _ & -> & _)]);
      cbn [fst snd batches batch_recipients].
    - eexists. split; [reflexivity|]. split; [reflexivity|].
      exists [], rows. split; [exact Hpend|]. now rewrite map_settle_nil.
    - eexists. split; [reflexivity|]. split; [reflexivity|].
      exists rs, rows. split; [exact Hpend|reflexivity]. }
  destruct Hbatches as (row & Hbs & Hid & rs & rows & Hpend & Hrows).
  split.
  { rewrite Hbs, map_app. cbn [map]. rewrite Hid.
    apply NoDup_app; [exact Hbids|repeat constructor; intros []|].
    intros a Hin [Heq|[]]. subst a. contradiction. }
  split.
  { rewrite Hrows0. now rewrite (proj1 (map_settle_ids bid 0 rs0 _)). }
  split.
  { rewrite Hrows0. apply Forall_forall. intros r Hin.
    apply in_map_iff in Hin as (r0 & <- & Hin0).
    rewrite settle_row_keeps_id. rewrite Forall_forall in Hpos'.
    now apply Hpos'. }
  rewrite Hrows, (proj2 (map_settle_ids bid 0 rs _)), map_app.
  rewrite (pending_pairs bid _ 0 rows Hpend).
  apply NoDup_app; [exact Hpairs| |].
  - apply NoDup_map_NoDup_ForallPairs; [|apply seq_NoDup].
    intros x y _ _ Heq. now injection Heq.
  - intros [b j] Hin Hnew.
    apply in_map_iff in Hin as (r & Heq & Hr). injection Heq as Hb _.
    apply in_map_iff in Hnew as (j' & Heq' & _). injection Heq' as Hb' _.
    apply Hfresh. rewrite Hb', <- Hb. now apply Hok.
Qed.

(** A request adds at most one batch row, whose id is the next row id. *)
Lemma send_emails_batch_ids (req : SendRequest) (db : DB) (w : World Env) :
  exists bs,
    batches (snd (fst (handler req db w))) = (batches db ++ bs)%list /\
    Forall (fun b => b_id b = next_rowid (map b_id (batches db))) bs.
Proof.
  destruct (req_recipients req) as [[|rec0 recs0]|] eqn:Hrecs.
  1, 3: exists []; unfold send_emails; rewrite Hrecs; cbn [fst snd];
        rewrite app_nil_r; split; [reflexivity|constructor].
  destruct (String.eqb_spec (req_subject req) "") as [Hs|Hs].
  { exists []. unfold send_emails. rewrite Hrecs, Hs. cbn [fst snd orb].
    rewrite app_nil_r. split; [reflexivity|constructor]. }
  destruct (String.eqb_spec (req_htmlBody req) "") as [Hh|Hh].
  { exists []. unfold send_emails. rewrite Hrecs, Hh, orb_true_r.
    cbn [fst snd]. rewrite app_nil_r. split; [reflexivity|constructor]. }
  assert (Hvalid : valid_request req (rec0 :: recs0))
    by (repeat split; [exact Hrecs|discriminate|exact Hs|exact Hh]).
  destruct (send_emails_valid Env smtp_verify smtp_sendMail SMTP_USER
              req (rec0 :: recs0) db w Hvalid)
    as (rows & _ & [(err & w1 & _ & ->)|(w1 & rs & ko & w' & _ & -> & _)]);
    cbn [fst snd batches]; eexists [_];
    (split; [reflexivity|]); repeat constructor.
Qed.

(** X14. The handler keeps the ledger sound: after any request, every
    recipient row still belongs to a stored batch, the row ids of both
    tables are distinct and positive, and a batch has at most one
    recipient row for an index.  The empty ledger is sound, so every
    ledger the handler builds is. *)
Theorem ledger_stays_well_formed (req : SendRequest) (db : DB)
  (w : World Env) :
  ledger_sound db ->
  ledger_sound (snd (fst (handler req db w))).
Proof.
  intros [Hwf Hbpos]. split; [now apply send_emails_keeps_wf|].
  destruct (send_emails_batch_ids req db w) as (bs & -> & Hbs).
  apply Forall_app. split; [exact Hbpos|].
  apply Forall_forall. intros b Hb. rewrite Forall_forall in Hbs.
  rewrite (Hbs b Hb). apply next_rowid_positive.
Qed.

End LedgerShape.

Lemma db_empty_wf : ledger_wf db_empty.
Proof.
  split; [exact db_empty_ok|]. repeat split; constructor.
Qed.

Lemma db_empty_sound : ledger_sound db_empty.
Proof. split; [exact db_empty_wf|constructor]. Qed.

Lemma ledger_stays_well_formed_witness :
  ledger_sound db_empty /\ ledger_sound db_after_abc.
Proof.
  split; [exact db_empty_sound|].
  exact (ledger_stays_well_formed unit smtp_ok
           (send_failing "b@x.com" err_econnreset) sender req_abc db_empty
           world0 db_empty_sound).
Defined.

(** ** Archives of stored batches *)

Lemma settle_row_keeps_data (batchId i : nat) (rs : list SendResult)
  (row : RecipientRow) :
  r_email (settle_row batchId i rs row) = r_email row /\
  r_name (settle_row batchId i rs row) = r_name row /\
  r_data_json (settle_row batchId i rs row) = r_data_json row.
Proof.
  unfold settle_row.
  destruct ((r_batch_id row =? batchId) && (i <=? r_idx row));
    [|repeat split].
  destruct (nth_error rs (r_idx row - i)); repeat split.
Qed.

(** Rows inserted in index order are already in the order of the SELECT. *)
Lemma order_by_idx_inserted (batchId : nat) (rs : list SendResult)
  (recs : list (option Obj)) :
  forall i rows,
    pending_from batchId i recs rows ->
    order_by_idx (map (settle_row batchId 0 rs) rows) =
      map (settle_row batchId 0 rs) rows.
Proof.
  unfold order_by_idx.
  induction recs as [|rec recs IH]; intros i [|row rows] H;
    simpl in H; try contradiction; [reflexivity|].
  destruct H as [(_ & Hi & _) H]. cbn [map fold_right].
  rewrite (IH (S i) rows H).
  destruct recs as [|rec' recs']; destruct rows as [|row' rows'];
    simpl in H; try contradiction; [reflexivity|].
  destruct H as [(_ & Hi' & _) _]. cbn [map insert_by_idx].
  destruct (settle_row_keeps batchId 0 rs row) as [_ ->].
  destruct (settle_row_keeps batchId 0 rs row') as [_ ->].
  rewrite Hi, Hi'. now rewrite (proj2 (Nat.ltb_lt i (S i)) (Nat.lt_succ_diag_r i)).
Qed.

Lemma archived_names (batchId : nat) (rs : list SendResult)
  (recs : list (option Obj)) :
  forall i rows,
    pending_from batchId i recs rows ->
    map (fun row => csv_filename_of (stored_email row))
        (map (settle_row batchId 0 rs) rows) =
      map (fun rec => csv_filename_of (archived_address rec)) recs.
Proof.
  induction recs as [|rec recs IH]; intros i [|row rows] H;
    simpl in H; try contradiction; [reflexivity|].
  destruct H as [(_ & _ & Hemail & _ & Hdata & _) H].
  cbn [map]. rewrite (IH (S i) rows H). f_equal.
  unfold stored_email, archived_address.
  destruct (settle_row_keeps_data batchId 0 rs row) as (-> & _ & ->).
  now rewrite Hemail, Hdata.
Qed.

Lemma filter_nothing {A : Type} (p : A -> bool) (l : list A) :
  (forall x, In x l -> p x = false) -> filter p l = [].
Proof.
  induction l as [|x l IH]; intros H; [reflexivity|].
  cbn [filter]. rewrite (H x (or_introl eq_refl)).
  apply IH. intros y Hy. apply H. now right.
Qed.

Section StoredArchives.

Variable Env : Type.
Variable smtp_verify : Env -> option JsError * Env.
Variable smtp_sendMail : MailOptions -> Env -> option JsError * Env.
Variable SMTP_USER : option string.
Variable Pdf : Type.
Variable Browser : Type.
Variable launch : Browser + string.
Variable page_pdf : string -> Browser -> (Pdf + string) * Browser.
Variable latest : list BatchRow -> option BatchRow.

Local Abbreviation handler :=
  (send_emails Env smtp_verify smtp_sendMail SMTP_USER).

Lemma render_rows_total (batchRow : BatchRow) (recRows : list RecipientRow) :
  (forall html b, exists pdf b', page_pdf html b = (inl pdf, b')) ->
  forall b acc,
    exists pdfFiles,
      render_rows Pdf Browser page_pdf batchRow recRows b acc = inl pdfFiles.
Proof.
  intros Htotal.
  induction recRows as [|rec rest IH]; intros b acc.
  - eexists. reflexivity.
  - cbn [render_rows].
    match goal with
    | |- context [page_pdf ?h b] =>
        destruct (Htotal h b) as (pdf & b' & ->)
    end.
    apply IH.
Qed.

(** X15. After a request with a source name that no earlier batch
    carries has been handled, the archive route finds its batch under
    that name, whatever the letter case and the surrounding blanks of the
    query, and, when the renderer does not fail, answers with one entry
    per submitted recipient, in submission order, named after the stored
    address: the sanitized address, "unknown" for a recipient without an
    Email column, "recipient" for an empty Email value.  (Among several
    batches of one name the route takes the latest by creation time, which
    the query resolves to the second only; with a fresh name the answer
    does not depend on that choice, of which only that it returns one of
    the batches of the name is used.) *)
Theorem archive_after_a_run (req : SendRequest) (recs : list (option Obj))
  (db : DB) (w : World Env) (query : string) (page : Browser) :
  chooses_member latest ->
  valid_request req recs ->
  db_ok db ->
  trim query <> "" ->
  toLowerCase (req_csvName req) = toLowerCase (trim query) ->
  (forall b n, In b (batches db) -> b_csv_name b = Some n ->
               toLowerCase n <> toLowerCase (trim query)) ->
  launch = inl page ->
  (forall html b, exists pdf b', page_pdf html b = (inl pdf, b')) ->
  exists entries,
    csv_pdfs Pdf Browser launch page_pdf latest query
             (snd (fst (handler req db w))) = ArchiveZip Pdf entries /\
    map fst entries =
      map (fun rec => csv_filename_of (archived_address rec)) recs.
Proof.
  intros Hlatest Hvalid Hok Hq Hname Hfresh Hlaunch Htotal.
  set (bid := next_rowid (map b_id (batches db))).
  assert (Hcsv : req_csvName req <> "").
  { intros He. rewrite He in Hname. apply Hq.
    destruct (trim query); [reflexivity|discriminate]. }
  assert (Hstored : stored_csv_name req = Some (req_csvName req)).
  { unfold stored_csv_name. apply String.eqb_neq in Hcsv. now rewrite Hcsv. }
  assert (Hdb : exists st s f p so e rs rows,
             pending_from bid 0 recs rows /\
             snd (fst (handler req db w)) =
               mkDB (batches db ++
                       [final_batch_row req bid (List.length recs)
                                        st s f p so e])
                    (map (settle_row bid 0 rs) (batch_recipients db ++ rows))).
  { destruct (send_emails_valid Env smtp_verify smtp_sendMail SMTP_USER
                req recs db w Hvalid)
      as (rows & Hpend & [(err & w1 & _ & ->)
                         |(w1 & rs & ko & w' & _ & -> & _)]);
      cbn [fst snd].
    - do 6 eexists. exists [], rows. split; [exact Hpend|].
      now rewrite map_settle_nil.
    - do 6 eexists. exists rs, rows. split; [exact Hpend|reflexivity]. }
  destruct Hdb as (st & s & f & p & so & e & rs & rows & Hpend & ->).
  set (row := final_batch_row req bid (List.length recs) st s f p so e).
  assert (Hid : b_id row = bid) by reflexivity.
  assert (Hrowcsv : b_csv_name row = Some (req_csvName req))
    by exact Hstored.
  unfold csv_pdfs.
  assert (Hq' : query <> "") by (intros ->; now apply Hq).
  apply String.eqb_neq in Hq. apply String.eqb_neq in Hq'.
  rewrite Hq, Hq'. cbn [orb].
  assert (Hfound : find_latest_batch latest (trim query)
                      (mkDB (batches db ++ [row])
                            (map (settle_row bid 0 rs)
                                 (batch_recipients db ++ rows))) = Some row).
  { unfold find_latest_batch, batches_named. cbn [batches].
    rewrite filter_app, (filter_nothing _ (batches db)).
    - cbn [filter app]. rewrite Hrowcsv, Hname, String.eqb_refl.
      pose proof (Hlatest [row]) as Hin.
      destruct (latest [row]) as [b|]; [|discriminate].
      destruct Hin as [->|[]]. reflexivity.
    - intros b Hb. destruct (b_csv_name b) as [n|] eqn:Hn; [|reflexivity].
      apply String.eqb_neq. exact (Hfresh b n Hb Hn). }
  rewrite Hfound, Hlaunch. unfold select_recipients, rows_of.
  cbn [batch_recipients]. rewrite Hid. unfold bid.
  rewrite rows_of_fresh;
    [|exact Hok|eapply pending_from_batch; exact Hpend].
  fold bid.
  rewrite (order_by_idx_inserted bid rs recs 0 rows Hpend).
  destruct (render_rows_total row (map (settle_row bid 0 rs) rows)
              Htotal page [])
    as (pdfFiles & Hfiles).
  rewrite Hfiles. eexists. split; [reflexivity|].
  rewrite append_all_names.
  apply render_rows_names in Hfiles. cbn [map app] in Hfiles.
  rewrite Hfiles. now apply (archived_names _ rs recs 0 rows).
Qed.

(** X16. The archive route answers 400 for a blank source name and 404
    exactly when the name is not blank and no stored batch carries it up
    to letter case. *)
Theorem archive_lookup_errors (query : string) (db : DB) :
  chooses_member latest ->
  (trim query = "" ->
   csv_pdfs Pdf Browser launch page_pdf latest query db =
     ArchiveError Pdf 400 "csvName query is required" "") /\
  (trim query <> "" ->
   (csv_pdfs Pdf Browser launch page_pdf latest query db =
      ArchiveError Pdf 404 "No batch found for this csvName" ""
    <->
    forall b n, In b (batches db) -> b_csv_name b = Some n ->
                toLowerCase n <> toLowerCase (trim query))).
Proof.
  intros Hlatest. unfold csv_pdfs. split.
  - intros ->. now rewrite orb_true_r.
  - intros Hq.
    assert (Hq' : query <> "") by (intros ->; now apply Hq).
    apply String.eqb_neq in Hq. apply String.eqb_neq in Hq'.
    rewrite Hq, Hq'. cbn [orb].
    unfold find_latest_batch.
    pose proof (Hlatest (batches_named (trim query) db)) as Hin.
    destruct (latest (batches_named (trim query) db)) as [row|].
    + split.
      * intros H. exfalso.
        destruct launch as [page|msg]; [|discriminate].
        destruct (render_rows _ _ _ _ _ _ _); discriminate.
      * intros Hnone. exfalso.
        apply filter_In in Hin as [Hin Hp].
        destruct (b_csv_name row) as [n|] eqn:Hn; [|discriminate].
        apply String.eqb_eq in Hp. exact (Hnone row n Hin Hn Hp).
    + split; [|reflexivity]. intros _ b n Hb Hn Heq.
      assert (Hmem : In b (batches_named (trim query) db)).
      { apply filter_In. split; [exact Hb|].
        rewrite Hn, Heq. apply String.eqb_refl. }
      rewrite Hin in Hmem. contradiction.
Qed.

Lemma find_by_unique_id (rows : list RecipientRow) (p : RecipientRow -> bool)
  (row : RecipientRow) :
  NoDup (map r_id rows) -> In row rows -> p row = true ->
  (forall r, p r = true -> r_id r = r_id row) ->
  find p rows = Some row.
Proof.
  induction rows as [|r rows IH]; intros Hnd Hin Hp Hid; [contradiction|].
  cbn [map] in Hnd. apply NoDup_cons_iff in Hnd as [Hnot Hnd].
  cbn [find]. destruct (p r) eqn:Hr.
  - destruct Hin as [->|Hin]; [reflexivity|].
    exfalso. apply Hnot. rewrite (Hid r Hr). now apply in_map.
  - destruct Hin as [->|Hin]; [congruence|]. now apply IH.
Qed.

(** X17. The single-document route answers 400 for an id that is not a
    number or is 0, and 404 for an id no recipient row has.  In a
    well-formed ledger every recipient row can be rendered by its id: when
    the renderer does not fail the answer is a document named after the
    stored address, sanitized, or after "unknown@example.com" when the
    stored address is empty, and every character of the name is in
    [[A-Za-z0-9@._-]]. *)
Theorem single_document_route (db : DB) :
  recipient_pdf Pdf Browser launch page_pdf None db =
    PdfError Pdf 400 "invalid recipient id" "" /\
  recipient_pdf Pdf Browser launch page_pdf (Some 0%Z) db =
    PdfError Pdf 400 "invalid recipient id" "" /\
  (forall id : Z,
     id <> 0%Z ->
     (forall r, In r (batch_recipients db) -> Z.of_nat (r_id r) <> id) ->
     recipient_pdf Pdf Browser launch page_pdf (Some id) db =
       PdfError Pdf 404 "recipient not found" "") /\
  (forall row page,
     ledger_wf db -> In row (batch_recipients db) ->
     launch = inl page ->
     (forall html b, exists pdf b', page_pdf html b = (inl pdf, b')) ->
     exists pdf,
       recipient_pdf Pdf Browser launch page_pdf
                     (Some (Z.of_nat (r_id row))) db =
         PdfDownload Pdf
           (filename_of (or_str (r_email row) "unknown@example.com")) pdf /\
       all_chars is_safe_char
         (filename_of (or_str (r_email row) "unknown@example.com")) = true).
Proof.
  split; [reflexivity|]. split; [reflexivity|]. split.
  - intros id Hne Hnone. unfold recipient_pdf.
    apply Z.eqb_neq in Hne. rewrite Hne.
    destruct (Z.ltb_spec id 0) as [_|Hge]; [reflexivity|].
    unfold find_recipient.
    destruct (find _ (batch_recipients db)) as [r|] eqn:Hfind;
      [|reflexivity].
    exfalso. apply find_some in Hfind as [Hin Hp].
    apply andb_true_iff in Hp as [Hid _]. apply Nat.eqb_eq in Hid.
    apply (Hnone r Hin). rewrite Hid. now apply Z2Nat.id.
  - intros row page (Hok & _ & Hrids & Hpos & _) Hin Hlaunch Htotal.
    unfold recipient_pdf.
    assert (Hid : 1 <= r_id row).
    { rewrite Forall_forall in Hpos. now apply Hpos. }
    destruct (Z.eqb_spec (Z.of_nat (r_id row)) 0) as [H0|_]; [lia|].
    destruct (Z.ltb_spec (Z.of_nat (r_id row)) 0) as [Hneg|_]; [lia|].
    rewrite Nat2Z.id.
    assert (Hbatch : exists b, find_batch (r_batch_id row) db = Some b).
    { unfold find_batch.
      destruct (find (fun b => b_id b =? r_batch_id row) (batches db))
        as [b|] eqn:Hf; [now exists b|].
      exfalso. specialize (Hok row Hin).
      apply in_map_iff in Hok as (b & Hb & Hbin).
      apply (find_none _ _ Hf) in Hbin. rewrite Hb, Nat.eqb_refl in Hbin.
      discriminate. }
    destruct Hbatch as (b & Hb).
    unfold find_recipient.
    rewrite (find_by_unique_id (batch_recipients db) _ row Hrids Hin).
    + rewrite Hb, Hlaunch.
      match goal with
      | |- context [page_pdf ?h page] =>
          destruct (Htotal h page) as (pdf & b' & ->)
      end.
      exists pdf. split; [reflexivity|apply filename_of_safe].
    + now rewrite Nat.eqb_refl, Hb.
    + intros r Hr. apply andb_true_iff in Hr as [Hr _].
      now apply Nat.eqb_eq in Hr.
Qed.

End StoredArchives.

Lemma archive_after_a_run_witness :
  exists entries,
    csv_pdfs string unit (inl tt) page_pdf_ok latest_by_rowid " LIST.csv "
             db_after_abc
      = ArchiveZip string entries /\
    map fst entries = ["a@x.com.pdf"; "b@x.com.pdf"; "c@x.com.pdf"].
Proof.
  apply (archive_after_a_run unit smtp_ok
           (send_failing "b@x.com" err_econnreset) sender string unit
           (inl tt) page_pdf_ok latest_by_rowid req_abc recs_abc db_empty
           world0 " LIST.csv " tt latest_by_rowid_ok valid_req_abc
           db_empty_ok).
  - discriminate.
  - reflexivity.
  - intros b n [].
  - reflexivity.
  - intros html b. exists html, b. reflexivity.
Defined.

Lemma archive_lookup_errors_witness :
  csv_pdfs string unit (inl tt) page_pdf_ok latest_by_rowid "   "
           db_after_abc
    = ArchiveError string 400 "csvName query is required" "" /\
  csv_pdfs string unit (inl tt) page_pdf_ok latest_by_rowid "other.csv"
           db_after_abc
    = ArchiveError string 404 "No batch found for this csvName" "".
Proof.
  destruct (archive_lookup_errors string unit (inl tt) page_pdf_ok
              latest_by_rowid "   " db_after_abc latest_by_rowid_ok)
    as [H400 _].
  destruct (archive_lookup_errors string unit (inl tt) page_pdf_ok
              latest_by_rowid "other.csv" db_after_abc latest_by_rowid_ok)
    as [_ H404].
  split; [apply H400; reflexivity|].
  apply H404; [discriminate|].
  intros b n [<-|[]] Hn. injection Hn as <-. discriminate.
Defined.

Lemma db_after_abc_wf : ledger_wf db_after_abc.
Proof.
  vm_compute. split.
  - intros r [<-|[<-|[<-|[]]]]; now left.
  - repeat split;
      repeat (first [apply NoDup_nil | apply Forall_nil
                    | apply NoDup_cons;
                      [intros H; cbn in H; intuition (discriminate || lia)|]
                    | apply Forall_cons; [lia|]]).
Qed.

Lemma single_document_route_witness :
  exists pdf,
    recipient_pdf string unit (inl tt) page_pdf_ok (Some 2%Z) db_after_abc
      = PdfDownload string "b@x.com.pdf" pdf.
Proof.
  destruct (single_document_route string unit (inl tt) page_pdf_ok
              db_after_abc) as (_ & _ & _ & Hrender).
  destruct (Hrender
              (mkRecipientRow 2 1 1 "b@x.com" "" [("Email", VStr "b@x.com")]
                              error 3 (Some "read ECONNRESET")) tt)
    as (pdf & Hpdf & _).
  - exact db_after_abc_wf.
  - vm_compute. right. left. reflexivity.
  - reflexivity.
  - intros html b. exists html, b. reflexivity.
  - exists pdf. exact Hpdf.
Defined.

(** ** The sending page: batches, message body and loaded rows *)

Lemma chunk_loop_spec {A : Type} (size : nat) (array : list A) :
  0 < size ->
  forall fuel i chunks,
    List.length array - i <= fuel ->
    exists new,
      chunk_loop fuel i size array chunks = (chunks ++ new)%list /\
      concat new = skipn i array /\
      List.length new <= List.length array - i /\
      forall k c, nth_error new k = Some c ->
                  c = firstn size (skipn (i + k * size) array) /\
                  1 <= List.length c <= size.
Proof.
  intros Hsize.
  induction fuel as [|fuel IH]; intros i chunks Hfuel.
  - exists []. cbn [chunk_loop]. rewrite app_nil_r.
    split; [reflexivity|]. split; [|split; [simpl; lia|]].
    + symmetry. apply skipn_all2. lia.
    + intros [|k] c H; discriminate.
  - cbn [chunk_loop].
    destruct (Nat.ltb_spec i (List.length array)) as [Hlt|Hge].
    + destruct (IH (i + size) (chunks ++ [slice i (i + size) array])%list
                   ltac:(lia)) as (new & Hrun & Hcat & Hlen & Hnth).
      exists (slice i (i + size) array :: new).
      split; [rewrite Hrun, <- app_assoc; reflexivity|].
      assert (Hslice : slice i (i + size) array =
                         firstn size (skipn i array)).
      { unfold slice. f_equal. lia. }
      split; [|split].
      * cbn [concat]. rewrite Hcat, Hslice.
        replace (skipn (i + size) array) with (skipn size (skipn i array))
          by (rewrite skipn_skipn; f_equal; lia).
        apply firstn_skipn.
      * cbn [List.length]. lia.
      * intros [|k] c Hc.
        -- cbn [nth_error] in Hc. injection Hc as <-.
           rewrite Hslice, Nat.add_0_r. split; [reflexivity|].
           rewrite length_firstn, length_skipn. lia.
        -- cbn [nth_error] in Hc. apply Hnth in Hc as [-> Hc].
           split; [|exact Hc]. do 2 f_equal. lia.
    + exists []. rewrite app_nil_r. split; [reflexivity|].
      split; [|split; [simpl; lia|]].
      * symmetry. apply skipn_all2. lia.
      * intros [|k] c H; discriminate.
Qed.

Lemma chunk_loop_fuel {A : Type} (size : nat) (array : list A) :
  0 < size ->
  forall fuel fuel' i chunks,
    List.length array - i <= fuel ->
    List.length array - i <= fuel' ->
    chunk_loop fuel i size array chunks =
      chunk_loop fuel' i size array chunks.
Proof.
  intros Hsize.
  induction fuel as [|fuel IH]; intros [|fuel'] i chunks Hf Hf';
    cbn [chunk_loop]; try reflexivity.
  - destruct (Nat.ltb_spec i (List.length array)); [lia|reflexivity].
  - destruct (Nat.ltb_spec i (List.length array)); [lia|reflexivity].
  - destruct (Nat.ltb_spec i (List.length array)); [|reflexivity].
    apply IH; lia.
Qed.

(** X18. For a positive size, [chunkArray] cuts the array into its
    consecutive windows: the chunks put end to end give the array back,
    chunk [k] holds the elements [k * size, ..., k * size + size - 1] that
    exist, no chunk is empty or longer than [size], there are at most as
    many chunks as elements, and the loop needs no more than
    [array.length] iterations. *)
Theorem chunkArray_partitions {A : Type} (array : list A) (size : nat) :
  0 < size ->
  concat (chunkArray array size) = array /\
  List.length (chunkArray array size) <= List.length array /\
  (forall k c, nth_error (chunkArray array size) k = Some c ->
               c = window k size array /\ 1 <= List.length c <= size) /\
  (forall fuel, List.length array <= fuel ->
                chunk_loop fuel 0 size array [] = chunkArray array size).
Proof.
  intros Hsize. unfold chunkArray.
  destruct (chunk_loop_spec size array Hsize (List.length array) 0 []
              ltac:(lia)) as (new & Hrun & Hcat & Hlen & Hnth).
  cbn [app] in Hrun. rewrite Hrun.
  split; [exact Hcat|]. split; [lia|]. split; [exact Hnth|].
  intros fuel Hfuel. rewrite <- Hrun.
  apply chunk_loop_fuel; [exact Hsize|lia|lia].
Qed.

Lemma chunkArray_partitions_witness :
  concat (chunkArray [1; 2; 3; 4; 5] 2) = [1; 2; 3; 4; 5] /\
  nth_error (chunkArray [1; 2; 3; 4; 5] 2) 2 = Some [5].
Proof.
  destruct (chunkArray_partitions [1; 2; 3; 4; 5] 2 ltac:(lia))
    as (Hcat & _ & _ & _).
  split; [exact Hcat|reflexivity].
Defined.

Lemma replace_char_app (c : ascii) (repl a b : string) :
  replace_char c repl (a ++ b) =
    replace_char c repl a ++ replace_char c repl b.
Proof.
  induction a as [|d a IH]; [reflexivity|].
  cbn [append replace_char]. rewrite IH.
  destruct (Ascii.eqb d c); [now rewrite str_app_assoc|reflexivity].
Qed.

Lemma replace_char_lacks (c : ascii) (repl s : string) :
  lacks c s = true -> replace_char c repl s = s.
Proof.
  unfold lacks. induction s as [|d s IH]; [reflexivity|].
  cbn [all_chars replace_char]. intros H.
  apply andb_true_iff in H as [Hd Hs].
  apply negb_true_iff in Hd. rewrite Hd. now rewrite IH.
Qed.

Lemma subst_chars_app (f : ascii -> string) (a b : string) :
  subst_chars f (a ++ b) = subst_chars f a ++ subst_chars f b.
Proof.
  induction a as [|d a IH]; [reflexivity|].
  cbn [append subst_chars]. now rewrite IH, str_app_assoc.
Qed.

Lemma escaped_lacks (text : string) :
  lacks "<" (subst_chars escape_char text) = true /\
  lacks ">" (subst_chars escape_char text) = true.
Proof.
  unfold lacks.
  induction text as [|c text [IH1 IH2]]; [split; reflexivity|].
  cbn [subst_chars]. rewrite !all_chars_app, IH1, IH2, !andb_true_r.
  unfold escape_char.
  destruct (Ascii.eqb c "&") eqn:Hamp; [split; reflexivity|].
  destruct (Ascii.eqb c "<") eqn:Hlt; [split; reflexivity|].
  destruct (Ascii.eqb c ">") eqn:Hgt; [split; reflexivity|].
  cbn [all_chars]. rewrite Hlt, Hgt. split; reflexivity.
Qed.

(** X19. The three successive replacements of the conversion amount to
    one simultaneous substitution: every character is escaped on its own
    ([&] to [&amp;], [<] to [&lt;], [>] to [&gt;], any other character
    kept), so the ampersands the later replacements would see are never
    escaped twice, and the escaped text holds no [<] and no [>]. *)
Theorem escape_html_is_charwise (text : string) :
  escape_html text = subst_chars escape_char text /\
  lacks "<" (escape_html text) = true /\
  lacks ">" (escape_html text) = true.
Proof.
  assert (Heq : escape_html text = subst_chars escape_char text).
  { unfold escape_html.
    induction text as [|c text IH]; [reflexivity|].
    cbn [replace_char subst_chars]. unfold escape_char at 1.
    destruct (Ascii.eqb c "&") eqn:Hamp.
    - rewrite !replace_char_app, IH. reflexivity.
    - cbn [replace_char].
      destruct (Ascii.eqb c "<") eqn:Hlt.
      + rewrite !replace_char_app, IH. reflexivity.
      + cbn [replace_char].
        destruct (Ascii.eqb c ">") eqn:Hgt.
        * rewrite IH. reflexivity.
        * rewrite IH. reflexivity. }
  split; [exact Heq|]. rewrite Heq. apply escaped_lacks.
Qed.

Lemma occurs_in_app_l (sub a s : string) :
  occurs_in sub s -> occurs_in sub (a ++ s).
Proof.
  intros (pre & post & ->). exists (a ++ pre), post.
  now rewrite str_app_assoc.
Qed.

Lemma occurs_in_app_r (sub s b : string) :
  occurs_in sub s -> occurs_in sub (s ++ b).
Proof.
  intros (pre & post & ->). exists pre, (post ++ b).
  now rewrite !str_app_assoc.
Qed.

Lemma occurs_in_nonempty (c : ascii) (sub s : string) :
  occurs_in (String c sub) s -> s <> "".
Proof.
  intros (pre & post & ->). destruct pre; discriminate.
Qed.

Lemma occurs_in_concat (sep sub x : string) (l : list string) :
  In x l -> occurs_in sub x -> occurs_in sub (String.concat sep l).
Proof.
  intros Hin Hx.
  induction l as [|y l IH]; [contradiction|].
  destruct l as [|z l].
  - destruct Hin as [->|[]]. exact Hx.
  - change (String.concat sep (y :: z :: l))
      with (y ++ sep ++ String.concat sep (z :: l)).
    destruct Hin as [->|Hin].
    + now apply occurs_in_app_r.
    + do 2 apply occurs_in_app_l. now apply IH.
Qed.

Lemma split_blank_first (s : string) :
  forall cur in_sep,
    exists rest tail, split_blank s cur in_sep = (cur ++ rest) :: tail.
Proof.
  induction s as [|c s IH]; intros cur in_sep.
  - exists "", []. now rewrite str_app_nil_r.
  - cbn [split_blank].
    destruct (Ascii.eqb c newline).
    + destruct in_sep; [apply IH|].
      destruct s as [|d s'].
      * exists (String c ""), []. reflexivity.
      * destruct (Ascii.eqb d newline).
        -- exists "", (split_blank (String d s') "" true).
           now rewrite str_app_nil_r.
        -- destruct (IH (cur ++ String c "") false) as (rest & tail & ->).
           exists (String c rest), tail. now rewrite str_app_assoc.
    + destruct (IH (cur ++ String c "") false) as (rest & tail & ->).
      exists (String c rest), tail. now rewrite str_app_assoc.
Qed.

Lemma split_blank_run (sub post : string) :
  lacks newline sub = true ->
  forall cur,
    split_blank (sub ++ post) cur false =
      split_blank post (cur ++ sub) false.
Proof.
  unfold lacks. induction sub as [|d sub IH]; intros Hsub cur.
  - now rewrite str_app_nil_r.
  - cbn [all_chars] in Hsub. apply andb_true_iff in Hsub as [Hd Hsub].
    apply negb_true_iff in Hd.
    cbn [append split_blank]. rewrite Hd.
    rewrite (IH Hsub), str_app_assoc. reflexivity.
Qed.

Lemma split_blank_step (c e : ascii) (s cur : string) (in_sep : bool) :
  split_blank (String c (String e s)) cur in_sep =
    if Ascii.eqb c newline then
      if in_sep then split_blank (String e s) cur true
      else if Ascii.eqb e newline
           then cur :: split_blank (String e s) "" true
           else split_blank (String e s) (cur ++ String c "") false
    else split_blank (String e s) (cur ++ String c "") false.
Proof. reflexivity. Qed.

Lemma split_blank_keeps (d : ascii) (sub post : string) :
  lacks newline (String d sub) = true ->
  forall pre cur in_sep,
    exists piece,
      In piece (split_blank (pre ++ String d sub ++ post) cur in_sep) /\
      occurs_in (String d sub) piece.
Proof.
  intros Hsub.
  assert (Hd : Ascii.eqb d newline = false).
  { unfold lacks in Hsub. cbn [all_chars] in Hsub.
    apply andb_true_iff in Hsub as [Hd _]. now apply negb_true_iff in Hd. }
  assert (Hsub' : lacks newline sub = true).
  { unfold lacks in *. cbn [all_chars] in Hsub.
    now apply andb_true_iff in Hsub as [_ Hsub]. }
  induction pre as [|c pre IH]; intros cur in_sep.
  - cbn [append split_blank]. rewrite Hd.
    rewrite (split_blank_run sub post Hsub').
    destruct (split_blank_first post ((cur ++ String d "") ++ sub) false)
      as (rest & tail & ->).
    eexists. split; [now left|].
    exists cur, rest. rewrite !str_app_assoc. reflexivity.
  - destruct (IH cur true) as (p1 & Hin1 & Hocc1).
    destruct (IH "" true) as (p2 & Hin2 & Hocc2).
    destruct (IH (cur ++ String c "") false) as (p3 & Hin3 & Hocc3).
    change (String c pre ++ String d sub ++ post)
      with (String c (pre ++ String d sub ++ post)).
    destruct (pre ++ String d sub ++ post) as [|e s'] eqn:Hs.
    { destruct pre; discriminate. }
    rewrite split_blank_step.
    destruct (Ascii.eqb c newline).
    + destruct in_sep; [now exists p1|].
      destruct (Ascii.eqb e newline).
      * exists p2. split; [now right|exact Hocc2].
      * now exists p3.
    + now exists p3.
Qed.

Lemma rev_string_app (a b : string) :
  rev_string (a ++ b) = rev_string b ++ rev_string a.
Proof.
  induction a as [|c a IH]; cbn [append rev_string].
  - now rewrite str_app_nil_r.
  - now rewrite IH, str_app_assoc.
Qed.

Lemma rev_string_involutive (s : string) : rev_string (rev_string s) = s.
Proof.
  induction s as [|c s IH]; [reflexivity|].
  cbn [rev_string]. rewrite rev_string_app, IH. reflexivity.
Qed.

Lemma trim_start_keeps (d : ascii) (sub post : string) :
  is_space d = false ->
  forall pre,
    exists pre', trim_start (pre ++ String d sub ++ post) =
                   pre' ++ String d sub ++ post.
Proof.
  intros Hd. induction pre as [|c pre IH].
  - exists "". cbn [append trim_start]. now rewrite Hd.
  - cbn [append trim_start]. destruct (is_space c); [exact IH|].
    now exists (String c pre).
Qed.

(** Trimming keeps an occurrence of a text that neither starts nor ends
    with a blank. *)
Lemma trim_keeps (d e : ascii) (sub s : string) :
  is_space d = false -> is_space e = false ->
  occurs_in (String d (sub ++ String e "")) s ->
  occurs_in (String d (sub ++ String e "")) (trim s).
Proof.
  intros Hd He (pre & post & ->). unfold trim.
  destruct (trim_start_keeps d (sub ++ String e "") post Hd pre)
    as (pre' & ->).
  rewrite !rev_string_app.
  assert (Hrev : rev_string (String d (sub ++ String e "")) =
                   String e (rev_string sub ++ String d "")).
  { cbn [rev_string]. rewrite rev_string_app. reflexivity. }
  rewrite Hrev, str_app_assoc.
  destruct (trim_start_keeps e (rev_string sub ++ String d "")
              (rev_string pre') He (rev_string post)) as (post' & ->).
  rewrite <- Hrev, !rev_string_app, !rev_string_involutive.
  exists pre', (rev_string post'). now rewrite str_app_assoc.
Qed.

Lemma lacks_placeholder (c : ascii) (key : string) :
  Ascii.eqb "{" c = false -> Ascii.eqb "}" c = false ->
  lacks c key = true ->
  lacks c (String "{" (key ++ "}")) = true.
Proof.
  unfold lacks. intros Ho Hc Hkey.
  cbn [all_chars]. rewrite all_chars_app, Hkey, Ho. cbn [all_chars].
  now rewrite Hc.
Qed.

(** X20. The conversion of the plain-text body keeps placeholders: a
    placeholder [{key}] of the text whose name has no [&], [<], [>] and no
    line break occurs in the HTML the page submits, whatever surrounds
    it. *)
Theorem placeholders_survive_conversion (key text : string) :
  plain_name key = true ->
  occurs_in ("{" ++ key ++ "}") text ->
  occurs_in ("{" ++ key ++ "}") (plainTextToHtml text).
Proof.
  unfold plain_name. intros Hkey Hocc.
  apply andb_true_iff in Hkey as [Hkey Hnl].
  apply andb_true_iff in Hkey as [Hkey Hgt].
  apply andb_true_iff in Hkey as [Hamp Hlt].
  change ("{" ++ key ++ "}") with (String "{" (key ++ String "}" "")) in *.
  set (ph := String "{" (key ++ String "}" "")) in *.
  assert (Hph : forall c, Ascii.eqb "{" c = false ->
                          Ascii.eqb "}" c = false ->
                          lacks c key = true -> lacks c ph = true)
    by (intros c; apply lacks_placeholder).
  pose proof (Hph "&"%char eq_refl eq_refl Hamp) as Pamp.
  pose proof (Hph "<"%char eq_refl eq_refl Hlt) as Plt.
  pose proof (Hph ">"%char eq_refl eq_refl Hgt) as Pgt.
  pose proof (Hph newline eq_refl eq_refl Hnl) as Pnl.
  unfold plainTextToHtml.
  pose proof (occurs_in_nonempty _ _ _ Hocc) as Hne.
  apply String.eqb_neq in Hne. rewrite Hne. cbv zeta.
  destruct Hocc as (pre & post & ->).
  assert (Hesc : exists pre' post',
             escape_html (pre ++ ph ++ post) = pre' ++ ph ++ post').
  { unfold escape_html. rewrite !replace_char_app.
    rewrite (replace_char_lacks "&" _ ph Pamp).
    rewrite (replace_char_lacks "<" _ ph Plt).
    rewrite (replace_char_lacks ">" _ ph Pgt).
    eexists. eexists. reflexivity. }
  destruct Hesc as (pre' & post' & ->).
  destruct (split_blank_keeps "{" (key ++ String "}" "") post' Pnl pre' ""
              false) as (piece & Hin & Hpiece).
  fold ph in Hin, Hpiece.
  apply (trim_keeps "{" "}" key piece eq_refl eq_refl) in Hpiece.
  fold ph in Hpiece.
  set (paragraphs := filter _ (map trim _)).
  assert (Hpar : In (trim piece) paragraphs).
  { apply filter_In. split; [now apply in_map|].
    pose proof (occurs_in_nonempty _ _ _ Hpiece) as Hnonempty.
    destruct (trim piece); [contradiction|reflexivity]. }
  set (htmlParagraphs := String.concat _ (map _ paragraphs)).
  assert (Hhtml : occurs_in ph htmlParagraphs).
  { apply (occurs_in_concat _ _
             ("<p>" ++ replace_char newline "<br>" (trim piece) ++ "</p>")).
    - apply (in_map (fun p => "<p>" ++ replace_char newline "<br>" p
                              ++ "</p>")). exact Hpar.
    - apply occurs_in_app_l, occurs_in_app_r.
      destruct Hpiece as (a & b & ->).
      rewrite !replace_char_app, (replace_char_lacks newline _ ph Pnl).
      now exists (replace_char newline "<br>" a),
                 (replace_char newline "<br>" b). }
  assert (Hor : or_str htmlParagraphs "<p></p>" = htmlParagraphs).
  { unfold or_str.
    pose proof (occurs_in_nonempty _ _ _ Hhtml) as Hnonempty.
    apply String.eqb_neq in Hnonempty. now rewrite Hnonempty. }
  rewrite Hor. unfold unlines.
  apply (occurs_in_concat _ _ ("    " ++ htmlParagraphs)).
  - do 7 right. left. reflexivity.
  - now apply occurs_in_app_l.
Qed.

Lemma placeholders_survive_conversion_witness :
  occurs_in "{Name}" (plainTextToHtml "Dear {Name}, <hello> & bye").
Proof.
  apply (placeholders_survive_conversion "Name"
           "Dear {Name}, <hello> & bye" eq_refl).
  exists "Dear ", ", <hello> & bye". reflexivity.
Defined.

Lemma truthy_toStr_nonempty (v : JsVal) :
  truthy v = true -> is_nullish v = false /\ toStr v <> "".
Proof.
  destruct v as [| |[|]|n|s]; cbn [truthy is_nullish toStr];
    try discriminate; intros H; (split; [reflexivity|]).
  - discriminate.
  - apply negb_true_iff, Z.eqb_neq in H.
    destruct n as [|p|p]; [contradiction| |discriminate].
    cbn [Z.to_int NilEmpty.string_of_int].
    pose proof (DecimalPos.Unsigned.to_uint_nonnil p) as Hnil.
    destruct (Pos.to_uint p); [contradiction|discriminate..].
  - now apply negb_true_iff, String.eqb_neq in H.
Qed.

Lemma has_email_address (row : Obj) :
  has_email row = true -> getField (Some row) "Email" "" <> "".
Proof.
  unfold has_email, getField.
  change (toLowerCase "Email") with "email".
  destruct (find (fun k => String.eqb (toLowerCase k) "email") (keys row))
    as [key|]; [|discriminate].
  intros H. apply andb_true_iff in H as [Hkey Hval].
  apply negb_true_iff in Hkey. rewrite Hkey.
  destruct (obj_get key row) as [v|]; [|discriminate].
  apply truthy_toStr_nonempty in Hval as [-> Hstr]. exact Hstr.
Qed.

Section LoadedRows.

Variable Env : Type.
Variable smtp_sendMail : MailOptions -> Env -> option JsError * Env.
Variable SMTP_USER : option string.

(** X21. Every row the page keeps from a parsed CSV file is the cleaned
    form of one of its records and has an address: the server finds a
    non-empty [Email] value in it, so the sequencer never answers
    "Missing Email" for a loaded row but makes at least one delivery
    attempt to that address. *)
Theorem loaded_rows_have_address (data : list Obj) (row : Obj)
  (subject html : string) (w : World Env) :
  In row (load_rows data) ->
  (exists raw, In raw data /\ row = clean_row raw) /\
  getField (Some row) "Email" "" <> "" /\
  exists r w',
    sendToRecipientWithRetry Env smtp_sendMail SMTP_USER (Some row)
                             subject html w = (Some r, w') /\
    r <> missing_email_result /\
    1 <= res_attempt r /\
    res_email r = getField (Some row) "Email" "".
Proof.
  unfold load_rows. intros Hin.
  apply filter_In in Hin as [Hin Hhas].
  apply in_map_iff in Hin as (raw & Hraw & Hdata).
  pose proof (has_email_address row Hhas) as Haddr.
  split; [now exists raw|]. split; [exact Haddr|].
  destruct (sendToRecipient_result Env smtp_sendMail SMTP_USER (Some row)
              subject html w)
    as (r & w' & Hrun & (_ & _ & Hhasaddr & _) & _).
  destruct (Hhasaddr Haddr) as [Hatt Hemail].
  exists r, w'. split; [exact Hrun|]. split; [|split; assumption].
  intros ->. cbn [res_attempt missing_email_result] in Hatt. lia.
Qed.

End LoadedRows.

Lemma loaded_rows_have_address_witness :
  load_rows csv_records = [[("Email", VStr "a@x.com"); ("Name", VStr "Ann")]]
  /\ getField (Some [("Email", VStr "a@x.com"); ("Name", VStr "Ann")])
              "Email" "" <> "".
Proof.
  split; [reflexivity|].
  destruct (loaded_rows_have_address unit send_accepting sender csv_records
              [("Email", VStr "a@x.com"); ("Name", VStr "Ann")]
              "Hi" "<p>Hi</p>" world0) as (_ & Haddr & _).
  - left. reflexivity.
  - exact Haddr.
Defined.

(** ** Instances on the example runs *)

Lemma invalid_request_has_no_effect_witness :
  (exists msg,
     send_emails unit smtp_ok send_accepting sender req_no_recipients
                 db_after_abc world0 =
       (Some (mkResponse 400 (ErrorBody msg None VUndefined)),
        db_after_abc, world0)) /\
  (exists r,
     fst (fst (send_emails unit smtp_ok send_accepting sender req_abc
                           db_empty world0)) = Some r /\
     (http_status r = 200 \/ http_status r = 500)).
Proof.
  split.
  - apply (proj1 (invalid_request_has_no_effect unit smtp_ok send_accepting
                    sender req_no_recipients db_after_abc world0)).
    intros recs (Hrecs & Hne & _). cbn in Hrecs.
    injection Hrecs as <-. now apply Hne.
  - exact (proj2 (invalid_request_has_no_effect unit smtp_ok send_accepting
                    sender req_abc db_empty world0) recs_abc valid_req_abc).
Defined.

Lemma earlier_batches_untouched_witness :
  exists bs rs,
    batches (snd (fst (send_emails unit smtp_ok send_accepting sender
                                   req_one db_after_abc world0))) =
      (batches db_after_abc ++ bs)%list /\
    batch_recipients (snd (fst (send_emails unit smtp_ok send_accepting
                                            sender req_one db_after_abc
                                            world0))) =
      (batch_recipients db_after_abc ++ rs)%list /\
    List.length bs <= 1.
Proof.
  destruct (earlier_batches_untouched unit smtp_ok send_accepting sender
              req_one db_after_abc world0 (proj1 db_after_abc_wf))
    as (bs & rs & Hb & Hr & Hlen & _).
  exists bs, rs. repeat split; assumption.
Defined.

Lemma results_are_persisted_witness :
  exists bid db' rs row,
    snd (fst (send_emails unit smtp_ok
                (send_failing "b@x.com" err_econnreset) sender req_abc
                db_empty world0)) = db' /\
    rows_at bid 1 db' = [row] /\
    r_email row = "b@x.com" /\
    match nth_error rs 1 with
    | Some r => r_status row = res_status r
    | None => r_status row = pending
    end.
Proof.
  destruct (results_are_persisted unit smtp_ok
              (send_failing "b@x.com" err_econnreset) sender req_abc
              recs_abc db_empty world0 world_verified valid_req_abc
              eq_refl db_empty_ok)
    as (s & f & p & ko & rs & bid & db' & w' & Hrun & Hrows).
  destruct (Hrows 1 (rcp "b@x.com") eq_refl)
    as (row & Hat & _ & _ & Hemail & _ & _ & Hres).
  exists bid, db', rs, row. rewrite Hrun.
  split; [reflexivity|]. split; [exact Hat|]. split; [exact Hemail|].
  destruct (nth_error rs 1); exact (proj1 Hres).
Defined.

Lemma persistent_failure_policy_witness :
  exists w',
    sendToRecipientWithRetry unit (send_rejecting err_econnreset) sender
                             (rcp "b@x.com") "Hi" "<p>Hi</p>" world0 =
      (Some (mkSendResult "b@x.com" error 3 (Some "read ECONNRESET")
                          (Some NETWORK)), w').
Proof.
  apply (persistent_failure_policy unit (send_rejecting err_econnreset)
           sender err_econnreset (rcp "b@x.com") "Hi" "<p>Hi</p>" world0).
  - intros opts e. reflexivity.
  - intros H. vm_compute in H. discriminate H.
Defined.

Lemma mail_only_to_reached_recipients_witness :
  exists w' sent_events,
    snd (send_emails unit smtp_ok (send_failing "b@x.com" err_econnreset)
                     sender req_abc db_empty world0) = w' /\
    trace w' = (trace world_verified ++ sent_events)%list /\
    forall m, In (EvSendMail m) sent_events -> mo_to m <> "".
Proof.
  destruct (mail_only_to_reached_recipients unit smtp_ok
              (send_failing "b@x.com" err_econnreset) sender req_abc
              recs_abc db_empty world0 world_verified valid_req_abc eq_refl)
    as (s & f & p & ko & rs & bid & db' & w' & evs & Hrun & Htr & _ & _
        & _ & _ & Hto).
  exists w', evs. rewrite Hrun.
  split; [reflexivity|]. split; [exact Htr|].
  intros m Hm.
  destruct (Hto m Hm) as (j & rec & r & _ & _ & _ & _ & Hmo & Hne).
  now rewrite Hmo.
Defined.

Lemma all_accepted_completes_witness :
  exists bid db' b,
    snd (fst (send_emails unit smtp_ok send_accepting sender req_abc
                          db_empty world0)) = db' /\
    find_batch bid db' = Some b /\
    b_status b = completed /\ b_sent b = Some 3.
Proof.
  assert (Haddr : Forall (fun rec => getField rec "Email" "" <> "")
                         recs_abc).
  { repeat constructor; intros H; vm_compute in H; discriminate H. }
  destruct (all_accepted_completes unit smtp_ok send_accepting sender
              req_abc recs_abc db_empty world0 world_verified valid_req_abc
              eq_refl (fun _ _ => eq_refl) Haddr db_empty_ok)
    as (bid & db' & w' & b & Hrun & Hfind & Hst & _ & Hsent & _).
  exists bid, db', b. rewrite Hrun.
  split; [reflexivity|]. split; [exact Hfind|].
  split; [exact Hst|exact Hsent].
Defined.

(** ** The preview archive and the mail *)

Lemma append_all_map {Pdf : Type} (pdfFiles : list (PdfFile Pdf)) :
  append_all Pdf pdfFiles =
    map (fun file => (filename Pdf file, buffer Pdf file)) pdfFiles.
Proof.
  unfold append_all.
  assert (H : forall acc,
             fold_left (fun archive file =>
                          (archive ++ [(filename Pdf file, buffer Pdf file)])
                            %list) pdfFiles acc =
               (acc ++ map (fun file => (filename Pdf file, buffer Pdf file))
                           pdfFiles)%list).
  { induction pdfFiles as [|file files IH]; intros acc; cbn [fold_left map].
    - now rewrite app_nil_r.
    - rewrite IH, <- app_assoc. reflexivity. }
  apply (H []).
Qed.

Lemma render_files_recorded (subject htmlBody : string)
  (recipients : list (option Obj)) :
  forall (b : unit) (acc : list (PdfFile string)),
    render_files string unit page_pdf_ok subject htmlBody recipients b acc =
      inl (acc ++
           map (fun rec =>
                  mkPdfFile string (filename_of (getField rec "Email" "unknown"))
                            (full_html (personalized subject rec)
                                       (personalized htmlBody rec)))
               recipients)%list.
Proof.
  induction recipients as [|rec rest IH]; intros b acc.
  - cbn [render_files map]. now rewrite app_nil_r.
  - cbn [render_files map]. unfold page_pdf_ok at 1.
    rewrite IH, <- app_assoc. reflexivity.
Qed.

(** X22. The preview archive shows the mail: with a renderer that returns
    the page it is given, [/api/email-pdfs] answers a valid request with
    one entry per recipient, in order, named after the recipient's
    address, whose page is the HTML body of the message the sequencer
    sends to that recipient whenever the rendered body is a full document
    (contains [<html], in any letter case), and that rendered body inside
    the route's HTML shell otherwise. *)
Theorem preview_shows_the_mail (SMTP_USER : option string)
  (req : ArchiveRequest) (recs : list (option Obj)) :
  areq_recipients req = Some recs -> recs <> [] ->
  areq_subject req <> "" -> areq_htmlBody req <> "" ->
  exists entries,
    email_pdfs string unit (inl tt) page_pdf_ok req =
      ArchiveZip string entries /\
    List.length entries = List.length recs /\
    forall j rec,
      nth_error recs j = Some rec ->
      exists page,
        nth_error entries j =
          Some (filename_of (getField rec "Email" "unknown"), page) /\
        (includes (toLowerCase (personalized (areq_htmlBody req) rec))
                  "<html" = true ->
         page = mo_html (mail_for SMTP_USER (areq_subject req)
                                  (areq_htmlBody req) rec)) /\
        (includes (toLowerCase (personalized (areq_htmlBody req) rec))
                  "<html" = false ->
         page = html_shell (personalized (areq_subject req) rec)
                           (personalized (areq_htmlBody req) rec)).
Proof.
  intros Hrecs Hne Hsubj Hbody. unfold email_pdfs. rewrite Hrecs.
  destruct recs as [|rec0 recs0]; [contradiction|].
  apply String.eqb_neq in Hsubj. apply String.eqb_neq in Hbody.
  rewrite Hsubj, Hbody. cbn [orb].
  rewrite render_files_recorded, append_all_map. cbn [app].
  eexists. split; [reflexivity|]. split; [now rewrite !length_map|].
  intros j rec Hj. rewrite !nth_error_map, Hj. cbn [option_map filename buffer].
  eexists. split; [reflexivity|]. unfold full_html. split; intros Hdoc.
  - rewrite Hdoc. unfold mail_for, make_mailOptions. cbn [mo_html].
    fold (personalized (areq_htmlBody req) rec). unfold or_str.
    destruct (String.eqb_spec (personalized (areq_htmlBody req) rec) "")
      as [He|_]; [|reflexivity].
    rewrite He in Hdoc. discriminate Hdoc.
  - rewrite Hdoc. reflexivity.
Qed.

Lemma preview_shows_the_mail_witness :
  exists entries,
    email_pdfs string unit (inl tt) page_pdf_ok areq_abc =
      ArchiveZip string entries /\
    List.length entries = 4.
Proof.
  destruct (preview_shows_the_mail sender areq_abc
              [rcp "a@x.com"; Some [("Email", VStr "")];
               Some [("email", VStr "Zoe <z/1>@x.com")]; Some []]
              eq_refl ltac:(discriminate) ltac:(discriminate)
              ltac:(discriminate))
    as (entries & Hrun & Hlen & _).
  exists entries. split; [exact Hrun|exact Hlen].
Defined.

Lemma map_chars_app (f : ascii -> ascii) (a b : string) :
  map_chars f (a ++ b) = map_chars f a ++ map_chars f b.
Proof.
  induction a as [|c a IH]; [reflexivity|].
  cbn [append map_chars]. now rewrite IH.
Qed.

Lemma startsWith_app (a b p : string) :
  startsWith a p = true -> startsWith (a ++ b) p = true.
Proof.
  revert a. induction p as [|c p IH]; intros a H;
    [destruct (a ++ b); reflexivity|].
  destruct a as [|d a]; [discriminate|].
  cbn [append startsWith] in *.
  apply andb_true_iff in H as [-> H]. now rewrite (IH a H).
Qed.

Lemma includes_app (a b sub : string) :
  includes a sub = true -> includes (a ++ b) sub = true.
Proof.
  induction a as [|c a IH]; intros H.
  - cbn [includes] in H. rewrite orb_false_r in H.
    destruct sub; [|discriminate]. destruct b; reflexivity.
  - cbn [includes] in H. apply orb_true_iff in H as [H|H].
    + change (String c a ++ b) with (String c (a ++ b)).
      cbn [includes].
      change (String c (a ++ b)) with (String c a ++ b).
      now rewrite (startsWith_app _ b _ H).
    + change (String c a ++ b) with (String c (a ++ b)).
      cbn [includes]. rewrite (IH H). apply orb_true_r.
Qed.

(** The rendering of a template keeps what stands before its first opening
    brace. *)
Lemma applyTemplate_keeps_prefix (pre : string) (o : Obj) :
  all_chars (fun c => negb (Ascii.eqb c "{")) pre = true ->
  forall tail,
    exists tail', fold_left apply_entry o (pre ++ tail) = pre ++ tail'.
Proof.
  intros Hpre. induction o as [|[key rawValue] o IH]; intros tail.
  - now exists tail.
  - cbn [fold_left apply_entry].
    destruct (String.eqb key ""); [apply IH|].
    unfold replace_placeholder, placeholder.
    change ("{" ++ key ++ "}") with (String "{" (key ++ "}")).
    rewrite (scan_copies _ _ pre "" tail Hpre). apply IH.
Qed.

(** X23. A body written on the sending page is sent as it is rendered:
    the HTML the page makes of any text is not empty and, rendered for any
    recipient, still a full document, so the message body is that
    rendering (never the "Dear ..." fallback) and the preview route
    prints the same document without adding its shell. *)
Theorem page_body_is_sent_as_rendered (SMTP_USER : option string)
  (subject text : string) (rec : option Obj) :
  plainTextToHtml text <> "" /\
  includes (toLowerCase (personalized (plainTextToHtml text) rec)) "<html"
    = true /\
  mo_html (mail_for SMTP_USER subject (plainTextToHtml text) rec) =
    personalized (plainTextToHtml text) rec /\
  full_html (personalized subject rec)
            (personalized (plainTextToHtml text) rec) =
    personalized (plainTextToHtml text) rec.
Proof.
  assert (Hshape : exists pre tail,
             plainTextToHtml text = pre ++ tail /\
             all_chars (fun c => negb (Ascii.eqb c "{")) pre = true /\
             includes (toLowerCase pre) "<html" = true /\ pre <> "").
  { unfold plainTextToHtml. destruct (String.eqb text "").
    - exists "<html>", "<body><p></p></body></html>".
      repeat split; discriminate.
    - exists ("<!DOCTYPE html>" ++ nl ++ "<html>"). eexists.
      split; [|repeat split; discriminate].
      unfold unlines. cbn [String.concat].
      rewrite !str_app_assoc. reflexivity. }
  destruct Hshape as (pre & tail & Hbody & Hpre & Hdoc & Hne).
  assert (Hbody_ne : plainTextToHtml text <> "").
  { rewrite Hbody. destruct pre; [contradiction|discriminate]. }
  assert (Hrendered : includes (toLowerCase
                                  (personalized (plainTextToHtml text) rec))
                               "<html" = true).
  { unfold personalized, applyTemplate.
    apply String.eqb_neq in Hbody_ne. rewrite Hbody_ne, Hbody.
    destruct (applyTemplate_keeps_prefix pre
                (make_vars (getField rec "Name" "Candidate") rec) Hpre tail)
      as (tail' & ->).
    unfold toLowerCase. rewrite map_chars_app. now apply includes_app. }
  split; [exact Hbody_ne|]. split; [exact Hrendered|].
  assert (Hnonempty : personalized (plainTextToHtml text) rec <> "").
  { intros He. rewrite He in Hrendered. discriminate Hrendered. }
  split.
  - unfold mail_for, make_mailOptions. cbn [mo_html].
    fold (personalized (plainTextToHtml text) rec). unfold or_str.
    apply String.eqb_neq in Hnonempty. now rewrite Hnonempty.
  - unfold full_html. now rewrite Hrendered.
Qed.
